(** * USMLE prep: the question validator and the question/score API

    A shallow embedding of
      - [src/lib/gemini.ts]          ([generateQuestionsWithGemini]),
      - [src/pages/api/generate.ts]  ([handler], here [Generate.handler]),
      - [src/pages/api/questions.ts] ([handleGet], [handlePost], [handleDelete]),
    over a small model of the JavaScript values these functions inspect at run
    time (the TypeScript annotations are erased: what reaches the validator is
    whatever [JSON.parse] produced).

    Layout: [JS] models the run-time library the sources call ([typeof],
    truthiness, [String], [JSON.parse], [JSON.stringify], [trim], [includes],
    the one regular expression); [Gemini], [Store], [Generate] and [Questions]
    follow the source functions statement by statement; the theorems come
    last. *)

From Stdlib Require Import Ascii String.
From Stdlib Require Import List ZArith NArith Bool Lia Permutation.
From Stdlib Require Import Floats.SpecFloat.
From Stdlib Require Import Sorting.Sorted.
Import ListNotations.

Set Implicit Arguments.
Set Warnings "-register-all".


(* ================================================================== *)
(** * The JavaScript run-time model                                     *)
(* ================================================================== *)

Module JS.

(** ** Strings

    A JavaScript string is a sequence of UTF-16 code units.  Literals of the
    sources are written as Rocq strings and converted with [str]. *)

Definition jschar := N.
Definition jsstring := list jschar.

Definition str (s : string) : jsstring :=
  map N_of_ascii (list_ascii_of_string s).

Definition ch (a : ascii) : jschar := N_of_ascii a.

Fixpoint jsstring_eqb (a b : jsstring) : bool :=
  match a, b with
  | [], [] => true
  | x :: a', y :: b' => N.eqb x y && jsstring_eqb a' b'
  | _, _ => false
  end.

(** [prefix_of p s]: [s] starts with [p]. *)
Fixpoint prefix_of (p s : jsstring) : bool :=
  match p, s with
  | [], _ => true
  | x :: p', y :: s' => N.eqb x y && prefix_of p' s'
  | _ :: _, [] => false
  end.

(** [String.prototype.includes]: [needle] occurs somewhere in [s]. *)
Fixpoint includes (s needle : jsstring) : bool :=
  prefix_of needle s ||
  match s with
  | [] => false
  | _ :: s' => includes s' needle
  end.

(** White space and line terminators of ECMAScript, as [trim] strips them:
    TAB, LF, VT, FF, CR, SP, NBSP, the Unicode space separators, LS, PS and
    the byte order mark. *)
Definition is_js_space (c : jschar) : bool :=
  ((9 <=? c) && (c <=? 13) || (c =? 32) || (c =? 160) || (c =? 5760)
   || ((8192 <=? c) && (c <=? 8202)) || (c =? 8232) || (c =? 8233)
   || (c =? 8239) || (c =? 8287) || (c =? 12288) || (c =? 65279))%N.

Fixpoint trim_start (s : jsstring) : jsstring :=
  match s with
  | c :: s' => if is_js_space c then trim_start s' else s
  | [] => []
  end.

(** [String.prototype.trim]. *)
Definition trim (s : jsstring) : jsstring :=
  rev (trim_start (rev (trim_start s))).

(** ** Numbers: IEEE 754 binary64, as [spec_float] with [prec = 53] and
    [emax = 1024]. *)

Definition number := spec_float.
Definition prec : Z := 53.
Definition emax : Z := 1024.

Definition num_of_Z (z : Z) : number := binary_normalize prec emax z 0 false.
Definition num_of_nat (n : nat) : number := num_of_Z (Z.of_nat n).

Definition num_lt (a b : number) : bool := SFltb a b.   (* a <  b *)
Definition num_le (a b : number) : bool := SFleb a b.   (* a <= b *)
Definition num_gt (a b : number) : bool := SFltb b a.   (* a >  b *)
Definition num_ge (a b : number) : bool := SFleb b a.   (* a >= b *)
Definition num_div (a b : number) : number := SFdiv prec emax a b.
Definition num_mul (a b : number) : number := SFmul prec emax a b.
Definition num_sub (a b : number) : number := SFsub prec emax a b.


(** *** Decimal digits *)

Definition digit_char (d : Z) : jschar := Z.to_N (48 + d).

Fixpoint digits_fuel (fuel : nat) (z : Z) (acc : jsstring) : jsstring :=
  match fuel with
  | O => acc
  | S f =>
      let acc' := digit_char (z mod 10) :: acc in
      if (z <? 10)%Z then acc' else digits_fuel f (z / 10) acc'
  end.

(** The decimal digits of a natural number [z], most significant first. *)
Definition decimal (z : Z) : jsstring :=
  digits_fuel (S (Z.to_nat (Z.log2 z))) z [].

Definition is_digit (c : jschar) : bool := ((48 <=? c) && (c <=? 57))%N.

(** The value of a digit string read in base ten. *)
Definition digits_value (ds : jsstring) : Z :=
  fold_left (fun acc c => 10 * acc + (Z.of_N c - 48))%Z ds 0%Z.

(** *** Decimal literal to number (the rounding [JSON.parse] performs)

    The literal denotes [m * 10 ^ e10] exactly; the result is that real
    number rounded to nearest, ties to even.  Literals far outside the
    binary64 range are cut off first, which does not change the result:
    from [10 ^ 400] on every value rounds to infinity and below
    [10 ^ (-400)] every value rounds to zero. *)
Definition num_of_decimal (neg : bool) (m : Z) (e10 : Z) : number :=
  match m with
  | Zpos p =>
      let d := Z.of_nat (length (decimal m)) in
      if (400 <? d + e10)%Z then S754_infinity neg
      else if (d + e10 <? -400)%Z then S754_zero neg
      else if (0 <=? e10)%Z then
        binary_round prec emax neg (Z.to_pos (m * 10 ^ e10)) 0
      else
        let '(q, e, l) :=
          SFdiv_core_binary prec emax m 0 (10 ^ (- e10)) 0 in
        binary_round_aux prec emax neg q e l
  | _ => S754_zero neg
  end.

(** *** Number to string ([Number::toString], radix ten)

    For a positive finite [x = m * 2 ^ e] the standard asks for integers
    [n], [k], [s] with [10 ^ (k-1) <= s < 10 ^ k], [s * 10 ^ (n-k)] rounding
    to [x], [k] as small as possible and, among those, [s * 10 ^ (n-k)]
    closest to [x] (the even [s] on a tie).  A real rounds to [x] when it lies
    between the midpoints to the neighbouring floats, the midpoints included
    exactly when [m] is even.  All quantities below are in units of
    [2 ^ (e - 2)], so [x] itself is [4 * m]. *)

(** Compare [s * 10 ^ t] with [b * 2 ^ u]. *)
Definition cmp_scaled (s t b u : Z) : comparison :=
  let l1 := if (0 <=? t)%Z then (s * 10 ^ t)%Z else s in
  let r1 := if (0 <=? t)%Z then b else (b * 10 ^ (- t))%Z in
  let l2 := if (0 <=? u)%Z then l1 else (l1 * 2 ^ (- u))%Z in
  let r2 := if (0 <=? u)%Z then (r1 * 2 ^ u)%Z else r1 in
  (l2 ?= r2)%Z.

(** The distance [|s * 10 ^ t - b * 2 ^ u|] as a fraction. *)
Definition dist_scaled (s t b u : Z) : Z * Z :=
  let l1 := if (0 <=? t)%Z then (s * 10 ^ t)%Z else s in
  let r1 := if (0 <=? t)%Z then b else (b * 10 ^ (- t))%Z in
  let l2 := if (0 <=? u)%Z then l1 else (l1 * 2 ^ (- u))%Z in
  let r2 := if (0 <=? u)%Z then (r1 * 2 ^ u)%Z else r1 in
  let d1 := if (0 <=? t)%Z then 1%Z else (10 ^ (- t))%Z in
  let d2 := if (0 <=? u)%Z then 1%Z else (2 ^ (- u))%Z in
  (Z.abs (l2 - r2), (d1 * d2)%Z).

(** [floor (b * 2 ^ u / 10 ^ t)]. *)
Definition floor_scaled (b u t : Z) : Z :=
  let num := if (0 <=? u)%Z then (b * 2 ^ u)%Z else b in
  let den := if (0 <=? u)%Z then 1%Z else (2 ^ (- u))%Z in
  let num' := if (0 <=? t)%Z then num else (num * 10 ^ (- t))%Z in
  let den' := if (0 <=? t)%Z then (den * 10 ^ t)%Z else den in
  (num' / den')%Z.

Definition emin : Z := 3 - emax - prec.

(** Does [s * 10 ^ t] round to the float [m * 2 ^ e]? *)
Definition rounds_to (m : positive) (e : Z) (s t : Z) : bool :=
  let lowgap :=
    if (Pos.eqb m (2 ^ 52)%positive && (emin <? e)%Z)%bool then 1%Z else 2%Z in
  let lo := (4 * Zpos m - lowgap)%Z in
  let hi := (4 * Zpos m + 2)%Z in
  let even := Z.even (Zpos m) in
  let above_lo :=
    match cmp_scaled s t lo (e - 2) with
    | Gt => true | Eq => even | Lt => false
    end in
  let below_hi :=
    match cmp_scaled s t hi (e - 2) with
    | Lt => true | Eq => even | Gt => false
    end in
  above_lo && below_hi.

(** A candidate: digits [s], exponent [n], and its distance to [x]. *)
Definition candidate (m : positive) (e : Z) (k n : Z) (s : Z)
  : option (Z * Z * (Z * Z)) :=
  if ((10 ^ (k - 1) <=? s)%Z && (s <? 10 ^ k)%Z && rounds_to m e s (n - k))%bool
  then Some (s, n, dist_scaled s (n - k) (4 * Zpos m) (e - 2))
  else None.

Definition better (a b : option (Z * Z * (Z * Z)))
  : option (Z * Z * (Z * Z)) :=
  match a, b with
  | None, _ => b
  | _, None => a
  | Some (s1, _, (a1, b1)), Some (s2, _, (a2, b2)) =>
      match (a1 * b2 ?= a2 * b1)%Z with
      | Lt => a
      | Gt => b
      | Eq => if Z.even s1 then a else b
      end
  end.

Definition candidates_k (m : positive) (e : Z) (n_est k : Z)
  : option (Z * Z * (Z * Z)) :=
  fold_left
    (fun best n =>
       let s := floor_scaled (4 * Zpos m) (e - 2) (n - k) in
       better (better best (candidate m e k n s)) (candidate m e k n (s + 1)))
    [n_est - 2; n_est - 1; n_est; n_est + 1]%Z
    None.

Fixpoint shortest_from (fuel : nat) (m : positive) (e : Z) (n_est k : Z)
  : option (Z * Z) :=
  match fuel with
  | O => None
  | S f =>
      match candidates_k m e n_est k with
      | Some (s, n, _) => Some (s, n)
      | None => shortest_from f m e n_est (k + 1)
      end
  end.

(** The pair [(s, n)] of the standard; seventeen digits always suffice. *)
Definition shortest_digits (m : positive) (e : Z) : Z * Z :=
  let bits := (Zpos (digits2_pos m) + e)%Z in
  let n_est := (bits * 30103 / 100000 + 1)%Z in
  match shortest_from 17 m e n_est 1 with
  | Some r => r
  | None => (0, 0)%Z
  end.

Definition zeros (n : Z) : jsstring := repeat (ch "0") (Z.to_nat n).

Definition format_digits (ds : jsstring) (n : Z) : jsstring :=
  let k := Z.of_nat (length ds) in
  if ((k <=? n) && (n <=? 21))%Z%bool then ds ++ zeros (n - k)
  else if ((0 <? n) && (n <=? 21))%Z%bool then
    firstn (Z.to_nat n) ds ++ [ch "."] ++ skipn (Z.to_nat n) ds
  else if ((-6 <? n) && (n <=? 0))%Z%bool then
    [ch "0"; ch "."] ++ zeros (- n) ++ ds
  else
    let ex := [ch "e"; if (0 <=? n - 1)%Z then ch "+" else ch "-"]
                ++ decimal (Z.abs (n - 1)) in
    match ds with
    | [d] => d :: ex
    | d :: rest => d :: ch "." :: rest ++ ex
    | [] => ex
    end.

Definition Number_toString (x : number) : jsstring :=
  match x with
  | S754_nan => str "NaN"
  | S754_zero _ => str "0"
  | S754_infinity s => (if s then [ch "-"] else []) ++ str "Infinity"
  | S754_finite s m e =>
      let '(sd, n) := shortest_digits m e in
      (if s then [ch "-"] else []) ++ format_digits (decimal sd) n
  end.

(** ** Values

    The values [JSON.parse] builds, plus [undefined] (the result of reading
    an absent property).  An object lists its own properties in the order
    [JSON.stringify] enumerates them. *)

Inductive JSValue : Type :=
| JUndefined
| JNull
| JBool (b : bool)
| JNum (n : number)
| JStr (s : jsstring)
| JArr (elems : list JSValue)
| JObj (props : list (jsstring * JSValue)).

Inductive JSType := TyUndefined | TyObject | TyBoolean | TyNumber | TyString.

(** The [typeof] operator. *)
Definition typeof (v : JSValue) : JSType :=
  match v with
  | JUndefined => TyUndefined
  | JNull | JArr _ | JObj _ => TyObject
  | JBool _ => TyBoolean
  | JNum _ => TyNumber
  | JStr _ => TyString
  end.

Definition JSType_eqb (a b : JSType) : bool :=
  match a, b with
  | TyUndefined, TyUndefined | TyObject, TyObject | TyBoolean, TyBoolean
  | TyNumber, TyNumber | TyString, TyString => true
  | _, _ => false
  end.

(** [ToBoolean]: what [!v], [v || w] and [if (v)] test. *)
Definition truthy (v : JSValue) : bool :=
  match v with
  | JUndefined | JNull => false
  | JBool b => b
  | JNum (S754_zero _) | JNum S754_nan => false
  | JNum _ => true
  | JStr [] => false
  | JStr _ => true
  | JArr _ | JObj _ => true
  end.

(** [a || b]. *)
Definition js_or (a b : JSValue) : JSValue := if truthy a then a else b.

Definition isArray (v : JSValue) : bool :=
  match v with JArr _ => true | _ => false end.

Definition is_nullish (v : JSValue) : bool :=
  match v with JUndefined | JNull => true | _ => false end.

(** ** Exceptions *)

Inductive ErrorKind := KError | KTypeError | KSyntaxError | KBSONError.

Record JSError := mkError { kind : ErrorKind; message : jsstring }.

Inductive Completion (A : Type) : Type :=
| Normal (a : A)
| Throw (e : JSError).
Arguments Normal {A} a.
Arguments Throw {A} e.

Definition bind {A B} (c : Completion A) (k : A -> Completion B)
  : Completion B :=
  match c with
  | Normal a => k a
  | Throw e => Throw e
  end.

Notation "x <- c ;; k" := (bind c (fun x => k))
  (at level 61, c at next level, right associativity).

(** ** Property access *)

Fixpoint lookup (props : list (jsstring * JSValue)) (key : jsstring)
  : option JSValue :=
  match props with
  | [] => None
  | (k, v) :: rest => if jsstring_eqb k key then Some v else lookup rest key
  end.

(** *** Own properties in enumeration order

    Array-index keys come first, in increasing order; the other keys follow
    in the order they were created.  Defining a key again replaces its value
    in place. *)

Definition int_part_ok (ip : jsstring) : bool :=
  match ip with
  | [] => false
  | [_] => true
  | c :: _ => negb (c =? 48)%N
  end.

(** The canonical decimal spelling of an integer below [2 ^ 32 - 1]. *)
Definition array_index (k : jsstring) : option Z :=
  if (forallb is_digit k && int_part_ok k && (length k <=? 10)%nat)%bool then
    let v := digits_value k in
    if (v <=? 4294967294)%Z then Some v else None
  else None.

(** [v.key] and [v[i]] for a [v] that is neither [null] nor [undefined],
    and a [key] that names no built-in method (the sources read only data
    properties: [question], [options], [correct], [length], [0], ...). *)
Definition prop (v : JSValue) (key : jsstring) : JSValue :=
  match v with
  | JObj props =>
      match lookup props key with Some x => x | None => JUndefined end
  | JArr l =>
      if jsstring_eqb key (str "length") then JNum (num_of_nat (length l))
      else
        match array_index key with
        | Some i => nth (Z.to_nat i) l JUndefined
        | None => JUndefined
        end
  | JStr s =>
      if jsstring_eqb key (str "length") then JNum (num_of_nat (length s))
      else
        match array_index key with
        | Some i =>
            match nth_error s (Z.to_nat i) with
            | Some c => JStr [c]
            | None => JUndefined
            end
        | None => JUndefined
        end
  | _ => JUndefined
  end.

(** The message V8 gives when a property of [null] or [undefined] is read. *)
Definition cannot_read (v : JSValue) (key : jsstring) : JSError :=
  mkError KTypeError
    (str "Cannot read properties of "
     ++ (match v with JNull => str "null" | _ => str "undefined" end)
     ++ str " (reading '" ++ key ++ str "')").

(** [v.key], raising [TypeError] on [null] and [undefined]. *)
Definition Get (v : JSValue) (key : jsstring) : Completion JSValue :=
  if is_nullish v then Throw (cannot_read v key) else Normal (prop v key).

(** ** [String(v)]

    [None] stands for the [TypeError] raised when an object cannot be
    converted: a parsed object whose own [toString] property shadows the
    inherited method (no parsed value is callable, and the inherited
    [valueOf] returns the object itself). *)
Fixpoint ToString (v : JSValue) : option jsstring :=
  match v with
  | JUndefined => Some (str "undefined")
  | JNull => Some (str "null")
  | JBool true => Some (str "true")
  | JBool false => Some (str "false")
  | JNum n => Some (Number_toString n)
  | JStr s => Some s
  | JArr l =>
      (* Array.prototype.join with the separator "," *)
      (fix join (l : list JSValue) (first : bool) : option jsstring :=
         match l with
         | [] => Some []
         | x :: r =>
             match (if is_nullish x then Some [] else ToString x),
                   join r false with
             | Some a, Some b =>
                 Some ((if first then [] else [ch ","]) ++ a ++ b)
             | _, _ => None
             end
         end) l true
  | JObj props =>
      match lookup props (str "toString") with
      | Some _ => None
      | None => Some (str "[object Object]")
      end
  end.

Definition cannot_convert : JSError :=
  mkError KTypeError (str "Cannot convert object to primitive value").

Definition String_ (v : JSValue) : Completion jsstring :=
  match ToString v with
  | Some s => Normal s
  | None => Throw cannot_convert
  end.

(** ** [JSON.stringify] *)

Definition hex_char (d : N) : jschar :=
  (if d <? 10 then 48 + d else 87 + d)%N.

Definition unicode_escape (c : jschar) : jsstring :=
  [ch "\"; ch "u"; hex_char (c / 4096); hex_char ((c / 256) mod 16);
   hex_char ((c / 16) mod 16); hex_char (c mod 16)]%N.

Definition is_high_surrogate (c : jschar) : bool :=
  ((55296 <=? c) && (c <=? 56319))%N.
Definition is_low_surrogate (c : jschar) : bool :=
  ((56320 <=? c) && (c <=? 57343))%N.

(** The body of [QuoteJSONString]: short escapes, [\u00xx] for the other
    control characters, [\udxxx] for a surrogate that is not part of a
    pair. *)
Fixpoint quote_body (s : jsstring) : jsstring :=
  match s with
  | [] => []
  | c :: r =>
      if (c =? 8)%N then str "\b" ++ quote_body r
      else if (c =? 9)%N then str "\t" ++ quote_body r
      else if (c =? 10)%N then str "\n" ++ quote_body r
      else if (c =? 12)%N then str "\f" ++ quote_body r
      else if (c =? 13)%N then str "\r" ++ quote_body r
      else if (c =? 34)%N then [ch "\"; 34%N] ++ quote_body r
      else if (c =? 92)%N then [ch "\"; ch "\"] ++ quote_body r
      else if (c <? 32)%N then unicode_escape c ++ quote_body r
      else if is_high_surrogate c then
        match r with
        | d :: r' =>
            if is_low_surrogate d then c :: d :: quote_body r'
            else unicode_escape c ++ quote_body r
        | [] => unicode_escape c
        end
      else if is_low_surrogate c then unicode_escape c ++ quote_body r
      else c :: quote_body r
  end.

Definition quote (s : jsstring) : jsstring := [34%N] ++ quote_body s ++ [34%N].

Fixpoint join_with (sep : jsstring) (l : list jsstring) : jsstring :=
  match l with
  | [] => []
  | [x] => x
  | x :: r => x ++ sep ++ join_with sep r
  end.

Definition is_finite (n : number) : bool :=
  match n with
  | S754_zero _ | S754_finite _ _ _ => true
  | _ => false
  end.

(** [JSON.stringify(v)]; [None] is the result [undefined]. *)
Fixpoint stringify (v : JSValue) : option jsstring :=
  match v with
  | JUndefined => None
  | JNull => Some (str "null")
  | JBool true => Some (str "true")
  | JBool false => Some (str "false")
  | JNum n => Some (if is_finite n then Number_toString n else str "null")
  | JStr s => Some (quote s)
  | JArr l =>
      let items :=
        (fix go (l : list JSValue) : list jsstring :=
           match l with
           | [] => []
           | x :: r =>
               (match stringify x with Some t => t | None => str "null" end)
                 :: go r
           end) l in
      Some ([ch "["] ++ join_with [ch ","] items ++ [ch "]"])
  | JObj props =>
      let items :=
        (fix go (ps : list (jsstring * JSValue)) : list jsstring :=
           match ps with
           | [] => []
           | (k, x) :: r =>
               match stringify x with
               | Some t => (quote k ++ [ch ":"] ++ t) :: go r
               | None => go r
               end
           end) props in
      Some ([ch "{"] ++ join_with [ch ","] items ++ [ch "}"])
  end.

Definition JSON_stringify (v : JSValue) : JSValue :=
  match stringify v with
  | Some s => JStr s
  | None => JUndefined
  end.

(** ** [JSON.parse]

    A lexer that reads one code unit at a time and a push-down parser over
    its tokens; both recurse on the input, so [JSON_parse] is total and
    [None] is exactly the [SyntaxError] outcome. *)

Inductive token :=
| TLBracket | TRBracket | TLBrace | TRBrace | TComma | TColon
| TString (s : jsstring)
| TNumber (n : number)
| TTrue | TFalse | TNull.

Fixpoint span_digits (s : jsstring) : jsstring * jsstring :=
  match s with
  | c :: r =>
      if is_digit c then let '(ds, rest) := span_digits r in (c :: ds, rest)
      else ([], s)
  | [] => ([], [])
  end.

(** [-? int frac? exp?] of the JSON grammar, converted on the fly; the
    integer part is [0] or starts with another digit ([int_part_ok]). *)
Definition number_of_literal (s : jsstring) : option number :=
  let '(neg, s1) :=
    match s with
    | c :: r => if (c =? 45)%N then (true, r) else (false, s)
    | [] => (false, [])
    end in
  let '(ip, s2) := span_digits s1 in
  if negb (int_part_ok ip) then None
  else
    let frac :=
      match s2 with
      | c :: r =>
          if (c =? 46)%N then
            let '(fp, s3) := span_digits r in
            match fp with [] => None | _ => Some (fp, s3) end
          else Some ([], s2)
      | [] => Some ([], [])
      end in
    match frac with
    | None => None
    | Some (fp, s3) =>
        let ex :=
          match s3 with
          | [] => Some 0%Z
          | c :: r =>
              if ((c =? 101) || (c =? 69))%N then
                let '(eneg, r') :=
                  match r with
                  | d :: r1 =>
                      if (d =? 45)%N then (true, r1)
                      else if (d =? 43)%N then (false, r1)
                      else (false, r)
                  | [] => (false, [])
                  end in
                match span_digits r' with
                | ((_ :: _) as ed, []) =>
                    Some (if eneg then - digits_value ed else digits_value ed)%Z
                | _ => None
                end
              else None
          end in
        match ex with
        | None => None
        | Some e =>
            Some (num_of_decimal neg (digits_value (ip ++ fp))
                    (e - Z.of_nat (length fp)))
        end
    end.

Definition hex_value (c : jschar) : option N :=
  (if is_digit c then Some (c - 48)
   else if (97 <=? c) && (c <=? 102) then Some (c - 87)
   else if (65 <=? c) && (c <=? 70) then Some (c - 55)
   else None)%N.

Inductive lex_state :=
| LStart                               (* between tokens *)
| LStr (acc : jsstring)                (* in a string; [acc] is reversed *)
| LEsc (acc : jsstring)                (* after a backslash *)
| LHex (acc : jsstring) (ds : list N)  (* after [\u]: hex digits so far *)
| LNum (acc : jsstring)                (* in a number; [acc] is reversed *)
| LWord (acc : jsstring).              (* in [true], [false] or [null] *)

Definition is_json_space (c : jschar) : bool :=
  ((c =? 32) || (c =? 9) || (c =? 10) || (c =? 13))%N.

Definition is_number_char (c : jschar) : bool :=
  (is_digit c || (c =? 43) || (c =? 45) || (c =? 46) || (c =? 101)
   || (c =? 69))%N.

Definition is_lower (c : jschar) : bool := ((97 <=? c) && (c <=? 122))%N.

(** A code unit met between tokens. *)
Definition lex_start (c : jschar) : option (lex_state * list token) :=
  if is_json_space c then Some (LStart, [])
  else if (c =? 91)%N then Some (LStart, [TLBracket])
  else if (c =? 93)%N then Some (LStart, [TRBracket])
  else if (c =? 123)%N then Some (LStart, [TLBrace])
  else if (c =? 125)%N then Some (LStart, [TRBrace])
  else if (c =? 44)%N then Some (LStart, [TComma])
  else if (c =? 58)%N then Some (LStart, [TColon])
  else if (c =? 34)%N then Some (LStr [], [])
  else if (is_digit c || (c =? 45)%N) then Some (LNum [c], [])
  else if is_lower c then Some (LWord [c], [])
  else None.

Definition word_token (w : jsstring) : option token :=
  if jsstring_eqb w (str "true") then Some TTrue
  else if jsstring_eqb w (str "false") then Some TFalse
  else if jsstring_eqb w (str "null") then Some TNull
  else None.

(** The token a number or word in progress amounts to. *)
Definition lex_close (st : lex_state) : option (list token) :=
  match st with
  | LStart => Some []
  | LNum acc => option_map (fun n => [TNumber n]) (number_of_literal (rev acc))
  | LWord acc => option_map (fun t => [t]) (word_token (rev acc))
  | _ => None
  end.

Definition lex_step (st : lex_state) (c : jschar)
  : option (lex_state * list token) :=
  match st with
  | LStart => lex_start c
  | LStr acc =>
      if (c =? 34)%N then Some (LStart, [TString (rev acc)])
      else if (c =? 92)%N then Some (LEsc acc, [])
      else if (c <? 32)%N then None
      else Some (LStr (c :: acc), [])
  | LEsc acc =>
      if ((c =? 34) || (c =? 92) || (c =? 47))%N then Some (LStr (c :: acc), [])
      else if (c =? 98)%N then Some (LStr (8%N :: acc), [])
      else if (c =? 102)%N then Some (LStr (12%N :: acc), [])
      else if (c =? 110)%N then Some (LStr (10%N :: acc), [])
      else if (c =? 114)%N then Some (LStr (13%N :: acc), [])
      else if (c =? 116)%N then Some (LStr (9%N :: acc), [])
      else if (c =? 117)%N then Some (LHex acc [], [])
      else None
  | LHex acc ds =>
      match hex_value c with
      | None => None
      | Some d =>
          match ds with
          | [d1; d2; d3] =>
              Some (LStr ((d1 * 4096 + d2 * 256 + d3 * 16 + d)%N :: acc), [])
          | _ => Some (LHex acc (ds ++ [d]), [])
          end
      end
  | LNum acc =>
      if is_number_char c then Some (LNum (c :: acc), [])
      else
        match lex_close st, lex_start c with
        | Some t1, Some (st', t2) => Some (st', t1 ++ t2)
        | _, _ => None
        end
  | LWord acc =>
      if is_lower c then Some (LWord (c :: acc), [])
      else
        match lex_close st, lex_start c with
        | Some t1, Some (st', t2) => Some (st', t1 ++ t2)
        | _, _ => None
        end
  end.

Fixpoint lex_from (st : lex_state) (s : jsstring) : option (list token) :=
  match s with
  | [] => lex_close st
  | c :: s' =>
      match lex_step st c with
      | None => None
      | Some (st', toks) => option_map (app toks) (lex_from st' s')
      end
  end.

Definition lex (s : jsstring) : option (list token) := lex_from LStart s.

(** *** Creating properties *)

Fixpoint replace_prop (props : list (jsstring * JSValue)) (key : jsstring)
  (v : JSValue) : list (jsstring * JSValue) :=
  match props with
  | [] => []
  | (k, x) :: r =>
      if jsstring_eqb k key then (k, v) :: r
      else (k, x) :: replace_prop r key v
  end.

Fixpoint insert_index (props : list (jsstring * JSValue)) (i : Z)
  (key : jsstring) (v : JSValue) : list (jsstring * JSValue) :=
  match props with
  | [] => [(key, v)]
  | (k, x) :: r =>
      match array_index k with
      | Some j =>
          if (j <? i)%Z then (k, x) :: insert_index r i key v
          else (key, v) :: props
      | None => (key, v) :: props
      end
  end.

(** [CreateDataProperty]. *)
Definition obj_set (props : list (jsstring * JSValue)) (key : jsstring)
  (v : JSValue) : list (jsstring * JSValue) :=
  match lookup props key with
  | Some _ => replace_prop props key v
  | None =>
      match array_index key with
      | Some i => insert_index props i key v
      | None => props ++ [(key, v)]
      end
  end.

(** *** The parser *)

Inductive frame :=
| FArr (acc : list JSValue)                              (* reversed *)
| FObj (props : list (jsstring * JSValue)) (key : jsstring).

Inductive pstate :=
| PExpect (k : list frame)            (* a value comes next *)
| PArrStart (k : list frame)          (* after [[]: a value or []] *)
| PObjStart (k : list frame)          (* after [{]: a key or [}] *)
| PObjKey (props : list (jsstring * JSValue)) (k : list frame)
| PColon (props : list (jsstring * JSValue)) (key : jsstring) (k : list frame)
| PInArr (acc : list JSValue) (k : list frame)   (* after an element *)
| PInObj (props : list (jsstring * JSValue)) (k : list frame)
| PDone (v : JSValue).

(** A value is complete: hand it to the enclosing frame. *)
Definition plug (v : JSValue) (k : list frame) : pstate :=
  match k with
  | [] => PDone v
  | FArr acc :: k' => PInArr (v :: acc) k'
  | FObj props key :: k' => PInObj (obj_set props key v) k'
  end.

Definition parse_value (k : list frame) (t : token) : option pstate :=
  match t with
  | TLBracket => Some (PArrStart k)
  | TLBrace => Some (PObjStart k)
  | TString s => Some (plug (JStr s) k)
  | TNumber n => Some (plug (JNum n) k)
  | TTrue => Some (plug (JBool true) k)
  | TFalse => Some (plug (JBool false) k)
  | TNull => Some (plug JNull k)
  | _ => None
  end.

Definition parse_step (st : pstate) (t : token) : option pstate :=
  match st with
  | PExpect k => parse_value k t
  | PArrStart k =>
      match t with
      | TRBracket => Some (plug (JArr []) k)
      | _ => parse_value (FArr [] :: k) t
      end
  | PObjStart k =>
      match t with
      | TRBrace => Some (plug (JObj []) k)
      | TString s => Some (PColon [] s k)
      | _ => None
      end
  | PObjKey props k =>
      match t with
      | TString s => Some (PColon props s k)
      | _ => None
      end
  | PColon props key k =>
      match t with
      | TColon => Some (PExpect (FObj props key :: k))
      | _ => None
      end
  | PInArr acc k =>
      match t with
      | TComma => Some (PExpect (FArr acc :: k))
      | TRBracket => Some (plug (JArr (rev acc)) k)
      | _ => None
      end
  | PInObj props k =>
      match t with
      | TComma => Some (PObjKey props k)
      | TRBrace => Some (plug (JObj props) k)
      | _ => None
      end
  | PDone _ => None
  end.

Fixpoint parse_from (st : pstate) (ts : list token) : option JSValue :=
  match ts with
  | [] => match st with PDone v => Some v | _ => None end
  | t :: ts' =>
      match parse_step st t with
      | None => None
      | Some st' => parse_from st' ts'
      end
  end.

(** [JSON.parse(text)]; [None] when it raises [SyntaxError]. *)
Definition JSON_parse (text : jsstring) : option JSValue :=
  match lex text with
  | None => None
  | Some ts => parse_from (PExpect []) ts
  end.

(** ** The regular expression [/\[[\s\S]*\]/]

    The first [[], then as much as possible up to a []]: the match runs from
    the first [[] of the text to its last []], when that comes later. *)

Fixpoint from_first (c : jschar) (s : jsstring) : option jsstring :=
  match s with
  | [] => None
  | x :: r => if (x =? c)%N then Some r else from_first c r
  end.

Fixpoint through_last (c : jschar) (s : jsstring) : option jsstring :=
  match s with
  | [] => None
  | x :: r =>
      match through_last c r with
      | Some u => Some (x :: u)
      | None => if (x =? c)%N then Some [x] else None
      end
  end.

(** [text.match(/\[[\s\S]*\]/)]: the matched substring, if any. *)
Definition match_bracket_span (text : jsstring) : option jsstring :=
  match from_first 91%N text with
  | None => None
  | Some rest =>
      match through_last 93%N rest with
      | Some u => Some (91%N :: u)
      | None => None
      end
  end.

End JS.

Import JS.

(* ================================================================== *)
(** * [src/lib/gemini.ts]                                               *)
(* ================================================================== *)

Module Gemini.

(** The object pushed onto [validatedQuestions]. *)
Record QuestionData := mkQuestionData {
  question : JSValue;
  options : JSValue;
  correct : JSValue;
  explanation : JSValue;
  subject : JSValue
}.

(** What [await fetch(apiUrl, ...)] amounts to: the promise rejects (no
    connection), or a response arrives, of which the function reads
    [status], [statusText] and the result of [response.json()]. *)
Inductive FetchOutcome :=
| Rejected (e : JSError)
| Responded (status : N) (statusText : jsstring) (json : Completion JSValue).

(** [response.ok]. *)
Definition ok (status : N) : bool := ((200 <=? status) && (status <=? 299))%N.

Definition Error_ (msg : string) : JSError := mkError KError (str msg).

Definition zero : number := S754_zero false.
Definition four : number := num_of_Z 4.

(** [v === 0]. *)
Definition is_zero (v : JSValue) : bool :=
  match v with
  | JNum n => SFeqb n zero
  | _ => false
  end.

(** [q.options.map(opt => typeof opt === 'string' ? opt : String(opt))]. *)
Fixpoint map_options (opts : list JSValue) : Completion (list JSValue) :=
  match opts with
  | [] => Normal []
  | opt :: rest =>
      o <- (if JSType_eqb (typeof opt) TyString then Normal opt
            else s <- String_ opt ;; Normal (JStr s)) ;;
      os <- map_options rest ;;
      Normal (o :: os)
  end.

(** [q.question.trim()], for the string the first check let through. *)
Definition trimmed (v : JSValue) : JSValue :=
  match v with
  | JStr s => JStr (trim s)
  | _ => v
  end.

Definition question_invalid (q_question : JSValue) : bool :=
  negb (truthy q_question) || negb (JSType_eqb (typeof q_question) TyString).

Definition options_invalid (q_options : JSValue) : bool :=
  match q_options with
  | JArr l => negb (length l =? 4)%nat
  | _ => true
  end.

Definition correct_invalid (q_correct : JSValue) : bool :=
  match q_correct with
  | JNum c => num_lt c zero || num_ge c four
  | _ => true
  end.

(** The [for] loop over the parsed array (lines 172-203); the warnings it
    logs are not part of the model.  Each [continue] is a recursive call
    with [validatedQuestions] unchanged. *)
Fixpoint validate_loop (questions : list JSValue)
  (validatedQuestions : list QuestionData)
  : Completion (list QuestionData) :=
  match questions with
  | [] => Normal validatedQuestions
  | q :: rest =>
      q_question <- Get q (str "question") ;;
      if question_invalid q_question then
        validate_loop rest validatedQuestions
      else
        let q_options := prop q (str "options") in
        if options_invalid q_options then
          validate_loop rest validatedQuestions
        else
          let q_correct := prop q (str "correct") in
          if correct_invalid q_correct then
            validate_loop rest validatedQuestions
          else
            validOptions <-
              map_options (match q_options with JArr l => l | _ => [] end) ;;
            validate_loop rest
              (validatedQuestions ++
                 [ {| question := trimmed q_question;
                      options := JArr validOptions;
                      correct := q_correct;
                      explanation := js_or (prop q (str "explanation")) (JStr []);
                      subject := js_or (prop q (str "subject")) (JStr []) |} ])
  end.

Definition no_valid_questions : JSError :=
  Error_ "No valid questions could be generated from the AI response".

Definition not_an_array : JSError :=
  Error_ "Generated response is not an array of questions".

Definition parse_failed : JSError :=
  Error_ "Failed to parse questions from Gemini response. The AI response was not in the expected format.".

(** Lines 165-210: the validation of the parsed value. *)
Definition validate (questions : JSValue) : Completion (list QuestionData) :=
  match questions with
  | JArr l =>
      validatedQuestions <- validate_loop l [] ;;
      match validatedQuestions with
      | [] => Throw no_valid_questions
      | _ => Normal validatedQuestions
      end
  | _ => Throw not_an_array
  end.

(** Lines 152-163: the inner [try].  Whatever goes wrong in it, a
    [generatedText] without a [match] method included, is replaced by the
    one parse error. *)
Definition extract (generatedText : JSValue) : Completion JSValue :=
  match generatedText with
  | JStr text =>
      let jsonText :=
        match match_bracket_span text with
        | Some m => m
        | None => text
        end in
      match JSON_parse jsonText with
      | Some v => Normal v
      | None => Throw parse_failed
      end
  | _ => Throw parse_failed
  end.

(** The validator proper: from the raw text of the model to the validated
    questions. *)
Definition validate_text (generatedText : JSValue)
  : Completion (list QuestionData) :=
  questions <- extract generatedText ;;
  validate questions.

(** Lines 128-141: a response that is not [ok]. *)
Definition status_error (status : N) (statusText : jsstring) : JSError :=
  if (status =? 401)%N then Error_ "Invalid Gemini API key"
  else if (status =? 429)%N then
    Error_ "API quota exceeded. Please try again later."
  else if (500 <=? status)%N then
    Error_ "Gemini API service unavailable. Please try again later."
  else
    mkError KError
      (str "Gemini API error: " ++ decimal (Z.of_N status) ++ str " "
         ++ statusText).

Definition missing_key : JSError :=
  Error_ "GEMINI_API_KEY environment variable is not set".

Definition no_response : JSError :=
  Error_ "No response generated from Gemini API".

(** [process.env.X] is absent or a string; [!process.env.X]. *)
Definition env_unset (v : option jsstring) : bool :=
  match v with
  | Some (_ :: _) => false
  | _ => true
  end.

(** The parameter default [count: number = 5]: it replaces [undefined]
    only. *)
Definition default_count (count : JSValue) : JSValue :=
  match count with JUndefined => JNum (num_of_Z 5) | _ => count end.

(** [generateQuestionsWithGemini(prompt, count)].  After the key check the
    instruction text is built (lines 30-81): the template converts [count],
    then [prompt], to a string, which raises a [TypeError] for a value that
    cannot be converted.  The text only shapes the request sent to the
    remote service; the answer of the service is [outcome].  The outer
    [catch] rethrows every [Error] it sees unchanged, and all exceptions of
    the model are [Error]s. *)
Definition generateQuestionsWithGemini (GEMINI_API_KEY : option jsstring)
  (outcome : FetchOutcome) (prompt count : JSValue)
  : Completion (list QuestionData) :=
  if env_unset GEMINI_API_KEY then Throw missing_key
  else
    _ <- String_ (default_count count) ;;
    _ <- String_ prompt ;;
    match outcome with
    | Rejected e => Throw e
    | Responded status statusText json =>
        if negb (ok status) then Throw (status_error status statusText)
        else
          data <- json ;;
          candidates <- Get data (str "candidates") ;;
          if negb (truthy candidates)
             || is_zero (prop candidates (str "length"))
          then Throw no_response
          else
            content <- Get (prop candidates (str "0")) (str "content") ;;
            parts <- Get content (str "parts") ;;
            part <- Get parts (str "0") ;;
            generatedText <- Get part (str "text") ;;
            validate_text generatedText
    end.

End Gemini.

(* ================================================================== *)
(** * The document store                                                *)
(* ================================================================== *)

(** The MongoDB database [usmle_prep] as the handlers use it: five
    collections, each a list of documents in insertion order.  The store is
    assumed reachable and a document is kept as inserted; an insertion goes
    through, except where the code itself catches its failure (the saving
    loop of [generate.ts], see [Generate.insert_fails]).  A [Date] is its
    time value, and one reading of the clock serves a whole request. *)

Module Store.

(** The twelve bytes of an [ObjectId], read as a number. *)
Definition ObjectId := N.

(** A document of [step1], [step2] or [step3] (written by the import
    script, which is not part of the sources: the option texts are strings
    when present). *)
Record StepDoc := mkStepDoc {
  step_id : ObjectId;
  questionText : JSValue;
  optionA : option jsstring;
  optionB : option jsstring;
  optionC : option jsstring;
  optionD : option jsstring;
  optionE : option jsstring;
  correctAnswer : JSValue;
  step_explanation : JSValue;
  step_subject : JSValue;
  step_difficulty : JSValue;
  questionNumber : Z
}.

(** A document of [questions]; its [type] is always ['ai-generated']. *)
Record QuestionDoc := mkQuestionDoc {
  _id : ObjectId;
  question : JSValue;
  options : JSValue;
  correct : JSValue;
  explanation : JSValue;
  subject : JSValue;
  difficulty : JSValue;
  createdAt : Z
}.

(** A document of [scores]. *)
Record ScoreDoc := mkScoreDoc {
  score_id : ObjectId;
  score : JSValue;
  total : JSValue;
  percentage : JSValue;
  duration : JSValue;
  step : JSValue;
  score_createdAt : Z
}.

Record Db := mkDb {
  step1 : list StepDoc;
  step2 : list StepDoc;
  step3 : list StepDoc;
  questions : list QuestionDoc;
  scores : list ScoreDoc;
  next_id : N            (* the identifier the driver generates next *)
}.

(** [db.collection(name)] for the step listing; a collection that does not
    exist has no documents. *)
Definition step_collection (db : Db) (name : jsstring) : list StepDoc :=
  if jsstring_eqb name (str "step1") then step1 db
  else if jsstring_eqb name (str "step2") then step2 db
  else if jsstring_eqb name (str "step3") then step3 db
  else [].

(** [db.collection('questions').insertOne(doc)]: the driver supplies [_id]. *)
Definition insert_question (db : Db)
  (doc : ObjectId -> QuestionDoc) : Db * ObjectId :=
  let id := next_id db in
  ({| step1 := step1 db; step2 := step2 db; step3 := step3 db;
      questions := questions db ++ [doc id];
      scores := scores db;
      next_id := N.succ id |}, id).

(** [db.collection('scores').insertOne(doc)]. *)
Definition insert_score (db : Db) (doc : ObjectId -> ScoreDoc)
  : Db * ObjectId :=
  let id := next_id db in
  ({| step1 := step1 db; step2 := step2 db; step3 := step3 db;
      questions := questions db;
      scores := scores db ++ [doc id];
      next_id := N.succ id |}, id).

(** An identifier built by [new ObjectId(x)]: the one a hex string spells,
    or a newly generated one, which no stored document carries. *)
Inductive IdArg := Spelled (id : ObjectId) | Generated.

Definition matches (args : list IdArg) (id : ObjectId) : bool :=
  existsb (fun a => match a with Spelled i => N.eqb i id | Generated => false end)
    args.

(** [db.collection('questions').deleteMany({ _id: { $in: objectIds } })]:
    the store without the matching documents, and [deletedCount]. *)
Definition delete_questions (db : Db) (objectIds : list IdArg) : Db * nat :=
  ({| step1 := step1 db; step2 := step2 db; step3 := step3 db;
      questions := filter (fun d => negb (matches objectIds (_id d))) (questions db);
      scores := scores db;
      next_id := next_id db |},
   length (filter (fun d => matches objectIds (_id d)) (questions db))).

(** Insertion into a list sorted by [key] (after the equal keys). *)
Fixpoint insert_by {A} (key : A -> Z) (x : A) (l : list A) : list A :=
  match l with
  | [] => [x]
  | y :: r => if (key x <? key y)%Z then x :: l else y :: insert_by key x r
  end.

(** [.sort({ field: 1 })]: ascending, documents with equal keys in
    insertion order. *)
Definition sort_by {A} (key : A -> Z) (l : list A) : list A :=
  fold_left (fun acc x => insert_by key x acc) l [].

(** [.limit(n)]: [0] means no limit. *)
Definition limit {A} (n : N) (l : list A) : list A :=
  if (n =? 0)%N then l else firstn (N.to_nat n) l.

(** [new ObjectId(x)] as the driver (bson 6) defines it for the values a
    request can carry: a string must consist of 24 hex digits; [null],
    [undefined] and numbers yield a generated identifier; an object is read
    through its [id] property; anything else is refused. *)
Definition is_hex (c : jschar) : bool :=
  match hex_value c with Some _ => true | None => false end.

Definition hex_number (s : jsstring) : N :=
  fold_left
    (fun acc c => match hex_value c with Some d => acc * 16 + d | None => acc end)%N
    s 0%N.

Definition bad_hex : JSError :=
  mkError KBSONError
    (str "input must be a 24 character hex string, 12 byte Uint8Array, or an integer").

Definition bad_id_type : JSError :=
  mkError KBSONError (str "Argument passed in does not match the accepted types").

Definition bad_id_property : JSError :=
  mkError KBSONError
    (str "Argument passed in must have an id that is of type string or Buffer").

Definition id_of_string (s : jsstring) : Completion IdArg :=
  if ((length s =? 24)%nat && forallb is_hex s)%bool
  then Normal (Spelled (hex_number s))
  else Throw bad_hex.

Definition new_ObjectId (x : JSValue) : Completion IdArg :=
  match x with
  | JUndefined | JNull | JNum _ => Normal Generated
  | JStr s => id_of_string s
  | JObj props =>
      (* an object with an [id] property stands for that [id] *)
      match lookup props (str "id") with
      | Some (JStr s) => id_of_string s
      | Some _ => Throw bad_id_property
      | None => Throw bad_id_type
      end
  | _ => Throw bad_id_type
  end.

(** [id.toString()]: 24 lower-case hex digits. *)
Fixpoint hex_digits (n : nat) (v : N) (acc : jsstring) : jsstring :=
  match n with
  | O => acc
  | S n' => hex_digits n' (v / 16)%N (hex_char (v mod 16)%N :: acc)
  end.

Definition ObjectId_toString (id : ObjectId) : jsstring := hex_digits 24 id [].

End Store.

(** An HTTP response: [res.status(code).json(body)]. *)
Record Response (Body : Type) := mkResponse {
  status : N;
  body : Body
}.
Arguments mkResponse {Body} status body.

(** [v === 'literal']. *)
Definition is_string (v : JSValue) (s : string) : bool :=
  match v with
  | JStr t => jsstring_eqb t (str s)
  | _ => false
  end.

(** The message V8 gives when [const { a, ... } = v] meets [null] or
    [undefined]. *)
Definition cannot_destructure (v : JSValue) (first source : string) : JSError :=
  mkError KTypeError
    (str "Cannot destructure property '" ++ str first ++ str "' of '"
     ++ str source ++ str "' as it is "
     ++ (match v with JNull => str "null" | _ => str "undefined" end)
     ++ str ".").

(* ================================================================== *)
(** * [src/pages/api/generate.ts]                                       *)
(* ================================================================== *)

Module Generate.

Record Request := mkRequest {
  method : jsstring;
  req_body : JSValue
}.

(** What the handler meets outside its arguments. *)
Record World := mkWorld {
  GEMINI_API_KEY : option jsstring;     (* process.env.GEMINI_API_KEY *)
  outcome : Gemini.FetchOutcome;        (* the answer of the remote service *)
  now : Z;                              (* new Date() *)
  insert_fails : nat -> bool            (* whether the i-th [insertOne] of the
                                           request throws *)
}.

(** [const { a = dflt } = ...]: the default replaces [undefined] only. *)
Definition default (v dflt : JSValue) : JSValue :=
  match v with JUndefined => dflt | _ => v end.

(** The body of a response: [{ success, error }] or
    [{ success, questions, message }]. *)
Inductive Body :=
| Failure (error : jsstring)
| Success (questions : list Store.QuestionDoc) (message : jsstring).

Definition fail (code : N) (msg : string) : Response Body :=
  mkResponse code (Failure (str msg)).

(** Lines 60-85: save the questions one by one; [i] counts the calls of
    [insertOne].  A call that throws stores nothing: the [catch] of the loop
    logs the error and the loop goes on with the next question. *)
Fixpoint save_all (fails : nat -> bool) (i : nat) (db : Store.Db) (now : Z)
  (difficulty : JSValue) (generated : list Gemini.QuestionData)
  (saved : list Store.QuestionDoc)
  : Store.Db * list Store.QuestionDoc :=
  match generated with
  | [] => (db, saved)
  | question :: rest =>
      let questionDoc := fun id =>
        {| Store._id := id;
           Store.question := Gemini.question question;
           Store.options := JSON_stringify (Gemini.options question);
           Store.correct := Gemini.correct question;
           Store.explanation := js_or (Gemini.explanation question) (JStr []);
           Store.subject := js_or (Gemini.subject question) (JStr []);
           Store.difficulty := difficulty;
           Store.createdAt := now |} in
      if fails i then
        (* catch (dbError): continue with the other questions *)
        save_all fails (S i) db now difficulty rest saved
      else
        let '(db', id) := Store.insert_question db questionDoc in
        save_all fails (S i) db' now difficulty rest (saved ++ [questionDoc id])
  end.

(** Lines 95-126: the status of an exception, chosen by its message. *)
Definition error_response (error : JSError) : Response Body :=
  let msg := message error in
  if includes msg (str "API key") then
    fail 401 "Invalid or missing Gemini API key"
  else if includes msg (str "quota") || includes msg (str "limit") then
    fail 429 "API quota exceeded. Please try again later."
  else if includes msg (str "network") || includes msg (str "fetch") then
    fail 503 "Network error. Please check your internet connection and try again."
  else
    fail 500 "Internal server error. Please try again later.".

(** The [try] block. *)
Definition attempt (w : World) (db : Store.Db) (req : Request)
  : Completion (Store.Db * Response Body) :=
  let b := req_body req in
  if is_nullish b then Throw (cannot_destructure b "prompt" "req.body")
  else
    let prompt := prop b (str "prompt") in
    let count := default (prop b (str "count")) (JNum (num_of_Z 5)) in
    let difficulty := default (prop b (str "difficulty")) (JStr (str "Medium")) in
    if negb (truthy prompt) || negb (JSType_eqb (typeof prompt) TyString) then
      Normal (db, fail 400 "Valid prompt is required")
    else if Gemini.env_unset (GEMINI_API_KEY w) then
      Normal (db, fail 500 "Gemini API key not configured. Please set GEMINI_API_KEY in environment variables.")
    else
      (* line 47: the logged text converts [count] to a string ([prompt]
         is one already) *)
      _ <- String_ count ;;
      generatedQuestions <-
        Gemini.generateQuestionsWithGemini (GEMINI_API_KEY w) (outcome w)
          prompt count ;;
      match generatedQuestions with
      | [] =>
          Normal (db, fail 500 "Failed to generate questions. Please try again.")
      | _ =>
          let '(db', savedQuestions) :=
            save_all (insert_fails w) 0 db (now w) difficulty
              generatedQuestions [] in
          Normal (db',
                  mkResponse 200
                    (Success savedQuestions
                       (str "Successfully generated "
                        ++ decimal (Z.of_nat (length savedQuestions))
                        ++ str " questions")))
      end.

(** [handler(req, res)]: the new store and the response. *)
Definition handler (w : World) (db : Store.Db) (req : Request)
  : Store.Db * Response Body :=
  if negb (jsstring_eqb (method req) (str "POST")) then
    (db, fail 405 "Method not allowed")
  else
    match attempt w db req with
    | Normal r => r
    | Throw error => (db, error_response error)
    end.

End Generate.

(* ================================================================== *)
(** * [src/pages/api/questions.ts]                                      *)
(* ================================================================== *)

Module Questions.

(** [req.query]: each parameter is absent or one string; [limit], when
    present, spells a natural number in decimal ([parseInt] of it). *)
Record Query := mkQuery {
  q_type : option jsstring;
  q_limit : option N;
  q_recent : option jsstring;
  q_step : option jsstring
}.

Record Request := mkRequest {
  method : jsstring;
  query : Query;
  req_body : JSValue
}.

(** One entry of the question listing. *)
Record Listed := mkListed {
  l_id : jsstring;
  l_question : JSValue;
  l_options : JSValue;
  l_correct : JSValue;
  l_explanation : JSValue;
  l_subject : JSValue;
  l_difficulty : JSValue;
  l_questionNumber : Z;
  l_step : jsstring
}.

(** What the handlers meet outside their arguments: the clock, and the
    order [allQuestions.sort(() => Math.random() - 0.5)] leaves. *)
Record World := mkWorld {
  now : Z;
  shuffle : list Listed -> list Listed
}.

Inductive Body :=
| Json (v : JSValue)
| Scores (l : list Store.ScoreDoc)
| Listing (l : list Listed)
| CreatedScore (d : Store.ScoreDoc)
| CreatedQuestion (d : Store.QuestionDoc).

Definition error (code : N) (msg : jsstring) : Response Body :=
  mkResponse code (Json (JObj [(str "error", JStr msg)])).

Definition count (n : nat) : JSValue := JNum (num_of_nat n).

(** [x || ''] for an option text. *)
Definition text_or_empty (x : option jsstring) : jsstring :=
  match x with Some s => s | None => [] end.

(** Lines 94-110 and 123-139: a step document as the listing shows it;
    [step] is the step label. *)
Definition transform (step : jsstring) (q : Store.StepDoc) : Listed :=
  {| l_id := Store.ObjectId_toString (Store.step_id q);
     l_question := js_or (Store.questionText q) (JStr []);
     l_options :=
       JSON_stringify
         (JArr (map JStr
            (filter (fun opt => (0 <? length opt)%nat)
               [text_or_empty (Store.optionA q);
                text_or_empty (Store.optionB q);
                text_or_empty (Store.optionC q);
                text_or_empty (Store.optionD q);
                text_or_empty (Store.optionE q)])));
     l_correct := js_or (Store.correctAnswer q) (JNum Gemini.zero);
     l_explanation := js_or (Store.step_explanation q) (JStr []);
     l_subject := js_or (Store.step_subject q) (JStr (str "Step " ++ step));
     l_difficulty := js_or (Store.step_difficulty q) (JStr (str "Medium"));
     l_questionNumber := Store.questionNumber q;
     l_step := step |}.

(** [.find({}).sort({ questionNumber: 1 }).limit(n).toArray()]. *)
Definition find_step (db : Store.Db) (collection : jsstring) (n : N)
  : list Store.StepDoc :=
  Store.limit n (Store.sort_by Store.questionNumber
                   (Store.step_collection db collection)).

(** [collection.slice(-1)]. *)
Definition last_char (s : jsstring) : jsstring :=
  match rev s with c :: _ => [c] | [] => [] end.

(** [Math.ceil(n / 3)]. *)
Definition ceil_third (n : N) : N := ((n + 2) / 3)%N.

Definition per_step : list jsstring := [str "step1"; str "step2"; str "step3"].

(** Lines 81-150: the question listing.  With a [step], that collection in
    order; without, the three step collections merged and shuffled. *)
Definition listing (w : World) (db : Store.Db) (q : Query) : list Listed :=
  match q_step q with
  | Some ((_ :: _) as step) =>
      map (transform step)
        (find_step db (str "step" ++ step)
           (match q_limit q with Some n => n | None => 0%N end))
  | _ =>
      let allQuestions :=
        flat_map
          (fun collection =>
             map (transform (last_char collection))
               (find_step db collection
                  (match q_limit q with
                   | Some n => ceil_third n
                   | None => 20%N
                   end)))
          per_step in
      let questions := shuffle w allQuestions in
      match q_limit q with
      | Some n => firstn (N.to_nat n) questions
      | None => questions
      end
  end.

Definition is_type (q : Query) (t : string) : bool :=
  match q_type q with
  | Some s => jsstring_eqb s (str t)
  | None => false
  end.

Definition handleGet (w : World) (db : Store.Db) (q : Query)
  : Response Body :=
  if is_type q "stats" then
    let step1Count := length (Store.step1 db) in
    let step2Count := length (Store.step2 db) in
    let step3Count := length (Store.step3 db) in
    let aiGeneratedCount := length (Store.questions db) in
    let stepTotal := (step1Count + step2Count + step3Count)%nat in
    let grandTotal := (stepTotal + aiGeneratedCount)%nat in
    mkResponse 200
      (Json (JObj [(str "step1", count step1Count);
                  (str "step2", count step2Count);
                  (str "step3", count step3Count);
                  (str "aiGenerated", count aiGeneratedCount);
                  (str "stepTotal", count stepTotal);
                  (str "total", count grandTotal)]))
  else if is_type q "scores" then
    mkResponse 200
      (Scores
         (Store.limit (match q_limit q with Some n => n | None => 10%N end)
            (Store.sort_by (fun d => (- Store.score_createdAt d)%Z)
               (Store.scores db))))
  else mkResponse 200 (Listing (listing w db q)).

Definition hundred : number := num_of_Z 100.
Definition one : number := num_of_Z 1.

(** Lines 192-208: [parsedOptions], or [None] for the 400 of the [catch]. *)
Definition parse_options (options : JSValue) : option (list JSValue) :=
  let parsedOptions :=
    match options with
    | JStr s => JSON_parse s
    | _ => Some options
    end in
  match parsedOptions with
  | Some (JArr l) => if (length l <? 2)%nat then None else Some l
  | _ => None
  end.

Definition handlePost (w : World) (db : Store.Db) (body : JSValue)
  : Completion (Store.Db * Response Body) :=
  type <- Get body (str "type") ;;
  if is_string type "score" then
    (* Save quiz score *)
    match prop body (str "score"), prop body (str "total") with
    | JNum score, JNum total =>
        let doc := fun id =>
          {| Store.score_id := id;
             Store.score := JNum score;
             Store.total := JNum total;
             Store.percentage :=
               js_or (prop body (str "percentage"))
                 (JNum (num_mul (num_div score total) hundred));
             Store.duration := prop body (str "duration");
             Store.step := js_or (prop body (str "step")) (JStr (str "mixed"));
             Store.score_createdAt := now w |} in
        let '(db', id) := Store.insert_score db doc in
        Normal (db', mkResponse 201 (CreatedScore (doc id)))
    | _, _ =>
        Normal (db, error 400
                      (str "Score and total are required for score submission"))
    end
  else
    (* Create AI-generated question *)
    let question := prop body (str "question") in
    let options := prop body (str "options") in
    match prop body (str "correct") with
    | JNum correct =>
        if negb (truthy question) || negb (truthy options) then
          Normal (db, error 400
                        (str "Question, options, and correct answer index are required"))
        else
          match parse_options options with
          | None =>
              Normal (db, error 400
                            (str "Options must be a valid JSON array of at least 2 items"))
          | Some parsedOptions =>
              let len := num_of_nat (length parsedOptions) in
              if num_lt correct Gemini.zero || num_ge correct len then
                Normal (db, error 400
                              (str "Correct answer index must be between 0 and "
                               ++ Number_toString (num_sub len one)))
              else
                let doc := fun id =>
                  {| Store._id := id;
                     Store.question := question;
                     Store.options :=
                       (if JSType_eqb (typeof options) TyString then options
                        else JSON_stringify options);
                     Store.correct := JNum correct;
                     Store.explanation :=
                       js_or (prop body (str "explanation")) (JStr []);
                     Store.subject := js_or (prop body (str "subject")) (JStr []);
                     Store.difficulty :=
                       js_or (prop body (str "difficulty")) (JStr (str "Medium"));
                     Store.createdAt := now w |} in
                let '(db', id) := Store.insert_question db doc in
                Normal (db', mkResponse 201 (CreatedQuestion (doc id)))
          end
    | _ =>
        Normal (db, error 400
                      (str "Question, options, and correct answer index are required"))
    end.

(** [ids.map(id => new ObjectId(id))]. *)
Fixpoint map_ids (ids : list JSValue) : Completion (list Store.IdArg) :=
  match ids with
  | [] => Normal []
  | id :: rest =>
      o <- Store.new_ObjectId id ;;
      os <- map_ids rest ;;
      Normal (o :: os)
  end.

Definition handleDelete (db : Store.Db) (body : JSValue)
  : Completion (Store.Db * Response Body) :=
  if is_nullish body then Throw (cannot_destructure body "ids" "req.body")
  else
    match prop body (str "ids") with
    | JArr ((_ :: _) as ids) =>
        (* Delete AI-generated questions only (not step questions) *)
        objectIds <- map_ids ids ;;
        let '(db', deletedCount) := Store.delete_questions db objectIds in
        Normal (db',
                mkResponse 200
                  (Json (JObj [(str "message",
                               JStr (str "Deleted "
                                     ++ Number_toString (num_of_nat deletedCount)
                                     ++ str " questions"));
                              (str "count", count deletedCount)])))
    | _ => Normal (db, error 400 (str "Array of question IDs is required"))
    end.

(** The exported [handler]: dispatch on the method; an exception of a
    branch becomes the 500 response. *)
Definition handler (w : World) (db : Store.Db) (req : Request)
  : Store.Db * Response Body :=
  let m := method req in
  let result :=
    if jsstring_eqb m (str "GET") then Normal (db, handleGet w db (query req))
    else if jsstring_eqb m (str "POST") then handlePost w db (req_body req)
    else if jsstring_eqb m (str "DELETE") then handleDelete db (req_body req)
    else Normal (db, error 405 (str "Method not allowed")) in
  match result with
  | Normal r => r
  | Throw e =>
      (db, mkResponse 500
             (Json (JObj [(str "error", JStr (str "Internal server error"));
                         (str "details", JStr (message e))])))
  end.

End Questions.

(* ================================================================== *)
(** * The properties, in the terms of the specification                 *)
(* ================================================================== *)

Module Spec.

Import Gemini.

(** A JSON text written with ['] in place of the double quote. *)
Definition json_text (s : string) : jsstring :=
  map (fun c => if (c =? 39)%N then 34%N else c) (str s).

(** The three per-element checks as the loop performs them: [question] a
    non-empty string, [options] an array of length 4, [correct] a number
    that is neither below 0 nor at least 4. *)
Definition passes (q : JSValue) : bool :=
  negb (question_invalid (prop q (str "question")))
  && negb (options_invalid (prop q (str "options")))
  && negb (correct_invalid (prop q (str "correct"))).

(** The record built from an element that passes. *)
Definition normalize (q : JSValue) : Completion QuestionData :=
  validOptions <-
    map_options (match prop q (str "options") with JArr l => l | _ => [] end) ;;
  Normal {| question := trimmed (prop q (str "question"));
            options := JArr validOptions;
            correct := prop q (str "correct");
            explanation := js_or (prop q (str "explanation")) (JStr []);
            subject := js_or (prop q (str "subject")) (JStr []) |}.

(** The same three checks in the terms of a reader of the parsed JSON:
    [question] a non-empty string, [options] an array of length exactly 4,
    [correct] a number in [0, 4). *)
Definition accepted (q : JSValue) : bool :=
  match prop q (str "question") with JStr (_ :: _) => true | _ => false end
  && match prop q (str "options") with
     | JArr l => (length l =? 4)%nat
     | _ => false
     end
  && match prop q (str "correct") with
     | JNum c => num_le zero c && num_lt c four
     | _ => false
     end.

(** [f] over a list, stopping at the first exception. *)
Fixpoint traverse {A B} (f : A -> Completion B) (l : list A)
  : Completion (list B) :=
  match l with
  | [] => Normal []
  | x :: r =>
      y <- f x ;;
      ys <- traverse f r ;;
      Normal (y :: ys)
  end.

(** A candidate: any value whose properties can be read. *)
Definition candidate (q : JSValue) : Prop := is_nullish q = false.

(** The three checks as the specification words them: [question] present
    and a string, [options] an array of length exactly 4, [correct] a number
    in [0, 4). *)
Definition claimed_pass (q : JSValue) : bool :=
  JSType_eqb (typeof (prop q (str "question"))) TyString
  && match prop q (str "options") with
     | JArr l => (length l =? 4)%nat
     | _ => false
     end
  && match prop q (str "correct") with
     | JNum c => num_le zero c && num_lt c four
     | _ => false
     end.

(** The Question shape of the data model: a non-empty question text, exactly
    four options that are strings, an integer [correct] in [0, 4). *)
Definition is_str (v : JSValue) : bool :=
  match v with JStr _ => true | _ => false end.


(** A value [JSON.parse] can produce: no [undefined] and no [NaN] in it. *)
Fixpoint from_json (v : JSValue) : bool :=
  match v with
  | JUndefined => false
  | JNum S754_nan => false
  | JArr l =>
      (fix all (l : list JSValue) : bool :=
         match l with
         | [] => true
         | x :: r => from_json x && all r
         end) l
  | JObj props =>
      (fix all (ps : list (jsstring * JSValue)) : bool :=
         match ps with
         | [] => true
         | (_, x) :: r => from_json x && all r
         end) props
  | _ => true
  end.

(** Invariants of the lexer and the parser: every number token, every value
    held in a frame, is one [JSON.parse] can produce. *)

Definition token_ok (t : token) : Prop :=
  match t with
  | TNumber n => n <> S754_nan
  | _ => True
  end.

(** [from_json] on the children of arrays and objects. *)
Definition props_ok (ps : list (jsstring * JSValue)) : bool :=
  forallb (fun kv => from_json (snd kv)) ps.

Definition frame_ok (f : frame) : Prop :=
  match f with
  | FArr acc => forallb from_json acc = true
  | FObj props _ => props_ok props = true
  end.

Definition pstate_ok (st : pstate) : Prop :=
  match st with
  | PExpect k | PArrStart k | PObjStart k => Forall frame_ok k
  | PObjKey props k | PColon props _ k | PInObj props k =>
      props_ok props = true /\ Forall frame_ok k
  | PInArr acc k => forallb from_json acc = true /\ Forall frame_ok k
  | PDone v => from_json v = true
  end.

(** The failure kinds of the AI client and the status the specification
    assigns to each. *)
Inductive FailureKind :=
| InvalidCredential | QuotaExceeded | UpstreamUnavailable | OtherFailure.

Definition claimed_status (k : FailureKind) : N :=
  match k with
  | InvalidCredential => 401
  | QuotaExceeded => 429
  | UpstreamUnavailable => 503
  | OtherFailure => 500
  end.

(** The kind of a response that is not [ok], by its HTTP status. *)
Definition failure_kind (status : N) : FailureKind :=
  if (status =? 401)%N then InvalidCredential
  else if (status =? 429)%N then QuotaExceeded
  else if (500 <=? status)%N then UpstreamUnavailable
  else OtherFailure.

(** The status the handler gives an exception with message [msg]. *)
Definition status_of_message (msg : jsstring) : N :=
  if includes msg (str "API key") then 401
  else if includes msg (str "quota") || includes msg (str "limit") then 429
  else if includes msg (str "network") || includes msg (str "fetch") then 503
  else 500.

(** The condition under which the specification lets a question body be
    refused: [options] is not a JSON array of at least 2 items, or [correct]
    lies outside [0, length(options)). *)
Definition claimed_refusal (body : JSValue) : bool :=
  match Questions.parse_options (prop body (str "options")) with
  | None => true
  | Some l =>
      match prop body (str "correct") with
      | JNum c => num_lt c zero || num_ge c (num_of_nat (length l))
      | _ => true
      end
  end.

(** The condition under which [handlePost] refuses a question body: a
    required field is missing, or the condition above. *)
Definition refused (body : JSValue) : bool :=
  negb (truthy (prop body (str "question")))
  || negb (truthy (prop body (str "options")))
  || negb (JSType_eqb (typeof (prop body (str "correct"))) TyNumber)
  || claimed_refusal body.

(** An identifier a client can name a stored question by: 24 hex digits. *)
Definition well_formed_id (v : JSValue) : bool :=
  match v with
  | JStr s => (length s =? 24)%nat && forallb Store.is_hex s
  | _ => false
  end.

(** The identifier a well-formed string spells. *)
Definition spelled (v : JSValue) : Store.ObjectId :=
  match v with
  | JStr s => Store.hex_number s
  | _ => 0%N
  end.

(** Is the stored identifier [id] among the requested [ids]? *)
Definition requested (ids : list JSValue) (id : Store.ObjectId) : bool :=
  existsb (fun v => N.eqb (spelled v) id) ids.

(** The Score invariant of the data model: [0 <= score <= total]. *)
Definition score_invariant (d : Store.ScoreDoc) : bool :=
  match Store.score d, Store.total d with
  | JNum s, JNum t => num_le zero s && num_le s t
  | _, _ => false
  end.

(** The questions of a batch whose insertion goes through, in order: the
    i-th question is kept unless the i-th [insertOne] fails. *)
Definition inserted {A : Type} (fails : nat -> bool) (rs : list A) : list A :=
  map snd
    (filter (fun p => negb (fails (fst p)))
       (combine (seq 0 (length rs)) rs)).

(** A stored document that holds a validated question: the fields of the
    record, the options as JSON text, the difficulty of the request and the
    time of the request. *)
Definition saved_from (difficulty : JSValue) (now : Z)
  (r : Gemini.QuestionData) (d : Store.QuestionDoc) : Prop :=
  Store.question d = Gemini.question r
  /\ Store.options d = JSON_stringify (Gemini.options r)
  /\ Store.correct d = Gemini.correct r
  /\ Store.explanation d = js_or (Gemini.explanation r) (JStr [])
  /\ Store.subject d = js_or (Gemini.subject r) (JStr [])
  /\ Store.difficulty d = difficulty
  /\ Store.createdAt d = now.

End Spec.

(* ================================================================== *)
(** * [src/pages/quiz.tsx]: what the quiz page does with a listing      *)
(* ================================================================== *)

Module Quiz.

(** Lines 90-93 of [fetchQuestions]:
    [typeof q.options === 'string' ? JSON.parse(q.options) : q.options];
    [None] when [JSON.parse] raises (the page then shows the error). *)
Definition parsedOptions (options : JSValue) : option JSValue :=
  match options with
  | JStr s => JSON_parse s
  | _ => Some options
  end.

End Quiz.

(* ================================================================== *)
(** * Theorems                                                          *)
(* ================================================================== *)

Unset Implicit Arguments.

(** Case analysis on every [if] of a hypothesis. *)
Ltac split_ifs H :=
  repeat match type of H with
         | context [if ?b then _ else _] => destruct b
         end.

Module ValidatorFacts.

Import Gemini Spec.

Lemma candidate_Get (q : JSValue) (key : jsstring) :
  candidate q -> Get q key = Normal (prop q key).
Proof. unfold candidate, Get. intros ->. reflexivity. Qed.

(** A property of [null] or [undefined] reads as [undefined] in [prop], so
    a value with a defined property is a candidate. *)
Lemma defined_prop_candidate (q : JSValue) (key : jsstring) :
  prop q key <> JUndefined -> candidate q.
Proof. destruct q; simpl; intros H; try reflexivity; now elim H. Qed.

Lemma validate_loop_skip (q : JSValue) (rest : list JSValue)
  (acc : list QuestionData) :
  candidate q -> passes q = false ->
  validate_loop (q :: rest) acc = validate_loop rest acc.
Proof.
  intros Hc Hp. cbn [validate_loop].
  rewrite (candidate_Get _ _ Hc). cbn [bind].
  unfold passes in Hp.
  destruct (question_invalid _); [reflexivity|].
  destruct (options_invalid _); [reflexivity|].
  destruct (correct_invalid _); [reflexivity|].
  discriminate Hp.
Qed.

Lemma validate_loop_keep (q : JSValue) (rest : list JSValue)
  (acc : list QuestionData) :
  candidate q -> passes q = true ->
  validate_loop (q :: rest) acc =
    (r <- normalize q ;; validate_loop rest (acc ++ [r])).
Proof.
  intros Hc Hp. cbn [validate_loop].
  rewrite (candidate_Get _ _ Hc). cbn [bind].
  unfold passes in Hp.
  destruct (question_invalid _); [discriminate Hp|].
  destruct (options_invalid _); [discriminate Hp|].
  destruct (correct_invalid _); [discriminate Hp|].
  unfold normalize.
  destruct (map_options _); reflexivity.
Qed.

(** The loop is a filter followed by the construction of the records. *)
Lemma validate_loop_filter (qs : list JSValue) :
  Forall candidate qs ->
  forall acc,
    validate_loop qs acc =
      (rs <- traverse normalize (filter passes qs) ;; Normal (acc ++ rs)).
Proof.
  induction 1 as [|q qs Hq _ IH]; intros acc.
  - cbn. now rewrite app_nil_r.
  - cbn [filter]. destruct (passes q) eqn:Hp.
    + rewrite (validate_loop_keep _ _ _ Hq Hp). cbn [traverse].
      destruct (normalize q) as [r|e]; cbn [bind]; [|reflexivity].
      rewrite IH.
      destruct (traverse normalize (filter passes qs)); cbn [bind];
        [|reflexivity].
      now rewrite <- app_assoc.
    + rewrite (validate_loop_skip _ _ _ Hq Hp). apply IH.
Qed.

(** An element that fails a check leaves no trace, wherever it stands. *)
Lemma validate_loop_skip_inside (q : JSValue) (pre post : list JSValue) :
  candidate q -> passes q = false ->
  forall acc,
    validate_loop (pre ++ q :: post) acc = validate_loop (pre ++ post) acc.
Proof.
  intros Hc Hp.
  induction pre as [|x pre IH]; intros acc.
  - apply validate_loop_skip; assumption.
  - cbn [app validate_loop].
    destruct (Get x (str "question")); cbn [bind]; [|reflexivity].
    destruct (question_invalid _); [apply IH|].
    destruct (options_invalid _); [apply IH|].
    destruct (correct_invalid _); [apply IH|].
    destruct (map_options _); cbn [bind]; [apply IH | reflexivity].
Qed.

Lemma validate_skip_inside (q : JSValue) (pre post : list JSValue) :
  candidate q -> passes q = false ->
  validate (JArr (pre ++ q :: post)) = validate (JArr (pre ++ post)).
Proof.
  intros Hc Hp. unfold validate.
  now rewrite (validate_loop_skip_inside _ pre post Hc Hp).
Qed.

Lemma validate_text_array (generatedText : JSValue) (qs : list JSValue) :
  extract generatedText = Normal (JArr qs) ->
  validate_text generatedText = validate (JArr qs).
Proof. unfold validate_text. intros ->. reflexivity. Qed.

Lemma validate_candidates (qs : list JSValue) :
  Forall candidate qs ->
  validate (JArr qs) =
    (rs <- traverse normalize (filter passes qs) ;;
     match rs with
     | [] => Throw no_valid_questions
     | _ => Normal rs
     end).
Proof.
  intros H. unfold validate. rewrite (validate_loop_filter _ H).
  destruct (traverse normalize (filter passes qs)); reflexivity.
Qed.

Lemma traverse_Forall2 {A B} (f : A -> Completion B) (l : list A)
  (rs : list B) :
  traverse f l = Normal rs -> Forall2 (fun x r => f x = Normal r) l rs.
Proof.
  revert rs. induction l as [|x l IH]; intros rs; cbn.
  - intros [= <-]. constructor.
  - destruct (f x) as [y|] eqn:Hx; cbn; [|discriminate].
    destruct (traverse f l) as [ys|]; cbn; [|discriminate].
    intros [= <-]. constructor; auto.
Qed.

End ValidatorFacts.

Module ValidatorClaims.

Import Gemini Spec ValidatorFacts.

(** C2.  On the raw text
    [garbage [ {"question":"Q","options":["a","b","c","d"],"correct":1} ] trailing]
    the validator takes the span from the first [[] to the last []], parses
    it, and returns exactly one record, with [correct = 1] and the four
    string options. *)
Theorem C2_bracketed_span_example :
  let raw :=
    json_text
      "garbage [ {'question':'Q','options':['a','b','c','d'],'correct':1} ] trailing" in
  match_bracket_span raw
    = Some (json_text
              "[ {'question':'Q','options':['a','b','c','d'],'correct':1} ]")
  /\ extract (JStr raw)
     = Normal
         (JArr [JObj [(str "question", JStr (str "Q"));
                      (str "options",
                       JArr [JStr (str "a"); JStr (str "b"); JStr (str "c");
                             JStr (str "d")]);
                      (str "correct", JNum (num_of_Z 1))]])
  /\ validate_text (JStr raw)
     = Normal [ {| question := JStr (str "Q");
                   options := JArr [JStr (str "a"); JStr (str "b");
                                    JStr (str "c"); JStr (str "d")];
                   correct := JNum (num_of_Z 1);
                   explanation := JStr [];
                   subject := JStr [] |} ].
Proof.
  intros raw. repeat split; vm_compute; reflexivity.
Qed.

Lemma short_options_fail (q : JSValue) (l : list JSValue) :
  prop q (str "options") = JArr l -> length l = 3 ->
  candidate q /\ passes q = false.
Proof.
  intros Ho Hl. split.
  - apply (defined_prop_candidate q (str "options")). now rewrite Ho.
  - unfold passes. rewrite Ho. cbn [options_invalid]. rewrite Hl.
    cbn. now rewrite andb_false_r.
Qed.

Lemma correct_four_fails (q : JSValue) :
  prop q (str "correct") = JNum four ->
  candidate q /\ passes q = false.
Proof.
  intros Hc. split.
  - apply (defined_prop_candidate q (str "correct")). now rewrite Hc.
  - unfold passes. rewrite Hc.
    replace (correct_invalid (JNum four)) with true by (vm_compute; reflexivity).
    cbn. now rewrite andb_false_r.
Qed.

Lemma empty_question_fails (q : JSValue) :
  prop q (str "question") = JStr [] ->
  candidate q /\ passes q = false.
Proof.
  intros Hq. split.
  - apply (defined_prop_candidate q (str "question")). now rewrite Hq.
  - unfold passes. rewrite Hq. reflexivity.
Qed.

(** C3.  An element whose [options] array has length 3 is skipped, and so is
    an element whose [correct] is 4 (with 4 options); the batch goes on as
    if the element were not there, and fails with the no-valid-questions
    error when it was the only one.  For every array of candidates in which
    no element survives the checks the validator fails with that error, and
    it never returns an empty sequence. *)
Theorem C3_skipped_elements_and_empty_batch :
  (forall q l pre post,
      prop q (str "options") = JArr l -> length l = 3 ->
      validate (JArr (pre ++ q :: post)) = validate (JArr (pre ++ post))
      /\ validate (JArr [q]) = Throw no_valid_questions)
  /\ (forall q l pre post,
        prop q (str "options") = JArr l -> length l = 4 ->
        prop q (str "correct") = JNum four ->
        validate (JArr (pre ++ q :: post)) = validate (JArr (pre ++ post))
        /\ validate (JArr [q]) = Throw no_valid_questions)
  /\ (forall qs,
        Forall candidate qs -> filter passes qs = [] ->
        validate (JArr qs) = Throw no_valid_questions)
  /\ (forall v, validate v <> Normal []).
Proof.
  repeat apply conj.
  - intros q l pre post Ho Hl.
    destruct (short_options_fail q l Ho Hl) as [Hc Hp].
    split; [now apply validate_skip_inside|].
    exact (validate_skip_inside q [] [] Hc Hp).
  - intros q l pre post _ _ Hf.
    destruct (correct_four_fails q Hf) as [Hc Hp].
    split; [now apply validate_skip_inside|].
    exact (validate_skip_inside q [] [] Hc Hp).
  - intros qs Hc Hf. rewrite (validate_candidates _ Hc), Hf. reflexivity.
  - intros v. unfold validate. destruct v; try discriminate.
    destruct (validate_loop elems []) as [[|r rs]|]; cbn [bind]; discriminate.
Qed.

Lemma C3_witness :
  let q3 := JObj [(str "question", JStr (str "Q"));
                  (str "options",
                   JArr [JStr (str "a"); JStr (str "b"); JStr (str "c")]);
                  (str "correct", JNum (num_of_Z 1))] in
  let q4 := JObj [(str "question", JStr (str "Q"));
                  (str "options",
                   JArr [JStr (str "a"); JStr (str "b"); JStr (str "c");
                         JStr (str "d")]);
                  (str "correct", JNum four)] in
  validate (JArr [q3]) = Throw no_valid_questions
  /\ validate (JArr [q4]) = Throw no_valid_questions
  /\ validate (JArr [q3; q4]) = Throw no_valid_questions.
Proof.
  intros q3 q4.
  destruct C3_skipped_elements_and_empty_batch as (H3 & H4 & Hnone & _).
  split; [|split].
  - exact (proj2 (H3 q3 _ [] [] eq_refl eq_refl)).
  - exact (proj2 (H4 q4 _ [] [] eq_refl eq_refl eq_refl)).
  - apply Hnone; [repeat constructor | reflexivity].
Defined.

(** C10.  A candidate element whose [question] is present, a string, and
    empty is skipped: the validator's result is the one it gives without
    that element. *)
Theorem C10_empty_question_is_skipped :
  forall (q : JSValue) (pre post : list JSValue),
    prop q (str "question") = JStr [] ->
    typeof (prop q (str "question")) = TyString
    /\ question_invalid (prop q (str "question")) = true
    /\ validate (JArr (pre ++ q :: post)) = validate (JArr (pre ++ post)).
Proof.
  intros q pre post Hq.
  destruct (empty_question_fails q Hq) as [Hc Hp].
  rewrite Hq. repeat split.
  now apply validate_skip_inside.
Qed.

Lemma C10_witness :
  let q := JObj [(str "question", JStr []);
                 (str "options",
                  JArr [JStr (str "a"); JStr (str "b"); JStr (str "c");
                        JStr (str "d")]);
                 (str "correct", JNum (num_of_Z 1))] in
  prop q (str "question") = JStr []
  /\ validate (JArr [q]) = validate (JArr []).
Proof.
  intros q. split; [reflexivity|].
  exact (proj2 (proj2 (C10_empty_question_is_skipped q [] [] eq_refl))).
Defined.

End ValidatorClaims.

(** ** What [JSON.parse] can produce *)

Module JsonFacts.

Import Spec.

Lemma iter_pos_invariant {A} (P : A -> Prop) (f : A -> A) :
  (forall x, P x -> P (f x)) ->
  forall p x, P x -> P (iter_pos f p x).
Proof.
  intros Hf. induction p as [p IH|p IH|]; intros x Hx; cbn; auto.
Qed.

Lemma shr_1_nonneg (mrs : shr_record) :
  (0 <= shr_m mrs)%Z -> (0 <= shr_m (shr_1 mrs))%Z.
Proof.
  destruct mrs as [m r s]. cbn.
  destruct m as [|[p|p|]|[p|p|]]; cbn; lia.
Qed.

Lemma shr_nonneg (mrs : shr_record) (e n : Z) :
  (0 <= shr_m mrs)%Z -> (0 <= shr_m (fst (shr mrs e n)))%Z.
Proof.
  intros H. unfold shr. destruct n; cbn; try assumption.
  now apply (iter_pos_invariant (fun x => 0 <= shr_m x)%Z), H;
    apply shr_1_nonneg.
Qed.

Lemma shr_fexp_nonneg (m e : Z) (l : location) :
  (0 <= m)%Z -> (0 <= shr_m (fst (shr_fexp prec emax m e l)))%Z.
Proof.
  intros H. unfold shr_fexp. apply shr_nonneg.
  destruct l as [|[]]; exact H.
Qed.

Lemma round_nearest_even_nonneg (m : Z) (l : location) :
  (0 <= m)%Z -> (0 <= round_nearest_even m l)%Z.
Proof.
  intros H. destruct l as [|[]]; cbn; try lia.
  destruct (Z.even m); lia.
Qed.

(** Rounding a non-negative mantissa never yields [NaN]. *)
Lemma binary_round_aux_not_nan (sx : bool) (mx ex : Z) (lx : location) :
  (0 <= mx)%Z -> binary_round_aux prec emax sx mx ex lx <> S754_nan.
Proof.
  intros H. unfold binary_round_aux.
  pose proof (shr_fexp_nonneg mx ex lx H) as H1.
  destruct (shr_fexp prec emax mx ex lx) as [mrs' e']. cbn [fst] in H1.
  pose proof (shr_fexp_nonneg _ e' loc_Exact
                (round_nearest_even_nonneg _ (loc_of_shr_record mrs') H1)) as H2.
  destruct (shr_fexp prec emax _ e' loc_Exact) as [mrs'' e'']. cbn [fst] in H2.
  destruct (shr_m mrs''); try lia; try discriminate.
  destruct (Z.leb _ _); discriminate.
Qed.

Lemma binary_round_not_nan (sx : bool) (mx : positive) (ex : Z) :
  binary_round prec emax sx mx ex <> S754_nan.
Proof.
  unfold binary_round.
  destruct (shl_align _ _ _) as [mz ez].
  apply binary_round_aux_not_nan. lia.
Qed.

Lemma div_core_nonneg (m1 m2 : positive) (e1 e2 : Z) :
  (0 <= fst (fst (SFdiv_core_binary prec emax (Zpos m1) e1 (Zpos m2) e2)))%Z.
Proof.
  unfold SFdiv_core_binary.
  set (s := (_ - _ - _)%Z).
  set (m' := match s with Zpos _ => _ | Z0 => _ | Zneg _ => _ end).
  assert (Hm : (0 <= m')%Z).
  { subst m'. destruct s; try lia. apply Z.shiftl_nonneg. lia. }
  pose proof (Z.div_eucl_eq m' (Zpos m2) ltac:(lia)) as Heq.
  pose proof (Z.mod_pos_bound m' (Zpos m2) ltac:(lia)) as Hb.
  unfold Z.modulo in Hb.
  destruct (Z.div_eucl m' (Zpos m2)) as [q r]. cbn [fst].
  nia.
Qed.

Lemma num_of_decimal_not_nan (neg : bool) (m e10 : Z) :
  num_of_decimal neg m e10 <> S754_nan.
Proof.
  unfold num_of_decimal. destruct m as [|p|p]; try discriminate.
  destruct (Z.ltb _ _); [discriminate|].
  destruct (Z.ltb _ _); [discriminate|].
  destruct (Z.leb 0 e10) eqn:He; [apply binary_round_not_nan|].
  apply Z.leb_gt in He.
  pose proof (Z.pow_pos_nonneg 10 (- e10) ltac:(lia) ltac:(lia)) as Hpos.
  destruct (10 ^ (- e10))%Z as [|d|d]; try lia.
  pose proof (div_core_nonneg p d 0 0) as H.
  destruct (SFdiv_core_binary _ _ _ _ _ _) as [[q e] l]. cbn [fst] in H.
  now apply binary_round_aux_not_nan.
Qed.

Lemma number_of_literal_not_nan (s : jsstring) (n : number) :
  number_of_literal s = Some n -> n <> S754_nan.
Proof.
  unfold number_of_literal. intros H.
  repeat match type of H with
         | context [match ?x with _ => _ end] => destruct x
         end;
    try discriminate; injection H as <-; apply num_of_decimal_not_nan.
Qed.

Lemma lex_start_ok (c : jschar) (st : lex_state) (ts : list token) :
  lex_start c = Some (st, ts) -> Forall token_ok ts.
Proof.
  unfold lex_start. intros H.
  split_ifs H; try discriminate; injection H as <- <-; repeat constructor.
Qed.

Lemma lex_close_ok (st : lex_state) (ts : list token) :
  lex_close st = Some ts -> Forall token_ok ts.
Proof.
  destruct st; cbn; try discriminate.
  - intros [= <-]. constructor.
  - destruct (number_of_literal _) as [n|] eqn:Hn; cbn; [|discriminate].
    intros [= <-]. repeat constructor.
    exact (number_of_literal_not_nan _ _ Hn).
  - destruct (word_token _) as [t|] eqn:Hw; cbn; [|discriminate].
    intros [= <-]. repeat constructor.
    unfold word_token in Hw.
    split_ifs Hw; try discriminate; injection Hw as <-; exact I.
Qed.

Lemma lex_step_ok (st st' : lex_state) (c : jschar) (ts : list token) :
  lex_step st c = Some (st', ts) -> Forall token_ok ts.
Proof.
  destruct st; cbn [lex_step].
  - apply lex_start_ok.
  - intros H.
    split_ifs H; try discriminate; injection H as <- <-; repeat constructor.
  - intros H.
    split_ifs H; try discriminate; injection H as <- <-; repeat constructor.
  - intros H.
    destruct (hex_value c); [|discriminate].
    destruct ds as [|? [|? [|? [|? ?]]]]; injection H as <- <-; constructor.
  - destruct (is_number_char c); [intros [= <- <-]; constructor|].
    destruct (lex_close (LNum acc)) as [t1|] eqn:H1; [|discriminate].
    destruct (lex_start c) as [[s2 t2]|] eqn:H2; [|discriminate].
    intros [= <- <-]. apply Forall_app. split.
    + exact (lex_close_ok _ _ H1).
    + exact (lex_start_ok _ _ _ H2).
  - destruct (is_lower c); [intros [= <- <-]; constructor|].
    destruct (lex_close (LWord acc)) as [t1|] eqn:H1; [|discriminate].
    destruct (lex_start c) as [[s2 t2]|] eqn:H2; [|discriminate].
    intros [= <- <-]. apply Forall_app. split.
    + exact (lex_close_ok _ _ H1).
    + exact (lex_start_ok _ _ _ H2).
Qed.

Lemma lex_from_ok (s : jsstring) :
  forall st ts, lex_from st s = Some ts -> Forall token_ok ts.
Proof.
  induction s as [|c s IH]; intros st ts; cbn [lex_from].
  - apply lex_close_ok.
  - destruct (lex_step st c) as [[st' t1]|] eqn:H1; [|discriminate].
    destruct (lex_from st' s) as [t2|] eqn:H2; cbn; [|discriminate].
    intros [= <-]. apply Forall_app. split.
    + exact (lex_step_ok _ _ _ _ H1).
    + exact (IH _ _ H2).
Qed.

Lemma from_json_arr (l : list JSValue) :
  from_json (JArr l) = forallb from_json l.
Proof.
  cbn [from_json]. induction l as [|x l IH]; [reflexivity|].
  cbn [forallb]. now rewrite <- IH.
Qed.

Lemma from_json_obj (ps : list (jsstring * JSValue)) :
  from_json (JObj ps) = props_ok ps.
Proof.
  cbn [from_json]. unfold props_ok.
  induction ps as [|[k x] ps IH]; [reflexivity|].
  cbn [forallb snd]. now rewrite <- IH.
Qed.

Lemma lookup_ok (ps : list (jsstring * JSValue)) (key : jsstring)
  (v : JSValue) :
  props_ok ps = true -> lookup ps key = Some v -> from_json v = true.
Proof.
  unfold props_ok. induction ps as [|[k x] ps IH]; cbn; [discriminate|].
  intros H. apply andb_prop in H as [Hx Hps].
  destruct (jsstring_eqb k key); [now intros [= <-] | now apply IH].
Qed.

Lemma replace_prop_ok (ps : list (jsstring * JSValue)) (key : jsstring)
  (v : JSValue) :
  props_ok ps = true -> from_json v = true ->
  props_ok (replace_prop ps key v) = true.
Proof.
  unfold props_ok. intros Hps Hv.
  induction ps as [|[k x] ps IH]; cbn in *; [reflexivity|].
  apply andb_prop in Hps as [Hx Hps].
  destruct (jsstring_eqb k key); cbn; rewrite ?Hv, ?Hx, ?Hps; auto.
Qed.

Lemma insert_index_ok (ps : list (jsstring * JSValue)) (i : Z)
  (key : jsstring) (v : JSValue) :
  props_ok ps = true -> from_json v = true ->
  props_ok (insert_index ps i key v) = true.
Proof.
  unfold props_ok. intros Hps Hv.
  induction ps as [|[k x] ps IH]; cbn in *; [now rewrite Hv|].
  pose proof Hps as Hall.
  apply andb_prop in Hps as [Hx Hps].
  destruct (array_index k) as [j|]; [destruct (j <? i)%Z|]; cbn;
    rewrite ?Hv, ?Hx, ?Hps; auto.
Qed.

Lemma obj_set_ok (ps : list (jsstring * JSValue)) (key : jsstring)
  (v : JSValue) :
  props_ok ps = true -> from_json v = true ->
  props_ok (obj_set ps key v) = true.
Proof.
  intros Hps Hv. unfold obj_set.
  destruct (lookup ps key); [now apply replace_prop_ok|].
  destruct (array_index key); [now apply insert_index_ok|].
  unfold props_ok in *. rewrite forallb_app, Hps. cbn. now rewrite Hv.
Qed.

Lemma plug_ok (v : JSValue) (k : list frame) :
  from_json v = true -> Forall frame_ok k -> pstate_ok (plug v k).
Proof.
  intros Hv Hk. destruct Hk as [|f k Hf Hk]; cbn; [assumption|].
  destruct f as [acc|props key]; cbn in *.
  - now rewrite Hv, Hf.
  - split; [now apply obj_set_ok | assumption].
Qed.

Lemma parse_value_ok (k : list frame) (t : token) (st : pstate) :
  Forall frame_ok k -> token_ok t ->
  parse_value k t = Some st -> pstate_ok st.
Proof.
  intros Hk Ht. destruct t; cbn; try discriminate; intros [= <-];
    try assumption; apply plug_ok; try assumption; try reflexivity.
  cbn in Ht. destruct n; try reflexivity. now elim Ht.
Qed.

Lemma parse_step_ok (st st' : pstate) (t : token) :
  pstate_ok st -> token_ok t -> parse_step st t = Some st' -> pstate_ok st'.
Proof.
  intros Hst Ht. destruct st; cbn [parse_step pstate_ok] in *.
  - now apply parse_value_ok.
  - destruct t; try (apply parse_value_ok; [repeat constructor|]; assumption).
    intros [= <-]. now apply plug_ok.
  - destruct t; try discriminate; intros [= <-].
    + now apply plug_ok.
    + cbn. auto.
  - destruct t; try discriminate; intros [= <-]. exact Hst.
  - destruct t; try discriminate; intros [= <-]. cbn.
    destruct Hst. constructor; assumption.
  - destruct Hst as [Ha Hk].
    destruct t; try discriminate; intros [= <-]; cbn.
    + apply plug_ok; [|assumption].
      rewrite from_json_arr, forallb_forall.
      intros x Hx. apply in_rev in Hx.
      now apply (proj1 (forallb_forall _ _) Ha).
    + constructor; assumption.
  - destruct Hst as [Hp Hk].
    destruct t; try discriminate; intros [= <-]; cbn.
    + apply plug_ok; [|assumption]. now rewrite from_json_obj.
    + auto.
  - discriminate.
Qed.

Lemma parse_from_ok (ts : list token) :
  forall st v,
    pstate_ok st -> Forall token_ok ts ->
    parse_from st ts = Some v -> from_json v = true.
Proof.
  induction ts as [|t ts IH]; intros st v Hst Hts; cbn [parse_from].
  - destruct st; try discriminate. now intros [= <-].
  - inversion Hts as [|? ? Ht Hts']; subst.
    destruct (parse_step st t) as [st'|] eqn:Hs; [|discriminate].
    apply IH; [|assumption].
    exact (parse_step_ok _ _ _ Hst Ht Hs).
Qed.

(** Whatever [JSON.parse] returns holds no [undefined] and no [NaN]. *)
Lemma JSON_parse_from_json (text : jsstring) (v : JSValue) :
  JSON_parse text = Some v -> from_json v = true.
Proof.
  unfold JSON_parse, lex.
  destruct (lex_from LStart text) as [ts|] eqn:Hl; [|discriminate].
  apply parse_from_ok; [constructor|].
  exact (lex_from_ok _ _ _ Hl).
Qed.

End JsonFacts.

(** ** Number comparisons *)

Module NumberFacts.

Import Gemini.

(** Two numbers that can be compared compare the opposite way round when
    swapped. *)
Lemma SFcompare_swap (a b : number) (c : comparison) :
  SFcompare a b = Some c -> SFcompare b a = Some (CompOpp c).
Proof.
  destruct a as [sa|sa| |sa ma ea], b as [sb|sb| |sb mb eb]; cbn;
    try discriminate; intros [= <-];
    try (destruct sa; reflexivity); try (destruct sb; reflexivity);
    try (destruct sa, sb; reflexivity).
  destruct sa, sb; try reflexivity;
    rewrite (Z.compare_antisym ea eb);
    destruct (ea ?= eb)%Z; cbn; try reflexivity;
    change (Pos.compare_cont Eq mb ma) with (Pos.compare mb ma);
    change (Pos.compare_cont Eq ma mb) with (Pos.compare ma mb);
    rewrite (Pos.compare_antisym ma mb);
    destruct (ma ?= mb)%positive; reflexivity.
Qed.

Lemma comparable (a b : number) :
  a <> S754_nan -> b <> S754_nan -> exists c, SFcompare a b = Some c.
Proof.
  intros Ha Hb.
  destruct a as [sa|sa| |sa ma ea], b as [sb|sb| |sb mb eb]; cbn;
    try (now elim Ha); try (now elim Hb); eauto.
Qed.

(** For numbers other than [NaN], [not (a < b)] is [b <= a] and
    [not (a >= b)] is [a < b]. *)
Lemma not_lt_le (a b : number) :
  a <> S754_nan -> b <> S754_nan -> num_lt a b = false -> num_le b a = true.
Proof.
  intros Ha Hb. unfold num_lt, num_le, SFltb, SFleb.
  destruct (comparable a b Ha Hb) as [c Hc].
  rewrite Hc, (SFcompare_swap _ _ _ Hc).
  destruct c; cbn; congruence.
Qed.

Lemma not_ge_lt (a b : number) :
  a <> S754_nan -> b <> S754_nan -> num_ge a b = false -> num_lt a b = true.
Proof.
  intros Ha Hb. unfold num_ge, num_lt, SFltb, SFleb.
  destruct (comparable b a Hb Ha) as [c Hc].
  rewrite Hc, (SFcompare_swap _ _ _ Hc).
  destruct c; cbn; congruence.
Qed.

Lemma le_is_not_lt (a b : number) :
  a <> S754_nan -> b <> S754_nan -> num_le b a = negb (num_lt a b).
Proof.
  intros Ha Hb. unfold num_lt, num_le, SFltb, SFleb.
  destruct (comparable a b Ha Hb) as [c Hc].
  rewrite Hc, (SFcompare_swap _ _ _ Hc).
  destruct c; reflexivity.
Qed.

Lemma lt_is_not_ge (a b : number) :
  a <> S754_nan -> b <> S754_nan -> num_lt a b = negb (num_ge a b).
Proof.
  intros Ha Hb. unfold num_ge, num_lt, SFltb, SFleb.
  destruct (comparable b a Hb Ha) as [c Hc].
  rewrite Hc, (SFcompare_swap _ _ _ Hc).
  destruct c; reflexivity.
Qed.

Lemma num_of_Z_not_nan (z : Z) : num_of_Z z <> S754_nan.
Proof.
  unfold num_of_Z, binary_normalize.
  destruct z; try discriminate; apply JsonFacts.binary_round_not_nan.
Qed.

End NumberFacts.

(** ** The shape of the validator's records *)

Module ShapeFacts.

Import Gemini Spec ValidatorFacts JsonFacts NumberFacts.

(** A batch that comes back held candidates only. *)
Lemma returned_candidates (qs : list JSValue) :
  forall acc rs, validate_loop qs acc = Normal rs -> Forall candidate qs.
Proof.
  induction qs as [|q qs IH]; intros acc rs H; [constructor|].
  cbn [validate_loop] in H.
  assert (Hc : candidate q).
  { unfold candidate. unfold Get in H.
    destruct (is_nullish q); [discriminate H | reflexivity]. }
  constructor; [exact Hc|].
  rewrite (candidate_Get _ _ Hc) in H. cbn [bind] in H.
  destruct (question_invalid _); [exact (IH _ _ H)|].
  destruct (options_invalid _); [exact (IH _ _ H)|].
  destruct (correct_invalid _); [exact (IH _ _ H)|].
  destruct (map_options _); cbn [bind] in H; [exact (IH _ _ H)|discriminate].
Qed.

Lemma map_options_strings (l : list JSValue) :
  forall vs, map_options l = Normal vs ->
             length vs = length l /\ forallb is_str vs = true.
Proof.
  induction l as [|x l IH]; intros vs; cbn [map_options].
  - intros [= <-]. split; reflexivity.
  - destruct (map_options l) as [os|] eqn:Hl.
    + destruct (IH os eq_refl) as [Hlen Hstr].
      destruct x; cbn; try (intros [= <-]; cbn; rewrite ?Hlen, ?Hstr; auto).
      * destruct b; cbn; intros [= <-]; cbn; rewrite ?Hlen, ?Hstr; auto.
      * unfold String_. destruct (ToString (JArr elems)); cbn;
          [intros [= <-]; cbn; rewrite ?Hlen, ?Hstr; auto | discriminate].
      * unfold String_. destruct (ToString (JObj props)); cbn;
          [intros [= <-]; cbn; rewrite ?Hlen, ?Hstr; auto | discriminate].
    + destruct (if JSType_eqb (typeof x) TyString then _ else _);
        cbn; discriminate.
Qed.

Lemma four_strings (vs : list JSValue) :
  length vs = 4 -> forallb is_str vs = true ->
  exists o1 o2 o3 o4, vs = [JStr o1; JStr o2; JStr o3; JStr o4].
Proof.
  destruct vs as [|[] [|[] [|[] [|[] [|? ?]]]]]; cbn; try discriminate.
  intros _ _. eauto.
Qed.

Lemma Forall2_In_right {A B} (R : A -> B -> Prop) (l : list A) (rs : list B)
  (r : B) :
  Forall2 R l rs -> In r rs -> exists x, In x l /\ R x r.
Proof.
  induction 1 as [|x y l rs Hxy _ IH]; cbn; [tauto|].
  intros [<- | Hin]; [eauto|].
  destruct (IH Hin) as (x' & Hx' & HR). eauto.
Qed.

(** A number read off a parsed value is not [NaN]. *)
Lemma prop_number (q : JSValue) (key : jsstring) (c : number) :
  from_json q = true -> prop q key = JNum c -> c <> S754_nan.
Proof.
  intros Hq. destruct q; cbn [prop]; try discriminate.
  - destruct (jsstring_eqb key (str "length")).
    + intros [= <-]. apply num_of_Z_not_nan.
    + destruct (array_index key); [|discriminate].
      destruct (nth_error s _); discriminate.
  - rewrite from_json_arr in Hq.
    destruct (jsstring_eqb key (str "length")).
    + intros [= <-]. apply num_of_Z_not_nan.
    + destruct (array_index key) as [i|]; [|discriminate].
      destruct (nth_in_or_default (Z.to_nat i) elems JUndefined) as [Hin | Hd];
        [|rewrite Hd; discriminate].
      intros Hn. rewrite Hn in Hin.
      pose proof (proj1 (forallb_forall _ _) Hq _ Hin) as Hc.
      destruct c; try discriminate.
  - rewrite from_json_obj in Hq.
    destruct (lookup props key) as [x|] eqn:Hl; [|discriminate].
    intros ->. pose proof (lookup_ok _ _ _ Hq Hl) as Hc.
    destruct c; discriminate.
Qed.

Lemma extract_from_json (generatedText v : JSValue) :
  extract generatedText = Normal v -> from_json v = true.
Proof.
  unfold extract. destruct generatedText; try discriminate.
  destruct (JSON_parse _) as [x|] eqn:Hp; [|discriminate].
  intros [= <-]. exact (JSON_parse_from_json _ _ Hp).
Qed.

(** Every record of a returned batch is built from an element of the parsed
    array that passes the checks. *)
Lemma returned_record_source (generatedText : JSValue)
  (rs : list QuestionData) (r : QuestionData) :
  validate_text generatedText = Normal rs -> In r rs ->
  exists qs q,
    extract generatedText = Normal (JArr qs) /\ In q qs
    /\ from_json q = true /\ passes q = true /\ normalize q = Normal r.
Proof.
  unfold validate_text. intros H Hin.
  destruct (extract generatedText) as [v|] eqn:Hx; [|discriminate].
  cbn [bind] in H. pose proof (extract_from_json _ _ Hx) as Hj.
  destruct v as [| | | | |qs|]; try discriminate.
  unfold validate in H.
  destruct (validate_loop qs []) as [rs'|] eqn:Hl; [|discriminate].
  cbn [bind] in H.
  assert (rs' = rs) as -> by (destruct rs'; [discriminate | now injection H]).
  clear H.
  pose proof (returned_candidates _ _ _ Hl) as Hc.
  rewrite (validate_loop_filter _ Hc) in Hl.
  destruct (traverse normalize (filter passes qs)) as [rs'|] eqn:Ht;
    [|discriminate].
  cbn in Hl. injection Hl as <-.
  destruct (Forall2_In_right _ _ _ _ (traverse_Forall2 _ _ _ Ht) Hin)
    as (q & Hq & Hn).
  apply filter_In in Hq as [Hq Hp].
  exists qs, q. repeat split; try assumption.
  rewrite from_json_arr in Hj.
  exact (proj1 (forallb_forall _ _) Hj _ Hq).
Qed.

Lemma question_valid (v : JSValue) :
  question_invalid v = false -> exists c s, v = JStr (c :: s).
Proof.
  unfold question_invalid.
  destruct v as [| |b|n|s|l|ps]; cbn; rewrite ?orb_true_r; try discriminate.
  destruct s; [discriminate | eauto].
Qed.

Lemma options_valid (v : JSValue) :
  options_invalid v = false -> exists l, v = JArr l /\ length l = 4.
Proof.
  destruct v as [| |b|n|s|l|ps]; cbn; try discriminate.
  intros H. apply negb_false_iff, Nat.eqb_eq in H. eauto.
Qed.

Lemma correct_valid (v : JSValue) :
  correct_invalid v = false ->
  exists c, v = JNum c /\ num_lt c zero = false /\ num_ge c four = false.
Proof.
  destruct v as [| |b|n|s|l|ps]; cbn [correct_invalid]; try discriminate.
  intros H. apply orb_false_elim in H. eauto.
Qed.

(** On parsed values the checks of the loop are the checks a reader of the
    JSON would state. *)
Lemma passes_accepted (q : JSValue) :
  from_json q = true -> passes q = accepted q.
Proof.
  intros Hj. unfold passes, accepted, question_invalid.
  f_equal; [f_equal|].
  - destruct (prop q (str "question")) as [| |b|n|s|l|ps]; cbn;
      rewrite ?orb_true_r; try reflexivity.
    destruct s; reflexivity.
  - destruct (prop q (str "options")) as [| |b|n|s|l|ps]; cbn;
      try reflexivity.
    now rewrite negb_involutive.
  - destruct (prop q (str "correct")) as [| |b|c|s|l|ps] eqn:Ec;
      try reflexivity.
    cbn [correct_invalid].
    pose proof (prop_number _ _ _ Hj Ec) as Hnan.
    rewrite negb_orb.
    rewrite (le_is_not_lt c zero Hnan ltac:(discriminate)).
    rewrite (lt_is_not_ge c four Hnan ltac:(discriminate)).
    reflexivity.
Qed.

End ShapeFacts.

Module ShapeClaims.

Import Gemini Spec ValidatorFacts JsonFacts NumberFacts ShapeFacts.

(** C1 (amended).  For every raw text whose extracted JSON parses to an
    array of candidate objects, the validator's result is fixed by the
    sub-sequence of elements that pass the three checks -- [question] a
    non-empty string, [options] an array of length exactly 4, [correct] a
    number in [0, 4): it is the records built from those elements, in the
    order of the source array, an element that fails a check being dropped
    without ending the batch; the batch fails with the no-valid-questions
    error when that sub-sequence is empty (and with a [TypeError] when an
    option of a passing element cannot be converted to a string). *)
Theorem C1_validator_returns_passing_elements :
  forall (generatedText : JSValue) (qs : list JSValue),
    extract generatedText = Normal (JArr qs) ->
    Forall candidate qs ->
    validate_text generatedText =
      (rs <- traverse normalize (filter accepted qs) ;;
       match rs with
       | [] => Throw no_valid_questions
       | _ => Normal rs
       end)
    /\ (forall rs,
          validate_text generatedText = Normal rs ->
          Forall2 (fun q r => normalize q = Normal r) (filter accepted qs) rs).
Proof.
  intros generatedText qs Hx Hc.
  rewrite (validate_text_array _ _ Hx), (validate_candidates _ Hc).
  pose proof (extract_from_json _ _ Hx) as Hj. rewrite from_json_arr in Hj.
  rewrite (filter_ext_in passes accepted qs)
    by (intros q Hq; apply passes_accepted;
        exact (proj1 (forallb_forall _ _) Hj q Hq)).
  split; [reflexivity|].
  intros rs.
  destruct (traverse normalize (filter accepted qs)) as [rs'|] eqn:Ht;
    cbn [bind]; [|discriminate].
  destruct rs'; [discriminate|].
  intros [= <-]. now apply traverse_Forall2.
Qed.

Lemma C1_witness :
  let raw :=
    JStr (json_text
            "noise [{'question':'','options':[1,2,3,4],'correct':0},{'question':' Q ','options':['a',2,null,'d'],'correct':3.5}]") in
  let q1 :=
    JObj [(str "question", JStr []);
          (str "options",
           JArr [JNum (num_of_Z 1); JNum (num_of_Z 2); JNum (num_of_Z 3);
                 JNum (num_of_Z 4)]);
          (str "correct", JNum (S754_zero false))] in
  let q2 :=
    JObj [(str "question", JStr (str " Q "));
          (str "options",
           JArr [JStr (str "a"); JNum (num_of_Z 2); JNull; JStr (str "d")]);
          (str "correct", JNum (num_of_decimal false 35 (-1)))] in
  extract raw = Normal (JArr [q1; q2])
  /\ Forall candidate [q1; q2]
  /\ validate_text raw =
       Normal [ {| question := JStr (str "Q");
                   options := JArr [JStr (str "a"); JStr (str "2");
                                    JStr (str "null"); JStr (str "d")];
                   correct := JNum (num_of_decimal false 35 (-1));
                   explanation := JStr [];
                   subject := JStr [] |} ].
Proof.
  intros raw q1 q2.
  assert (Hx : extract raw = Normal (JArr [q1; q2])) by (vm_compute; reflexivity).
  assert (Hc : Forall candidate [q1; q2]) by (repeat constructor).
  split; [exact Hx|]. split; [exact Hc|].
  rewrite (proj1 (C1_validator_returns_passing_elements raw [q1; q2] Hx Hc)).
  vm_compute. reflexivity.
Defined.

(** C1 as stated fails: an element whose [question] is the empty string
    passes the three checks as the claim words them (present and a string;
    four options; [correct] in [0, 4)), and the validator drops it. *)
Lemma C1_counterexample :
  exists q1 q2 r2,
    extract
      (JStr (json_text
               "[{'question':'','options':['a','b','c','d'],'correct':0},{'question':'Q','options':['a','b','c','d'],'correct':1}]"))
      = Normal (JArr [q1; q2])
    /\ claimed_pass q1 = true
    /\ claimed_pass q2 = true
    /\ validate_text
         (JStr (json_text
                  "[{'question':'','options':['a','b','c','d'],'correct':0},{'question':'Q','options':['a','b','c','d'],'correct':1}]"))
       = Normal [r2]
    /\ normalize q2 = Normal r2.
Proof.
  eexists _, _, _.
  split; [vm_compute; reflexivity|].
  split; [vm_compute; reflexivity|].
  split; [vm_compute; reflexivity|].
  split; vm_compute; reflexivity.
Qed.




End ShapeClaims.

(** ** [POST /api/generate]: the status of a failure *)

Module GenerateClaims.

Import Gemini Generate Spec.

Lemma default_count_given (v : JSValue) :
  default_count (default v (JNum (num_of_Z 5)))
  = default v (JNum (num_of_Z 5)).
Proof. destruct v; reflexivity. Qed.

Lemma String_converts (v : JSValue) :
  ToString v <> None -> exists s, String_ v = Normal s.
Proof.
  unfold String_. destruct (ToString v) as [s|]; [eauto|].
  intros H. now elim H.
Qed.

Lemma String_of_string (v : JSValue) :
  typeof v = TyString -> exists s, String_ v = Normal s.
Proof. destruct v; try discriminate. intros _. cbn. eauto. Qed.

Lemma http_failure (key : option jsstring) (st : N) (txt : jsstring)
  (json : Completion JSValue) (prompt count : JSValue) :
  env_unset key = false ->
  ToString (default_count count) <> None -> typeof prompt = TyString ->
  ok st = false ->
  generateQuestionsWithGemini key (Responded st txt json) prompt count
  = Throw (status_error st txt).
Proof.
  intros Hk Hc Hp Hok. unfold generateQuestionsWithGemini.
  destruct (String_converts _ Hc) as [c ->].
  destruct (String_of_string _ Hp) as [t ->].
  cbn [bind]. now rewrite Hk, Hok.
Qed.

Lemma network_failure (key : option jsstring) (err : JSError)
  (prompt count : JSValue) :
  env_unset key = false ->
  ToString (default_count count) <> None -> typeof prompt = TyString ->
  generateQuestionsWithGemini key (Rejected err) prompt count = Throw err.
Proof.
  intros Hk Hc Hp. unfold generateQuestionsWithGemini.
  destruct (String_converts _ Hc) as [c ->].
  destruct (String_of_string _ Hp) as [t ->].
  cbn [bind]. now rewrite Hk.
Qed.

Lemma conversion_failure (key : option jsstring) (o : FetchOutcome)
  (prompt count : JSValue) :
  env_unset key = false ->
  ToString (default_count count) = None ->
  generateQuestionsWithGemini key o prompt count = Throw cannot_convert.
Proof.
  intros Hk Hc. unfold generateQuestionsWithGemini, String_.
  now rewrite Hk, Hc.
Qed.

Lemma error_response_status (e : JSError) :
  status (error_response e) = status_of_message (message e).
Proof.
  unfold error_response, status_of_message.
  destruct (includes _ _); [reflexivity|].
  destruct (_ || _); [reflexivity|].
  destruct (_ || _); reflexivity.
Qed.

Lemma unavailable_status (st : N) (txt : jsstring) :
  (500 <= st)%N -> status (error_response (status_error st txt)) = 500%N.
Proof.
  intros H. unfold status_error.
  replace (st =? 401)%N with false by (symmetry; apply N.eqb_neq; lia).
  replace (st =? 429)%N with false by (symmetry; apply N.eqb_neq; lia).
  replace (500 <=? st)%N with true by (symmetry; apply N.leb_le; lia).
  vm_compute. reflexivity.
Qed.

(** C6 (amended).  When the AI client fails during [POST /api/generate],
    the store is left as it was and the status is chosen by the message of
    the failure alone: 401 when it contains "API key", else 429 when it
    contains "quota" or "limit", else 503 when it contains "network" or
    "fetch", else 500.  A [count] that cannot be converted to a string fails
    with a [TypeError] before the service is asked, which gives 500.
    Otherwise an invalid credential (upstream 401) gives 401, an exhausted
    quota (upstream 429) gives 429, and an unavailable upstream
    (status >= 500) gives 500, as do the validator's own failures; a
    rejected [fetch] is answered by the message it carries. *)
Theorem C6_status_of_client_failure :
  forall (w : World) (db : Store.Db) (req : Request) (e : JSError),
    let count :=
      default (prop (req_body req) (str "count")) (JNum (num_of_Z 5)) in
    method req = str "POST" ->
    is_nullish (req_body req) = false ->
    truthy (prop (req_body req) (str "prompt")) = true ->
    typeof (prop (req_body req) (str "prompt")) = TyString ->
    env_unset (GEMINI_API_KEY w) = false ->
    generateQuestionsWithGemini (GEMINI_API_KEY w) (outcome w)
      (prop (req_body req) (str "prompt")) count
    = Throw e ->
    handler w db req = (db, error_response e)
    /\ status (error_response e) = status_of_message (message e)
    /\ (ToString count = None ->
        e = cannot_convert /\ status (error_response e) = 500%N)
    /\ (ToString count <> None ->
        (forall st txt json,
            outcome w = Responded st txt json -> ok st = false ->
            e = status_error st txt
            /\ (st = 401%N -> status (error_response e) = 401%N)
            /\ (st = 429%N -> status (error_response e) = 429%N)
            /\ ((500 <= st)%N -> status (error_response e) = 500%N))
        /\ (forall err, outcome w = Rejected err -> e = err))
    /\ (e = no_response \/ e = parse_failed \/ e = not_an_array
        \/ e = no_valid_questions ->
        status (error_response e) = 500%N).
Proof.
  intros w db req e count Hm Hb Hp Ht Hk Hg.
  pose proof (default_count_given (prop (req_body req) (str "count"))) as Hd.
  fold count in Hd.
  split; [|split; [apply error_response_status|split; [|split]]].
  - unfold handler, attempt. rewrite Hm.
    replace (jsstring_eqb (str "POST") (str "POST")) with true by reflexivity.
    cbn [negb]. rewrite Hb, Hp, Ht, Hk. cbn [negb orb JSType_eqb].
    fold count. unfold String_ at 1.
    destruct (ToString count) as [c|] eqn:Hc; cbn [bind].
    + rewrite Hg. reflexivity.
    + rewrite conversion_failure in Hg by (rewrite ?Hd; assumption).
      now injection Hg as <-.
  - intros Hc.
    rewrite conversion_failure in Hg by (rewrite ?Hd; assumption).
    injection Hg as <-. split; reflexivity.
  - intros Hc. rewrite <- Hd in Hc. split.
    + intros st txt json Ho Hok. rewrite Ho in Hg.
      rewrite (http_failure _ _ _ _ _ _ Hk Hc Ht Hok) in Hg.
      injection Hg as <-.
      split; [reflexivity|]. split; [|split].
      * intros ->. vm_compute. reflexivity.
      * intros ->. vm_compute. reflexivity.
      * apply unavailable_status.
    + intros err Ho. rewrite Ho in Hg.
      rewrite (network_failure _ _ _ _ Hk Hc Ht) in Hg. now injection Hg.
  - intros [-> | [-> | [-> | ->]]]; vm_compute; reflexivity.
Qed.

Lemma C6_witness :
  let w := {| GEMINI_API_KEY := Some (str "k");
              outcome := Responded 429 (str "Too Many Requests") (Normal JNull);
              now := 0;
              insert_fails := fun _ => false |} in
  let db := Store.mkDb [] [] [] [] [] 0 in
  let req := {| method := str "POST";
                req_body := JObj [(str "prompt", JStr (str "renal"))] |} in
  let odd := {| method := str "POST";
                req_body :=
                  JObj [(str "prompt", JStr (str "renal"));
                        (str "count",
                         JObj [(str "toString", JNum (num_of_Z 1))])] |} in
  ok 429 = false
  /\ handler w db req
     = (db, mkResponse 429
              (Failure (str "API quota exceeded. Please try again later.")))
  /\ handler w db odd
     = (db, mkResponse 500
              (Failure (str "Internal server error. Please try again later."))).
Proof.
  intros w db req odd. split; [reflexivity|]. split.
  - exact (proj1 (C6_status_of_client_failure w db req
                    (status_error 429 (str "Too Many Requests"))
                    eq_refl eq_refl eq_refl eq_refl eq_refl eq_refl)).
  - exact (proj1 (C6_status_of_client_failure w db odd cannot_convert
                    eq_refl eq_refl eq_refl eq_refl eq_refl eq_refl)).
Defined.

(** C6 as stated fails: an upstream answer with status 503 is an
    upstream-unavailable failure, for which the claim promises 503, and the
    handler answers 500. *)
Lemma C6_counterexample :
  failure_kind 503 = UpstreamUnavailable
  /\ claimed_status (failure_kind 503) = 503%N
  /\ status
       (snd (handler
               {| GEMINI_API_KEY := Some (str "k");
                  outcome := Responded 503 (str "Service Unavailable")
                               (Normal JNull);
                  now := 0;
                  insert_fails := fun _ => false |}
               (Store.mkDb [] [] [] [] [] 0)
               {| method := str "POST";
                  req_body := JObj [(str "prompt", JStr (str "renal"))] |}))
     = 500%N.
Proof. repeat split; vm_compute; reflexivity. Qed.

End GenerateClaims.

(** ** [/api/questions] *)

Module QuestionsFacts.

Import Questions Spec.

(** The listing reads the three step collections and nothing else. *)
Lemma listing_steps_only (w : World) (db db' : Store.Db) (q : Query) :
  Store.step1 db' = Store.step1 db ->
  Store.step2 db' = Store.step2 db ->
  Store.step3 db' = Store.step3 db ->
  listing w db' q = listing w db q.
Proof.
  intros H1 H2 H3.
  assert (Hc : forall name,
             Store.step_collection db' name = Store.step_collection db name).
  { intros name. unfold Store.step_collection. now rewrite H1, H2, H3. }
  unfold listing, find_step.
  destruct (q_step q) as [[|c step]|].
  - cbn [flat_map per_step]. now rewrite !Hc.
  - now rewrite Hc.
  - cbn [flat_map per_step]. now rewrite !Hc.
Qed.

(** [handlePost] leaves the step collections alone. *)
Lemma handlePost_steps (w : World) (db db' : Store.Db) (b : JSValue)
  (resp : Response Body) :
  handlePost w db b = Normal (db', resp) ->
  Store.step1 db' = Store.step1 db
  /\ Store.step2 db' = Store.step2 db
  /\ Store.step3 db' = Store.step3 db.
Proof.
  unfold handlePost, Get. destruct (is_nullish b); [discriminate|].
  cbn [bind].
  destruct (is_string _ _).
  - destruct (prop b (str "score")); try (intros [= <- _]; auto).
    destruct (prop b (str "total")); intros [= <- _]; auto.
  - destruct (prop b (str "correct")); try (intros [= <- _]; auto).
    destruct (_ || _); [intros [= <- _]; auto|].
    destruct (parse_options _); [|intros [= <- _]; auto].
    destruct (_ || _); intros [= <- _]; auto.
Qed.

Lemma map_ids_well_formed (ids : list JSValue) :
  forallb well_formed_id ids = true ->
  map_ids ids = Normal (map (fun v => Store.Spelled (spelled v)) ids).
Proof.
  induction ids as [|v ids IH]; cbn [forallb map_ids map]; [reflexivity|].
  intros H. apply andb_prop in H as [Hv Hids].
  rewrite (IH Hids).
  destruct v; try discriminate Hv.
  cbn [well_formed_id] in Hv. cbn [Store.new_ObjectId].
  unfold Store.id_of_string. rewrite Hv. reflexivity.
Qed.

Lemma matches_requested (ids : list JSValue) (id : Store.ObjectId) :
  Store.matches (map (fun v => Store.Spelled (spelled v)) ids) id
  = requested ids id.
Proof.
  unfold Store.matches, requested.
  induction ids as [|v ids IH]; cbn; [reflexivity|]. now rewrite IH.
Qed.

Lemma filter_all {A} (f : A -> bool) (l : list A) :
  (forall x, In x l -> f x = true) -> filter f l = l.
Proof.
  induction l as [|x l IH]; cbn; [reflexivity|].
  intros H. rewrite (H x (or_introl eq_refl)). f_equal. auto.
Qed.

Lemma filter_none {A} (f : A -> bool) (l : list A) :
  (forall x, In x l -> f x = false) -> filter f l = [].
Proof.
  induction l as [|x l IH]; cbn; [reflexivity|].
  intros H. rewrite (H x (or_introl eq_refl)). auto.
Qed.

End QuestionsFacts.

Module QuestionsClaims.

Import Questions Spec QuestionsFacts.

(** C5.  A question created through [POST /api/questions] is not read
    back by the listing.  On a store whose [step1] collection holds one
    question, the creation is answered 201 and the question is stored in
    the [questions] collection; the step-agnostic listing that follows, and
    the request [limit=10&recent=true] with which the admin page fetches the
    questions just generated, both show the step question alone, whatever
    order the shuffle leaves.  [handleGet] takes [recent] from the query and
    never uses it, and reads the [questions] collection for the statistics
    only. *)
Theorem C5_created_question_is_not_read_back :
  let s1 := Store.mkStepDoc 0%N (JStr (str "S")) (Some (str "x"))
              (Some (str "y")) None None None JUndefined JUndefined
              JUndefined JUndefined 1 in
  let db := Store.mkDb [s1] [] [] [] [] 1 in
  let b := JObj [(str "question", JStr (str "Q"));
                 (str "options", JArr [JStr (str "a"); JStr (str "b")]);
                 (str "correct", JNum (S754_zero false))] in
  let doc := {| Store._id := 1%N;
                Store.question := JStr (str "Q");
                Store.options := JStr (json_text "['a','b']");
                Store.correct := JNum (S754_zero false);
                Store.explanation := JStr [];
                Store.subject := JStr [];
                Store.difficulty := JStr (str "Medium");
                Store.createdAt := 0 |} in
  let db' := Store.mkDb [s1] [] [] [doc] [] 2 in
  handler {| now := 0; shuffle := fun l => l |} db
    (mkRequest (str "POST") (mkQuery None None None None) b)
  = (db', mkResponse 201 (CreatedQuestion doc))
  /\ (forall w,
        (forall l, Permutation (shuffle w l) l) ->
        handler w db'
          (mkRequest (str "GET") (mkQuery None None None None) JUndefined)
        = (db', mkResponse 200 (Listing [transform (str "1") s1]))
        /\ handler w db'
             (mkRequest (str "GET")
                (mkQuery None (Some 10%N) (Some (str "true")) None) JUndefined)
           = (db', mkResponse 200 (Listing [transform (str "1") s1]))).
Proof.
  intros s1 db b doc db'. split; [vm_compute; reflexivity|].
  intros w Hperm.
  assert (Hone : forall x : Listed, shuffle w [x] = [x]).
  { intros x. apply Permutation_length_1_inv, Permutation_sym, Hperm. }
  unfold handler. cbn [method query].
  change (jsstring_eqb (str "GET") (str "GET")) with true. cbv iota.
  unfold handleGet, is_type, listing. cbn [q_type q_step q_limit].
  split.
  - match goal with
    | |- context [shuffle w ?l] =>
        replace l with [transform (str "1") s1] by (vm_compute; reflexivity)
    end.
    now rewrite Hone.
  - match goal with
    | |- context [shuffle w ?l] =>
        replace l with [transform (str "1") s1] by (vm_compute; reflexivity)
    end.
    now rewrite Hone.
Qed.

(** C7 (amended).  [POST /api/questions] with a body that is not a score
    answers 400 exactly when the question or the options are missing (or
    empty), [correct] is not a number, the options are not a JSON array of
    at least 2 items, or [correct] lies outside [0, length(options));
    no record is created then.  Otherwise it creates the Question record,
    with the fields of the body, and answers 201. *)
Theorem C7_question_body_refusal :
  forall (w : World) (db : Store.Db) (b : JSValue),
    is_nullish b = false ->
    is_string (prop b (str "type")) "score" = false ->
    exists db' resp,
      handlePost w db b = Normal (db', resp)
      /\ (refused b = true -> status resp = 400%N /\ db' = db)
      /\ (refused b = false ->
          status resp = 201%N
          /\ exists doc,
               body resp = CreatedQuestion doc
               /\ Store.questions db' = Store.questions db ++ [doc]
               /\ Store.scores db' = Store.scores db
               /\ Store.question doc = prop b (str "question")
               /\ Store.options doc =
                    (if JSType_eqb (typeof (prop b (str "options"))) TyString
                     then prop b (str "options")
                     else JSON_stringify (prop b (str "options")))
               /\ Store.correct doc = prop b (str "correct")
               /\ Store.subject doc = js_or (prop b (str "subject")) (JStr [])
               /\ Store.difficulty doc =
                    js_or (prop b (str "difficulty")) (JStr (str "Medium"))).
Proof.
  intros w db b Hb Ht.
  unfold handlePost, Get. rewrite Hb. cbn [bind]. rewrite Ht.
  unfold refused, claimed_refusal.
  destruct (prop b (str "correct")) as [| |x|c|x|x|x] eqn:Ec;
    try (eexists _, _; split; [reflexivity|];
         cbn; rewrite ?orb_true_r; split; [auto | discriminate]).
  cbn [typeof JSType_eqb negb]. rewrite orb_false_r.
  destruct (negb (truthy (prop b (str "question")))
            || negb (truthy (prop b (str "options")))) eqn:Hreq.
  - eexists _, _. split; [reflexivity|]. cbn. split; [auto | discriminate].
  - cbn [orb].
    destruct (parse_options (prop b (str "options"))) as [l|].
    + destruct (num_lt c Gemini.zero || num_ge c (num_of_nat (length l))).
      * eexists _, _. split; [reflexivity|]. cbn. split; [auto | discriminate].
      * eexists _, _. split; [reflexivity|]. cbn.
        split; [discriminate|]. intros _. split; [reflexivity|].
        eexists. repeat split.
    + eexists _, _. split; [reflexivity|]. cbn. split; [auto | discriminate].
Qed.

Lemma C7_witness :
  let w := {| now := 0; shuffle := fun l => l |} in
  let db := Store.mkDb [] [] [] [] [] 0 in
  let ok_body := JObj [(str "question", JStr (str "Q"));
                       (str "options", JStr (json_text "['a','b']"));
                       (str "correct", JNum (num_of_Z 1))] in
  let bad_body := JObj [(str "question", JStr (str "Q"));
                        (str "options", JStr (json_text "['a','b']"));
                        (str "correct", JNum (num_of_Z 2))] in
  (exists db' resp,
      handlePost w db ok_body = Normal (db', resp) /\ status resp = 201%N)
  /\ (exists resp,
        handlePost w db bad_body = Normal (db, resp) /\ status resp = 400%N).
Proof.
  intros w db ok_body bad_body. split.
  - destruct (C7_question_body_refusal w db ok_body eq_refl eq_refl)
      as (db' & resp & H & _ & Hok).
    exists db', resp. split; [exact H|].
    apply Hok. vm_compute. reflexivity.
  - destruct (C7_question_body_refusal w db bad_body eq_refl eq_refl)
      as (db' & resp & H & Hbad & _).
    destruct Hbad as [Hs Hdb]; [vm_compute; reflexivity|].
    exists resp. rewrite <- Hdb at 2. auto.
Defined.

(** C7 as stated fails: a body whose [question] is the empty string is
    answered 400 although its options are a JSON array of 2 items and its
    [correct] index 0 lies in range. *)
Lemma C7_counterexample :
  let b := JObj [(str "question", JStr []);
                 (str "options", JArr [JStr (str "a"); JStr (str "b")]);
                 (str "correct", JNum (S754_zero false))] in
  let w := {| now := 0; shuffle := fun l => l |} in
  let db := Store.mkDb [] [] [] [] [] 0 in
  claimed_refusal b = false
  /\ handlePost w db b
     = Normal (db, error 400
                     (str "Question, options, and correct answer index are required"))
  /\ status (snd (handler w db
                    {| method := str "POST";
                       query := mkQuery None None None None;
                       req_body := b |})) = 400%N.
Proof. intros b w db. repeat split; vm_compute; reflexivity. Qed.

(** C8 (amended).  For a body that is an object, [DELETE /api/questions]
    answers 400 exactly when [ids] is missing, not an array, or empty.  For
    every non-empty [ids] array of well-formed identifiers (24 hex digits
    each) it answers 200 with the number of stored questions whose identifier
    is among [ids], and removes exactly those: an identifier that is not in
    the store adds nothing to the count, and when none is present the count
    is 0 and the store is unchanged. *)
Theorem C8_delete_by_identifiers :
  forall (db : Store.Db) (b : JSValue),
    is_nullish b = false ->
    (forall ids,
        prop b (str "ids") = JArr ids -> ids <> [] ->
        forallb well_formed_id ids = true ->
        exists db',
          handleDelete db b
          = Normal (db',
                    mkResponse 200
                      (Json (JObj
                         [(str "message",
                           JStr (str "Deleted "
                                 ++ Number_toString
                                      (num_of_nat
                                         (length
                                            (filter
                                               (fun d => requested ids (Store._id d))
                                               (Store.questions db))))
                                 ++ str " questions"));
                          (str "count",
                           count (length
                                    (filter
                                       (fun d => requested ids (Store._id d))
                                       (Store.questions db))))])))
          /\ Store.questions db'
             = filter (fun d => negb (requested ids (Store._id d)))
                 (Store.questions db)
          /\ ((forall d, In d (Store.questions db) ->
                         requested ids (Store._id d) = false) ->
              length (filter (fun d => requested ids (Store._id d))
                        (Store.questions db)) = 0
              /\ db' = db))
    /\ ((forall ids, prop b (str "ids") = JArr ids -> ids = []) ->
        handleDelete db b
        = Normal (db, error 400 (str "Array of question IDs is required")))
    /\ (forall db' resp,
          handleDelete db b = Normal (db', resp) -> status resp = 400%N ->
          forall ids, prop b (str "ids") = JArr ids -> ids = []).
Proof.
  intros db b Hb. unfold handleDelete. rewrite Hb.
  split; [|split].
  - intros ids Hids Hne Hwf. rewrite Hids.
    destruct ids as [|v ids]; [now elim Hne|].
    rewrite (map_ids_well_formed _ Hwf). cbn [bind].
    unfold Store.delete_questions.
    rewrite (filter_ext _ _ (fun d => matches_requested (v :: ids) (Store._id d))).
    rewrite (filter_ext
               (fun d => negb (Store.matches _ (Store._id d)))
               (fun d => negb (requested (v :: ids) (Store._id d))))
      by (intros d; now rewrite matches_requested).
    eexists. split; [reflexivity|]. cbn [Store.questions].
    split; [reflexivity|].
    intros Hnone. split.
    + now rewrite (filter_none _ _ Hnone).
    + rewrite filter_all; [now destruct db|].
      intros d Hd. now rewrite (Hnone d Hd).
  - intros Hnone.
    destruct (prop b (str "ids")) as [| |x|x|x|ids|x]; try reflexivity.
    now rewrite (Hnone ids eq_refl).
  - intros db' resp H Hs ids Hids. rewrite Hids in H.
    destruct ids as [|v ids]; [reflexivity|].
    destruct (map_ids (v :: ids)); cbn [bind] in H; [|discriminate].
    unfold Store.delete_questions in H. injection H as <- <-.
    discriminate Hs.
Qed.

Lemma C8_witness :
  let stored := {| Store._id := 2748%N;
                   Store.question := JStr (str "Q");
                   Store.options := JStr (json_text "['a','b']");
                   Store.correct := JNum (S754_zero false);
                   Store.explanation := JStr [];
                   Store.subject := JStr [];
                   Store.difficulty := JStr (str "Medium");
                   Store.createdAt := 0 |} in
  let db := Store.mkDb [] [] [] [stored] [] 3000 in
  let b := JObj [(str "ids", JArr [JStr (str "000000000000000000000001")])] in
  handleDelete db b
  = Normal (db, mkResponse 200
                  (Json (JObj [(str "message", JStr (str "Deleted 0 questions"));
                               (str "count", count 0)]))).
Proof.
  intros stored db b.
  destruct (proj1 (C8_delete_by_identifiers db b eq_refl)
              [JStr (str "000000000000000000000001")]
              eq_refl ltac:(discriminate) eq_refl)
    as (db' & H & _ & Hnone).
  destruct Hnone as [_ ->].
  - intros d [<- | []]. vm_compute. reflexivity.
  - exact H.
Defined.

(** C8 as stated fails: for the non-empty array [["abc"]], whose identifier
    is in no store, [new ObjectId] raises and the request ends in the 500 of
    the handler, not in a success with [count = 0]. *)
Lemma C8_counterexample :
  exists details,
    handler {| now := 0; shuffle := fun l => l |}
      (Store.mkDb [] [] [] [] [] 0)
      {| method := str "DELETE";
         query := mkQuery None None None None;
         req_body := JObj [(str "ids", JArr [JStr (str "abc")])] |}
    = (Store.mkDb [] [] [] [] [] 0,
       mkResponse 500
         (Json (JObj [(str "error", JStr (str "Internal server error"));
                      (str "details", details)]))).
Proof. eexists. vm_compute. reflexivity. Qed.

(** C9 (amended).  [POST /api/questions] with type "score" and numbers for
    [score] and [total] creates one Score record holding both as given -- it
    checks no order between them -- and answers 201; the percentage is the
    one of the request when that is truthy and [score / total * 100]
    otherwise, so it is computed when omitted: [score = 7, total = 10]
    yields 70. *)
Theorem C9_score_record :
  forall (w : World) (db : Store.Db) (b : JSValue) (s t : number),
    is_string (prop b (str "type")) "score" = true ->
    prop b (str "score") = JNum s ->
    prop b (str "total") = JNum t ->
    exists db' doc,
      handlePost w db b = Normal (db', mkResponse 201 (CreatedScore doc))
      /\ Store.scores db' = Store.scores db ++ [doc]
      /\ Store.questions db' = Store.questions db
      /\ Store.score doc = JNum s
      /\ Store.total doc = JNum t
      /\ Store.percentage doc
         = js_or (prop b (str "percentage"))
             (JNum (num_mul (num_div s t) hundred))
      /\ (prop b (str "percentage") = JUndefined ->
          Store.percentage doc = JNum (num_mul (num_div s t) hundred))
      /\ num_mul (num_div (num_of_Z 7) (num_of_Z 10)) hundred = num_of_Z 70.
Proof.
  intros w db b s t Ht Hs Htot.
  assert (Hb : is_nullish b = false).
  { destruct b; try reflexivity; discriminate Hs. }
  unfold handlePost, Get. rewrite Hb. cbn [bind]. rewrite Ht, Hs, Htot.
  eexists _, _. split; [reflexivity|]. cbn.
  repeat split.
  intros ->. reflexivity.
Qed.

Lemma C9_witness :
  let w := {| now := 0; shuffle := fun l => l |} in
  let db := Store.mkDb [] [] [] [] [] 0 in
  let b := JObj [(str "type", JStr (str "score"));
                 (str "score", JNum (num_of_Z 7));
                 (str "total", JNum (num_of_Z 10))] in
  exists db' doc,
    handlePost w db b = Normal (db', mkResponse 201 (CreatedScore doc))
    /\ Store.percentage doc = JNum (num_of_Z 70).
Proof.
  intros w db b.
  destruct (C9_score_record w db b (num_of_Z 7) (num_of_Z 10)
              eq_refl eq_refl eq_refl)
    as (db' & doc & H & _ & _ & _ & _ & _ & Hp & H70).
  exists db', doc. split; [exact H|].
  rewrite (Hp eq_refl), H70. reflexivity.
Defined.

(** C9 as stated fails: a request with [score = 11] and [total = 10] is
    accepted, and the record created breaks [0 <= score <= total]; so does
    one with [score = -1]. *)
Lemma C9_counterexample :
  exists db1 doc1 db2 doc2,
    handlePost {| now := 0; shuffle := fun l => l |}
      (Store.mkDb [] [] [] [] [] 0)
      (JObj [(str "type", JStr (str "score"));
             (str "score", JNum (num_of_Z 11));
             (str "total", JNum (num_of_Z 10))])
    = Normal (db1, mkResponse 201 (CreatedScore doc1))
    /\ Store.scores db1 = [doc1]
    /\ score_invariant doc1 = false
    /\ handlePost {| now := 0; shuffle := fun l => l |}
         (Store.mkDb [] [] [] [] [] 0)
         (JObj [(str "type", JStr (str "score"));
                (str "score", JNum (num_of_Z (-1)));
                (str "total", JNum (num_of_Z 10))])
       = Normal (db2, mkResponse 201 (CreatedScore doc2))
    /\ score_invariant doc2 = false.
Proof.
  eexists _, _, _, _.
  split; [vm_compute; reflexivity|].
  split; [reflexivity|].
  split; [vm_compute; reflexivity|].
  split; vm_compute; reflexivity.
Qed.

End QuestionsClaims.

(* ================================================================== *)
(** * Further properties of the code                                    *)
(* ================================================================== *)

(** ** Strings through [JSON.stringify] and [JSON.parse] *)

Module TextFacts.

Lemma hex_char_value (d : N) : (d < 16)%N -> hex_value (hex_char d) = Some d.
Proof.
  intros H. destruct d as [|p]; [reflexivity|].
  do 4 (destruct p as [p|p|]; try reflexivity; try (exfalso; lia)).
Qed.

Lemma lex_silent (st st' : lex_state) (c : jschar) (s : jsstring) :
  lex_step st c = Some (st', []) -> lex_from st (c :: s) = lex_from st' s.
Proof.
  intros H. cbn [lex_from]. rewrite H. now destruct (lex_from st' s).
Qed.

Lemma four_hex_digits (c : N) :
  (c < 65536)%N ->
  (c / 4096 < 16
   /\ c / 4096 * 4096 + (c / 256) mod 16 * 256 + (c / 16) mod 16 * 16
      + c mod 16 = c)%N.
Proof.
  intros H. split.
  - apply N.Div0.div_lt_upper_bound. lia.
  - zify. Z.to_euclidean_division_equations. lia.
Qed.

(** An escape [\uXXXX] is read back as the code unit it spells. *)
Lemma lex_unicode_escape (c : jschar) (acc rest : jsstring) :
  (c < 65536)%N ->
  lex_from (LStr acc) (unicode_escape c ++ rest) = lex_from (LStr (c :: acc)) rest.
Proof.
  intros H. destruct (four_hex_digits c H) as [Hhi Hsum].
  unfold unicode_escape. cbn [app].
  rewrite (lex_silent (LStr acc) (LEsc acc)) by reflexivity.
  rewrite (lex_silent (LEsc acc) (LHex acc [])) by reflexivity.
  rewrite (lex_silent (LHex acc []) (LHex acc [(c / 4096)%N]))
    by (cbn [lex_step]; now rewrite (hex_char_value _ Hhi)).
  rewrite (lex_silent _ (LHex acc [(c / 4096)%N; ((c / 256) mod 16)%N]))
    by (cbn [lex_step]; rewrite hex_char_value;
        [reflexivity | now apply N.mod_lt]).
  rewrite (lex_silent _ (LHex acc [(c / 4096)%N; ((c / 256) mod 16)%N;
                                   ((c / 16) mod 16)%N]))
    by (cbn [lex_step]; rewrite hex_char_value;
        [reflexivity | now apply N.mod_lt]).
  rewrite (lex_silent _ (LStr (c :: acc))); [reflexivity|].
  cbn [lex_step]. rewrite hex_char_value by now apply N.mod_lt.
  now rewrite Hsum.
Qed.

Lemma lex_plain (c : jschar) (acc rest : jsstring) :
  (c =? 34)%N = false -> (c =? 92)%N = false -> (c <? 32)%N = false ->
  lex_from (LStr acc) (c :: rest) = lex_from (LStr (c :: acc)) rest.
Proof.
  intros H1 H2 H3. apply lex_silent. cbn [lex_step]. now rewrite H1, H2, H3.
Qed.

Lemma high_surrogate_range (c : jschar) :
  is_high_surrogate c = true -> (55296 <= c <= 56319)%N.
Proof.
  unfold is_high_surrogate. intros H. apply andb_prop in H as [H1 H2].
  apply N.leb_le in H1, H2. lia.
Qed.

Lemma low_surrogate_range (c : jschar) :
  is_low_surrogate c = true -> (56320 <= c <= 57343)%N.
Proof.
  unfold is_low_surrogate. intros H. apply andb_prop in H as [H1 H2].
  apply N.leb_le in H1, H2. lia.
Qed.

Lemma lex_plain_range (c : jschar) (acc rest : jsstring) :
  (93 <= c)%N ->
  lex_from (LStr acc) (c :: rest) = lex_from (LStr (c :: acc)) rest.
Proof.
  intros H. apply lex_plain.
  - apply N.eqb_neq. lia.
  - apply N.eqb_neq. lia.
  - apply N.ltb_ge. lia.
Qed.

(** The lexer reads the body of a quoted string back, whatever code units
    it holds. *)
Lemma lex_quote_body (n : nat) :
  forall s, (length s <= n)%nat ->
  forall acc rest,
    lex_from (LStr acc) (quote_body s ++ rest)
    = lex_from (LStr (rev s ++ acc)) rest.
Proof.
  induction n as [|n IH]; intros s Hlen acc rest.
  - destruct s; [reflexivity | cbn in Hlen; lia].
  - destruct s as [|c r]; [reflexivity|].
    assert (Hr : (length r <= n)%nat) by (cbn in Hlen; lia).
    assert (Hrev : forall x, rev r ++ x :: acc = rev (x :: r) ++ acc)
      by (intros x; cbn [rev]; now rewrite <- app_assoc).
    cbn [quote_body].
    destruct (c =? 8)%N eqn:E8.
    { apply N.eqb_eq in E8. subst c.
      change (str "\b") with [92%N; 98%N]. cbn [app].
      rewrite (lex_silent (LStr acc) (LEsc acc)) by reflexivity.
      rewrite (lex_silent (LEsc acc) (LStr (8%N :: acc))) by reflexivity.
      rewrite (IH r Hr). now rewrite Hrev. }
    destruct (c =? 9)%N eqn:E9.
    { apply N.eqb_eq in E9. subst c.
      change (str "\t") with [92%N; 116%N]. cbn [app].
      rewrite (lex_silent (LStr acc) (LEsc acc)) by reflexivity.
      rewrite (lex_silent (LEsc acc) (LStr (9%N :: acc))) by reflexivity.
      rewrite (IH r Hr). now rewrite Hrev. }
    destruct (c =? 10)%N eqn:E10.
    { apply N.eqb_eq in E10. subst c.
      change (str "\n") with [92%N; 110%N]. cbn [app].
      rewrite (lex_silent (LStr acc) (LEsc acc)) by reflexivity.
      rewrite (lex_silent (LEsc acc) (LStr (10%N :: acc))) by reflexivity.
      rewrite (IH r Hr). now rewrite Hrev. }
    destruct (c =? 12)%N eqn:E12.
    { apply N.eqb_eq in E12. subst c.
      change (str "\f") with [92%N; 102%N]. cbn [app].
      rewrite (lex_silent (LStr acc) (LEsc acc)) by reflexivity.
      rewrite (lex_silent (LEsc acc) (LStr (12%N :: acc))) by reflexivity.
      rewrite (IH r Hr). now rewrite Hrev. }
    destruct (c =? 13)%N eqn:E13.
    { apply N.eqb_eq in E13. subst c.
      change (str "\r") with [92%N; 114%N]. cbn [app].
      rewrite (lex_silent (LStr acc) (LEsc acc)) by reflexivity.
      rewrite (lex_silent (LEsc acc) (LStr (13%N :: acc))) by reflexivity.
      rewrite (IH r Hr). now rewrite Hrev. }
    destruct (c =? 34)%N eqn:E34.
    { apply N.eqb_eq in E34. subst c.
      change (ch "\") with 92%N. cbn [app].
      rewrite (lex_silent (LStr acc) (LEsc acc)) by reflexivity.
      rewrite (lex_silent (LEsc acc) (LStr (34%N :: acc))) by reflexivity.
      rewrite (IH r Hr). now rewrite Hrev. }
    destruct (c =? 92)%N eqn:E92.
    { apply N.eqb_eq in E92. subst c.
      change (ch "\") with 92%N. cbn [app].
      rewrite (lex_silent (LStr acc) (LEsc acc)) by reflexivity.
      rewrite (lex_silent (LEsc acc) (LStr (92%N :: acc))) by reflexivity.
      rewrite (IH r Hr). now rewrite Hrev. }
    destruct (c <? 32)%N eqn:E32.
    { apply N.ltb_lt in E32. rewrite <- app_assoc.
      rewrite lex_unicode_escape by lia.
      rewrite (IH r Hr). now rewrite Hrev. }
    destruct (is_high_surrogate c) eqn:Ehi.
    { pose proof (high_surrogate_range c Ehi) as Hc.
      destruct r as [|d r'].
      - rewrite lex_unicode_escape by lia. reflexivity.
      - destruct (is_low_surrogate d) eqn:Elo.
        + pose proof (low_surrogate_range d Elo) as Hd.
          cbn [app].
          rewrite (lex_plain_range c) by lia.
          rewrite (lex_plain_range d) by lia.
          rewrite (IH r') by (cbn in Hr; lia).
          cbn [rev]. now rewrite <- !app_assoc.
        + rewrite <- app_assoc.
          rewrite lex_unicode_escape by lia.
          rewrite (IH (d :: r') Hr). now rewrite Hrev. }
    destruct (is_low_surrogate c) eqn:Elo.
    { pose proof (low_surrogate_range c Elo) as Hc.
      rewrite <- app_assoc.
      rewrite lex_unicode_escape by lia.
      rewrite (IH r Hr). now rewrite Hrev. }
    cbn [app]. rewrite (lex_plain c) by assumption.
    rewrite (IH r Hr). now rewrite Hrev.
Qed.

(** A quoted string lexes to the one token of that string. *)
Lemma lex_quote (s rest : jsstring) :
  lex_from LStart (quote s ++ rest)
  = option_map (cons (TString s)) (lex_from LStart rest).
Proof.
  unfold quote. cbn [app].
  rewrite (lex_silent LStart (LStr [])) by reflexivity.
  rewrite <- app_assoc.
  rewrite (lex_quote_body (length s) s (le_n _)).
  cbn [app lex_from lex_step]. replace (34 =? 34)%N with true by reflexivity.
  rewrite app_nil_r, rev_involutive.
  now destruct (lex_from LStart rest).
Qed.

Lemma lex_punctuation (c : jschar) (t : token) (rest : jsstring) :
  lex_start c = Some (LStart, [t]) ->
  lex_from LStart (c :: rest) = option_map (cons t) (lex_from LStart rest).
Proof.
  intros H. cbn [lex_from lex_step]. rewrite H.
  now destruct (lex_from LStart rest).
Qed.

(** The tokens of the elements after the first: each a comma and a string. *)
Lemma lex_tail (r : list jsstring) (rest : jsstring) :
  lex_from LStart (concat (map (fun s => [ch ","] ++ quote s) r) ++ rest)
  = option_map (app (flat_map (fun s => [TComma; TString s]) r))
      (lex_from LStart rest).
Proof.
  induction r as [|s r IH]; cbn [map concat flat_map app].
  - now destruct (lex_from LStart rest).
  - cbn [app] in IH.
    rewrite (lex_punctuation _ TComma) by reflexivity.
    rewrite <- app_assoc, lex_quote, IH.
    now destruct (lex_from LStart rest).
Qed.

Lemma join_concat (sep x : jsstring) (r : list jsstring) :
  join_with sep (x :: r) = x ++ concat (map (fun s => sep ++ s) r).
Proof.
  revert x. induction r as [|y r IH]; intros x.
  - cbn. now rewrite app_nil_r.
  - change (join_with sep (x :: y :: r))
      with (x ++ sep ++ join_with sep (y :: r)).
    rewrite (IH y). cbn [map concat]. now rewrite <- app_assoc.
Qed.

Lemma parse_tail (r : list jsstring) :
  forall acc,
    parse_from (PInArr acc [])
      (flat_map (fun s => [TComma; TString s]) r ++ [TRBracket])
    = Some (JArr (rev acc ++ map JStr r)).
Proof.
  induction r as [|s r IH]; intros acc; cbn.
  - now rewrite app_nil_r.
  - rewrite IH. cbn [rev]. now rewrite <- app_assoc.
Qed.

Lemma stringify_strings (l : list jsstring) :
  stringify (JArr (map JStr l))
  = Some ([ch "["] ++ join_with [ch ","] (map quote l) ++ [ch "]"]).
Proof.
  cbn [stringify].
  match goal with
  | |- Some (_ ++ join_with _ (?f (map JStr l)) ++ _) = _ =>
      assert (H : forall l', f (map JStr l') = map quote l')
  end.
  { induction l' as [|s l' IH]; [reflexivity|].
    cbn [map]. rewrite <- IH. reflexivity. }
  now rewrite H.
Qed.

(** [JSON.parse(JSON.stringify(a))] gives [a] back for every array [a] of
    strings. *)
Lemma parse_stringify_strings (l : list jsstring) :
  exists text,
    JSON_stringify (JArr (map JStr l)) = JStr text
    /\ JSON_parse text = Some (JArr (map JStr l)).
Proof.
  unfold JSON_stringify. rewrite stringify_strings.
  eexists. split; [reflexivity|].
  unfold JSON_parse, lex. cbn [app].
  rewrite (lex_punctuation _ TLBracket) by reflexivity.
  destruct l as [|x r].
  - reflexivity.
  - cbn [map]. rewrite join_concat, <- !app_assoc.
    rewrite lex_quote.
    rewrite map_map.
    rewrite (lex_tail r). cbn.
    now rewrite (parse_tail r [JStr x]).
Qed.

End TextFacts.

(** ** The bracketed span, the size of a batch, trimmed texts *)

Module ValidatorExtras.

Import Gemini Spec ValidatorFacts ShapeFacts.

Lemma from_first_split (c : jschar) (s r : jsstring) :
  from_first c s = Some r -> exists pre, s = pre ++ c :: r /\ ~ In c pre.
Proof.
  revert r. induction s as [|x s IH]; intros r; cbn; [discriminate|].
  destruct (N.eqb_spec x c) as [->|Hx].
  - intros [= <-]. exists []. split; [reflexivity | intros []].
  - intros H. destruct (IH r H) as (pre & -> & Hpre).
    exists (x :: pre). split; [reflexivity|].
    intros [E|E]; [now elim Hx | now elim Hpre].
Qed.

Lemma from_first_none (c : jschar) (s : jsstring) :
  from_first c s = None -> ~ In c s.
Proof.
  induction s as [|x s IH]; cbn; [tauto|].
  destruct (N.eqb_spec x c) as [->|Hx]; [discriminate|].
  intros H [E|E]; [now elim Hx | now apply IH].
Qed.

(** What follows the first [c] holds whatever follows any [c]. *)
Lemma from_first_suffix (c : jschar) (s r : jsstring) :
  from_first c s = Some r ->
  forall pre rest, s = pre ++ c :: rest -> exists x, r = x ++ rest.
Proof.
  revert r. induction s as [|y s IH]; intros r; cbn; [discriminate|].
  destruct (N.eqb_spec y c) as [->|Hy].
  - intros [= <-] pre rest E. destruct pre as [|p pre]; cbn in E.
    + injection E as <-. now exists [].
    + injection E as _ ->. exists (pre ++ [c]). now rewrite <- app_assoc.
  - intros H pre rest E. destruct pre as [|p pre]; cbn in E.
    + injection E as E' _. now elim Hy.
    + injection E as _ ->. now apply (IH r H pre rest).
Qed.

Lemma through_last_none (c : jschar) (s : jsstring) :
  through_last c s = None -> ~ In c s.
Proof.
  induction s as [|x s IH]; cbn; [tauto|].
  destruct (through_last c s); [discriminate|].
  destruct (N.eqb_spec x c) as [->|Hx]; [discriminate|].
  intros _ [E|E]; [now elim Hx | now apply IH].
Qed.

Lemma through_last_split (c : jschar) (s u : jsstring) :
  through_last c s = Some u ->
  exists mid post, u = mid ++ [c] /\ s = u ++ post /\ ~ In c post.
Proof.
  revert u. induction s as [|x s IH]; intros u; cbn; [discriminate|].
  destruct (through_last c s) as [v|] eqn:Hv.
  - intros [= <-]. destruct (IH v eq_refl) as (mid & post & -> & -> & Hp).
    exists (x :: mid), post. repeat split; auto.
  - destruct (N.eqb_spec x c) as [->|Hx]; [|discriminate].
    intros [= <-]. exists [], s. repeat split.
    now apply through_last_none.
Qed.

(** X1.  The match of [/\[[\s\S]*\]/] is greedy from the first [[]: when
    there is one, the text is [pre ++ span ++ post] with no [[] in [pre],
    no []] in [post], and [span] starting with [[] and ending with []];
    there is none exactly when no []] follows any [[] of the text. *)
Theorem X1_bracket_span_is_first_to_last :
  forall text : jsstring,
    (forall span,
        match_bracket_span text = Some span ->
        exists pre mid post,
          text = pre ++ span ++ post
          /\ span = 91%N :: mid ++ [93%N]
          /\ ~ In 91%N pre /\ ~ In 93%N post)
    /\ (match_bracket_span text = None <->
        forall pre mid post, text <> pre ++ 91%N :: mid ++ 93%N :: post).
Proof.
  intros text. unfold match_bracket_span. split; [|split].
  - intros span.
    destruct (from_first 91%N text) as [r|] eqn:Hf; [|discriminate].
    destruct (through_last 93%N r) as [u|] eqn:Hl; [|discriminate].
    intros [= <-].
    destruct (from_first_split _ _ _ Hf) as (pre & -> & Hpre).
    destruct (through_last_split _ _ _ Hl) as (mid & post & -> & -> & Hpost).
    exists pre, mid, post. repeat split; auto.
  - intros H pre mid post E.
    destruct (from_first 91%N text) as [r|] eqn:Hf.
    + destruct (through_last 93%N r) as [u|] eqn:Hl; [discriminate|].
      destruct (from_first_suffix _ _ _ Hf pre (mid ++ 93%N :: post) E)
        as (x & ->).
      apply (through_last_none _ _ Hl).
      rewrite !in_app_iff. right. right. now left.
    + apply (from_first_none _ _ Hf). rewrite E, in_app_iff.
      right. now left.
  - intros H.
    destruct (from_first 91%N text) as [r|] eqn:Hf; [|reflexivity].
    destruct (through_last 93%N r) as [u|] eqn:Hl; [|reflexivity].
    destruct (from_first_split _ _ _ Hf) as (pre & -> & _).
    destruct (through_last_split _ _ _ Hl) as (mid & post & -> & -> & _).
    elim (H pre mid post). now rewrite <- !app_assoc.
Qed.

Lemma validate_loop_length (qs : list JSValue) :
  forall acc rs,
    validate_loop qs acc = Normal rs ->
    (length acc <= length rs <= length acc + length qs)%nat.
Proof.
  induction qs as [|q qs IH]; intros acc rs; cbn [validate_loop].
  - intros [= <-]. cbn. lia.
  - destruct (Get q (str "question")); cbn [bind]; [|discriminate].
    assert (Hskip : validate_loop qs acc = Normal rs ->
                    (length acc <= length rs <= length acc + length (q :: qs))%nat).
    { intros H. apply IH in H. cbn. lia. }
    destruct (question_invalid _); [exact Hskip|].
    destruct (options_invalid _); [exact Hskip|].
    destruct (correct_invalid _); [exact Hskip|].
    destruct (map_options _); cbn [bind]; [|discriminate].
    intros H. apply IH in H. rewrite length_app in H. cbn in *. lia.
Qed.

(** X2.  A batch that comes back holds at least one question and at most
    as many as the parsed array has elements. *)
Theorem X2_batch_size :
  forall (generatedText : JSValue) (rs : list QuestionData),
    validate_text generatedText = Normal rs ->
    exists qs,
      extract generatedText = Normal (JArr qs)
      /\ (1 <= length rs <= length qs)%nat.
Proof.
  intros generatedText rs. unfold validate_text.
  destruct (extract generatedText) as [v|]; cbn [bind]; [|discriminate].
  destruct v as [| |b|n|s|qs|ps]; try discriminate.
  unfold validate.
  destruct (validate_loop qs []) as [rs'|] eqn:Hl; cbn [bind]; [|discriminate].
  destruct rs' as [|r rs']; [discriminate|]. intros [= <-].
  exists qs. split; [reflexivity|].
  apply validate_loop_length in Hl. cbn in *. lia.
Qed.

Lemma X2_witness :
  exists qs,
    extract (JStr (json_text "[{'question':'Q','options':[1,2,3,4],'correct':0},7]"))
    = Normal (JArr qs)
    /\ (1 <= 1 <= length qs)%nat.
Proof.
  destruct (X2_batch_size
              (JStr (json_text "[{'question':'Q','options':[1,2,3,4],'correct':0},7]"))
              [ {| question := JStr (str "Q");
                   options := JArr [JStr (str "1"); JStr (str "2");
                                    JStr (str "3"); JStr (str "4")];
                   correct := JNum (S754_zero false);
                   explanation := JStr [];
                   subject := JStr [] |} ]
              ltac:(vm_compute; reflexivity)) as (qs & H1 & H2).
  exists qs. split; assumption.
Defined.

Lemma trim_start_head (s : jsstring) (c : jschar) (r : jsstring) :
  trim_start s = c :: r -> is_js_space c = false.
Proof.
  induction s as [|x s IH]; cbn; [discriminate|].
  destruct (is_js_space x) eqn:Hx; [exact IH|].
  now intros [= <- _].
Qed.

Lemma trim_start_suffix (s : jsstring) : exists p, s = p ++ trim_start s.
Proof.
  induction s as [|x s [p IH]]; [now exists []|]. cbn.
  destruct (is_js_space x); [|now exists []].
  exists (x :: p). cbn. now f_equal.
Qed.

(** [trim] leaves no white space at either end. *)
Lemma trim_ends (s : jsstring) :
  (forall c r, trim s = c :: r -> is_js_space c = false)
  /\ (forall c r, trim s = r ++ [c] -> is_js_space c = false).
Proof.
  unfold trim. set (t := trim_start s).
  destruct (trim_start_suffix (rev t)) as [p Hp].
  split.
  - intros c r H.
    assert (Ht : t = c :: r ++ rev p).
    { rewrite <- (rev_involutive t), Hp, rev_app_distr, H. reflexivity. }
    exact (trim_start_head s c _ Ht).
  - intros c r H. apply (f_equal (@rev _)) in H.
    rewrite rev_involutive, rev_app_distr in H. cbn in H.
    exact (trim_start_head _ _ _ H).
Qed.

(** X3.  The question text of every returned record neither starts nor
    ends with white space. *)
Theorem X3_question_text_is_trimmed :
  forall (generatedText : JSValue) (rs : list QuestionData) (r : QuestionData),
    validate_text generatedText = Normal rs -> In r rs ->
    exists t,
      question r = JStr t
      /\ (forall c t', t = c :: t' -> is_js_space c = false)
      /\ (forall c t', t = t' ++ [c] -> is_js_space c = false).
Proof.
  intros generatedText rs r H Hin.
  destruct (returned_record_source _ _ _ H Hin)
    as (qs & q & _ & _ & _ & Hp & Hn).
  unfold passes in Hp.
  apply andb_prop in Hp as [Hp _]. apply andb_prop in Hp as [Hq _].
  apply negb_true_iff in Hq.
  destruct (question_valid _ Hq) as (c0 & s & Eq).
  unfold normalize in Hn. rewrite Eq in Hn.
  destruct (map_options _); [|discriminate Hn].
  cbn [bind] in Hn. injection Hn as <-. cbn [question trimmed].
  exists (trim (c0 :: s)). split; [reflexivity|]. apply trim_ends.
Qed.

Lemma X3_witness :
  exists t,
    JStr (str "Q a") = JStr t
    /\ (forall c t', t = c :: t' -> is_js_space c = false)
    /\ (forall c t', t = t' ++ [c] -> is_js_space c = false).
Proof.
  exact (X3_question_text_is_trimmed
           (JStr (json_text "[{'question':'  Q a ','options':[1,2,3,4],'correct':0}]"))
           [ {| question := JStr (str "Q a");
                options := JArr [JStr (str "1"); JStr (str "2");
                                 JStr (str "3"); JStr (str "4")];
                correct := JNum (S754_zero false);
                explanation := JStr [];
                subject := JStr [] |} ]
           _ ltac:(vm_compute; reflexivity) (or_introl eq_refl)).
Defined.

End ValidatorExtras.

(** ** Sorted reads of the store *)

Module StoreFacts.

Import Store.

Lemma insert_by_perm {A} (key : A -> Z) (x : A) (l : list A) :
  Permutation (insert_by key x l) (x :: l).
Proof.
  induction l as [|y l IH]; cbn; [reflexivity|].
  destruct (key x <? key y)%Z; [reflexivity|].
  rewrite IH. apply perm_swap.
Qed.

Lemma insert_by_sorted {A} (key : A -> Z) (x : A) (l : list A) :
  StronglySorted (fun a b => key a <= key b)%Z l ->
  StronglySorted (fun a b => key a <= key b)%Z (insert_by key x l).
Proof.
  induction 1 as [|y l Hs IH Hy]; cbn.
  - repeat constructor.
  - destruct (key x <? key y)%Z eqn:E.
    + apply Z.ltb_lt in E. constructor; [now constructor|].
      constructor; [lia|].
      eapply Forall_impl; [|exact Hy]. cbn. intros; lia.
    + apply Z.ltb_ge in E. constructor; [exact IH|].
      eapply Permutation_Forall; [symmetry; apply insert_by_perm|].
      now constructor.
Qed.

Lemma sort_from {A} (key : A -> Z) (l : list A) :
  forall acc,
    Permutation (fold_left (fun acc x => insert_by key x acc) l acc) (acc ++ l)
    /\ (StronglySorted (fun a b => key a <= key b)%Z acc ->
        StronglySorted (fun a b => key a <= key b)%Z
          (fold_left (fun acc x => insert_by key x acc) l acc)).
Proof.
  induction l as [|x l IH]; intros acc; cbn [fold_left].
  - rewrite app_nil_r. split; [reflexivity | auto].
  - destruct (IH (insert_by key x acc)) as [Hp Hs]. split.
    + rewrite Hp.
      etransitivity; [apply Permutation_app_tail, insert_by_perm|].
      apply Permutation_middle.
    + intros H. now apply Hs, insert_by_sorted.
Qed.

(** [.sort(...)] returns the documents of the collection, in order. *)
Lemma sort_by_spec {A} (key : A -> Z) (l : list A) :
  Permutation (sort_by key l) l
  /\ StronglySorted (fun a b => key a <= key b)%Z (sort_by key l).
Proof.
  unfold sort_by. destruct (sort_from key l []) as [Hp Hs].
  split; [exact Hp | apply Hs; constructor].
Qed.

(** [.limit(n)] keeps a prefix: all of it for [0], else [n] documents at
    most. *)
Lemma limit_spec {A} (n : N) (l : list A) :
  (exists rest, l = limit n l ++ rest)
  /\ length (limit n l)
     = (if (n =? 0)%N then length l else Nat.min (N.to_nat n) (length l)).
Proof.
  unfold limit. destruct (n =? 0)%N.
  - split; [exists []; now rewrite app_nil_r | reflexivity].
  - split; [exists (skipn (N.to_nat n) l); now rewrite firstn_skipn|].
    apply length_firstn.
Qed.

(** A document newer than all the others sorts first. *)
Lemma insert_by_first {A} (key : A -> Z) (x : A) (l : list A) :
  (forall y, In y l -> key x < key y)%Z -> insert_by key x l = x :: l.
Proof.
  destruct l as [|y l]; [reflexivity|]. cbn. intros H.
  now rewrite (proj2 (Z.ltb_lt _ _) (H y (or_introl eq_refl))).
Qed.

Lemma sort_by_snoc {A} (key : A -> Z) (x : A) (l : list A) :
  sort_by key (l ++ [x]) = insert_by key x (sort_by key l).
Proof. unfold sort_by. now rewrite fold_left_app. Qed.

Lemma jsstring_eqb_eq (a b : jsstring) : jsstring_eqb a b = true <-> a = b.
Proof.
  revert b. induction a as [|x a IH]; intros [|y b]; cbn;
    try (split; [discriminate | discriminate]); [tauto|].
  rewrite andb_true_iff, N.eqb_eq, IH. split.
  - now intros [-> ->].
  - now intros [= -> ->].
Qed.

Lemma sorted_weaken {A} (R R' : A -> A -> Prop) (l : list A) :
  (forall a b, R a b -> R' a b) -> StronglySorted R l -> StronglySorted R' l.
Proof.
  intros H. induction 1 as [|x l _ IH Hx]; constructor; [exact IH|].
  eapply Forall_impl; [|exact Hx]. auto.
Qed.

End StoreFacts.

(** ** [GET /api/questions]: the listings *)

Module ListingExtras.

Import Questions Spec QuestionsFacts StoreFacts TextFacts.

Lemma scores_not_stats (q : Query) :
  is_type q "scores" = true -> is_type q "stats" = false.
Proof.
  unfold is_type. destruct (q_type q) as [t|]; [|discriminate].
  intros H. apply jsstring_eqb_eq in H. subst t. reflexivity.
Qed.

(** X4.  [GET /api/questions?type=scores] shows the most recent scores
    first: what it returns is the head of the stored scores sorted by
    creation time, the newest first, cut after [limit] entries (10 when no
    limit is given, all of them for a limit of 0). *)
Theorem X4_scores_most_recent_first :
  forall (w : World) (db : Store.Db) (q : Query),
    is_type q "scores" = true ->
    exists shown rest,
      handleGet w db q = mkResponse 200 (Scores shown)
      /\ Permutation (shown ++ rest) (Store.scores db)
      /\ StronglySorted
           (fun a b => Store.score_createdAt b <= Store.score_createdAt a)%Z
           (shown ++ rest)
      /\ length shown
         = (let n := match q_limit q with Some n => n | None => 10%N end in
            if (n =? 0)%N then length (Store.scores db)
            else Nat.min (N.to_nat n) (length (Store.scores db))).
Proof.
  intros w db q Hs. unfold handleGet.
  rewrite (scores_not_stats q Hs), Hs.
  set (n := match q_limit q with Some n => n | None => 10%N end).
  set (key := fun d => (- Store.score_createdAt d)%Z).
  destruct (sort_by_spec key (Store.scores db)) as [Hp Hsorted].
  destruct (limit_spec n (Store.sort_by key (Store.scores db)))
    as [[rest Hrest] Hlen].
  exists (Store.limit n (Store.sort_by key (Store.scores db))), rest.
  split; [reflexivity|]. rewrite <- Hrest.
  split; [exact Hp|]. split.
  - eapply sorted_weaken; [|exact Hsorted].
    unfold key. intros a b. lia.
  - cbn zeta. rewrite Hlen, (Permutation_length Hp). reflexivity.
Qed.

Lemma X4_witness :
  let w := {| now := 0; shuffle := fun l => l |} in
  let s1 := Store.mkScoreDoc 0%N (JNum (num_of_Z 1)) (JNum (num_of_Z 2))
              (JNum (num_of_Z 50)) JUndefined (JStr (str "mixed")) 10 in
  let s2 := Store.mkScoreDoc 1%N (JNum (num_of_Z 2)) (JNum (num_of_Z 2))
              (JNum (num_of_Z 100)) JUndefined (JStr (str "mixed")) 20 in
  let db := Store.mkDb [] [] [] [] [s1; s2] 2%N in
  let q := mkQuery (Some (str "scores")) (Some 1%N) None None in
  exists shown rest,
    handleGet w db q = mkResponse 200 (Scores shown)
    /\ Permutation (shown ++ rest) [s1; s2]
    /\ length shown = 1%nat.
Proof.
  intros w s1 s2 db q.
  destruct (X4_scores_most_recent_first w db q eq_refl)
    as (shown & rest & H & Hp & _ & Hl).
  exists shown, rest. repeat split; assumption.
Defined.

Lemma created_score (w : World) (db db' : Store.Db) (b : JSValue)
  (doc : Store.ScoreDoc) :
  handlePost w db b = Normal (db', mkResponse 201 (CreatedScore doc)) ->
  Store.scores db' = Store.scores db ++ [doc]
  /\ Store.score_createdAt doc = now w.
Proof.
  unfold handlePost, Get. destruct (is_nullish b); [discriminate|].
  cbn [bind]. destruct (is_string _ _).
  - destruct (prop b (str "score")); try discriminate.
    destruct (prop b (str "total")); try discriminate.
    cbn. intros [= <- <-]. split; reflexivity.
  - destruct (prop b (str "correct")); try discriminate.
    destruct (_ || _); [discriminate|].
    destruct (parse_options _); [|discriminate].
    destruct (_ || _); discriminate.
Qed.

(** X5.  A score posted when the clock is past every stored score comes
    first in the scores listing that follows, whatever the limit. *)
Theorem X5_posted_score_is_listed_first :
  forall (w w' : World) (db db' : Store.Db) (b : JSValue)
         (doc : Store.ScoreDoc) (q : Query),
    handlePost w db b = Normal (db', mkResponse 201 (CreatedScore doc)) ->
    (forall d, In d (Store.scores db) -> (Store.score_createdAt d < now w)%Z) ->
    is_type q "scores" = true ->
    exists others,
      handleGet w' db' q = mkResponse 200 (Scores (doc :: others)).
Proof.
  intros w w' db db' b doc q Hpost Hnew Hs.
  destruct (created_score _ _ _ _ _ Hpost) as [Hscores Hat].
  unfold handleGet. rewrite (scores_not_stats q Hs), Hs, Hscores.
  rewrite sort_by_snoc.
  set (key := fun d => (- Store.score_createdAt d)%Z).
  destruct (sort_by_spec key (Store.scores db)) as [Hp _].
  rewrite insert_by_first.
  - unfold Store.limit.
    destruct (_ =? 0)%N eqn:E; [eauto|].
    apply N.eqb_neq in E.
    destruct (N.to_nat _) as [|k] eqn:Ek; [lia|]. cbn [firstn]. eauto.
  - intros y Hy. unfold key. rewrite Hat.
    pose proof (Hnew y (Permutation_in _ Hp Hy)). lia.
Qed.

Lemma X5_witness :
  let w := {| now := 30; shuffle := fun l => l |} in
  let s1 := Store.mkScoreDoc 0%N (JNum (num_of_Z 1)) (JNum (num_of_Z 2))
              (JNum (num_of_Z 50)) JUndefined (JStr (str "mixed")) 10 in
  let db := Store.mkDb [] [] [] [] [s1] 1%N in
  let b := JObj [(str "type", JStr (str "score"));
                 (str "score", JNum (num_of_Z 7));
                 (str "total", JNum (num_of_Z 10))] in
  let doc := Store.mkScoreDoc 1%N (JNum (num_of_Z 7)) (JNum (num_of_Z 10))
               (JNum (num_of_Z 70)) JUndefined (JStr (str "mixed")) 30 in
  let db' := Store.mkDb [] [] [] [] [s1; doc] 2%N in
  exists others,
    handleGet w db' (mkQuery (Some (str "scores")) None None None)
    = mkResponse 200 (Scores (doc :: others)).
Proof.
  intros w s1 db b doc db'.
  apply (X5_posted_score_is_listed_first w w db db' b doc).
  - vm_compute. reflexivity.
  - intros d [<- | []]. vm_compute. reflexivity.
  - reflexivity.
Defined.

(** X6.  [GET /api/questions?step=s] shows the questions of that step's
    collection in ascending order of their sequence number: what it returns
    is the head of the sorted collection, cut after [limit] entries (all of
    them when no limit, or a limit of 0, is given). *)
Theorem X6_step_listing_in_sequence :
  forall (w : World) (db : Store.Db) (q : Query) (c : jschar) (s : jsstring),
    is_type q "stats" = false -> is_type q "scores" = false ->
    q_step q = Some (c :: s) ->
    exists shown rest,
      handleGet w db q
      = mkResponse 200 (Listing (map (transform (c :: s)) shown))
      /\ Permutation (shown ++ rest)
           (Store.step_collection db (str "step" ++ c :: s))
      /\ StronglySorted
           (fun a b => Store.questionNumber a <= Store.questionNumber b)%Z
           (shown ++ rest)
      /\ length shown
         = (let n := match q_limit q with Some n => n | None => 0%N end in
            if (n =? 0)%N
            then length (Store.step_collection db (str "step" ++ c :: s))
            else Nat.min (N.to_nat n)
                   (length (Store.step_collection db (str "step" ++ c :: s)))).
Proof.
  intros w db q c s H1 H2 Hstep. unfold handleGet, listing, find_step.
  rewrite H1, H2, Hstep.
  set (n := match q_limit q with Some n => n | None => 0%N end).
  set (coll := Store.step_collection db (str "step" ++ c :: s)).
  destruct (sort_by_spec Store.questionNumber coll) as [Hp Hsorted].
  destruct (limit_spec n (Store.sort_by Store.questionNumber coll))
    as [[rest Hrest] Hlen].
  exists (Store.limit n (Store.sort_by Store.questionNumber coll)), rest.
  split; [reflexivity|]. rewrite <- Hrest.
  split; [exact Hp|]. split; [exact Hsorted|].
  cbn zeta. rewrite Hlen, (Permutation_length Hp). reflexivity.
Qed.

Lemma X6_witness :
  let w := {| now := 0; shuffle := fun l => l |} in
  let d1 := Store.mkStepDoc 0%N (JStr (str "Q1")) (Some (str "a")) None None
              None None JUndefined JUndefined JUndefined JUndefined 2 in
  let d2 := Store.mkStepDoc 1%N (JStr (str "Q2")) (Some (str "a")) None None
              None None JUndefined JUndefined JUndefined JUndefined 1 in
  let db := Store.mkDb [d1; d2] [] [] [] [] 0%N in
  let q := mkQuery None (Some 1%N) None (Some (str "1")) in
  exists shown rest,
    handleGet w db q = mkResponse 200 (Listing (map (transform (str "1")) shown))
    /\ Permutation (shown ++ rest) [d1; d2]
    /\ length shown = 1%nat.
Proof.
  intros w d1 d2 db q.
  destruct (X6_step_listing_in_sequence w db q 49%N [] eq_refl eq_refl eq_refl)
    as (shown & rest & H & Hp & _ & Hl).
  exists shown, rest. repeat split; assumption.
Defined.

Lemma in_limit {A} (n : N) (l : list A) (x : A) :
  In x (Store.limit n l) -> In x l.
Proof.
  destruct (limit_spec n l) as [[rest Hrest] _]. intros H.
  rewrite Hrest. apply in_or_app. now left.
Qed.

Lemma in_step_collection (db : Store.Db) (name : jsstring) (d : Store.StepDoc) :
  In d (Store.step_collection db name) ->
  In d (Store.step1 db) \/ In d (Store.step2 db) \/ In d (Store.step3 db).
Proof.
  unfold Store.step_collection.
  repeat match goal with
         | |- context [if ?b then _ else _] => destruct b
         end; cbn; tauto.
Qed.

Lemma in_find_step (db : Store.Db) (name : jsstring) (n : N)
  (d : Store.StepDoc) :
  In d (find_step db name n) ->
  In d (Store.step1 db) \/ In d (Store.step2 db) \/ In d (Store.step3 db).
Proof.
  unfold find_step. intros H. apply in_limit in H.
  apply (in_step_collection db name).
  exact (Permutation_in _ (proj1 (sort_by_spec _ _)) H).
Qed.

(** Every entry of a listing shows a stored step question. *)
Lemma listing_entries (w : World) (db : Store.Db) (q : Query) (e : Listed) :
  (forall l, Permutation (shuffle w l) l) ->
  In e (listing w db q) ->
  exists step d,
    e = transform step d
    /\ (In d (Store.step1 db) \/ In d (Store.step2 db)
        \/ In d (Store.step3 db)).
Proof.
  intros Hperm. unfold listing.
  assert (Hmixed :
    forall m l,
      In e l ->
      (l = shuffle w (flat_map
             (fun collection =>
                map (transform (last_char collection))
                  (find_step db collection m)) per_step)) ->
      exists step d,
        e = transform step d
        /\ (In d (Store.step1 db) \/ In d (Store.step2 db)
            \/ In d (Store.step3 db))).
  { intros m l Hin ->.
    apply (Permutation_in _ (Hperm _)) in Hin.
    apply in_flat_map in Hin as (name & _ & Hin).
    apply in_map_iff in Hin as (d & <- & Hd).
    exists (last_char name), d. split; [reflexivity|].
    exact (in_find_step _ _ _ _ Hd). }
  assert (Hcut : forall n (l : list Listed), In e (firstn n l) -> In e l).
  { intros n l H. rewrite <- (firstn_skipn n l). apply in_or_app. now left. }
  destruct (q_step q) as [[|c s]|].
  - destruct (q_limit q) as [n|]; intros H.
    + apply Hcut in H. exact (Hmixed _ _ H eq_refl).
    + exact (Hmixed _ _ H eq_refl).
  - intros H. apply in_map_iff in H as (d & <- & Hd).
    exists (c :: s), d. split; [reflexivity|].
    exact (in_find_step _ _ _ _ Hd).
  - destruct (q_limit q) as [n|]; intros H.
    + apply Hcut in H. exact (Hmixed _ _ H eq_refl).
    + exact (Hmixed _ _ H eq_refl).
Qed.

(** X7.  Every entry of a question listing shows a stored step question,
    and its [options] text is one the quiz page can parse: [JSON.parse]
    gives back the non-empty option texts of that question, at most five,
    in the order A to E. *)
Theorem X7_listed_options_parse_back :
  forall (w : World) (db : Store.Db) (q : Query) (l : list Listed) (e : Listed),
    (forall l, Permutation (shuffle w l) l) ->
    handleGet w db q = mkResponse 200 (Listing l) ->
    In e l ->
    exists step d opts,
      e = transform step d
      /\ (In d (Store.step1 db) \/ In d (Store.step2 db)
          \/ In d (Store.step3 db))
      /\ opts = filter (fun o => (0 <? length o)%nat)
                  (map text_or_empty
                     [Store.optionA d; Store.optionB d; Store.optionC d;
                      Store.optionD d; Store.optionE d])
      /\ Quiz.parsedOptions (l_options e) = Some (JArr (map JStr opts))
      /\ (length opts <= 5)%nat
      /\ Forall (fun o => o <> []) opts.
Proof.
  intros w db q l e Hperm Hget Hin.
  assert (Hl : l = listing w db q).
  { revert Hget. unfold handleGet.
    destruct (is_type q "stats"); [discriminate|].
    destruct (is_type q "scores"); [discriminate|].
    now intros [= <-]. }
  subst l.
  destruct (listing_entries w db q e Hperm Hin) as (step & d & -> & Hd).
  exists step, d. eexists. split; [reflexivity|]. split; [exact Hd|].
  split; [reflexivity|].
  set (opts := filter _ _).
  split; [|split].
  - change (l_options (transform step d))
      with (JSON_stringify (JArr (map JStr opts))).
    destruct (parse_stringify_strings opts) as (text & -> & Hparse).
    exact Hparse.
  - subst opts.
    etransitivity; [apply filter_length_le|]. reflexivity.
  - subst opts. apply Forall_forall. intros o Ho.
    apply filter_In in Ho as [_ Ho]. destruct o; [discriminate|discriminate].
Qed.

Lemma X7_witness :
  let w := {| now := 0; shuffle := fun l => l |} in
  let d := Store.mkStepDoc 0%N (JStr (str "Q1")) (Some (str "a")) (Some [])
             (Some (str "c")) None None JUndefined JUndefined JUndefined
             JUndefined 1 in
  let db := Store.mkDb [d] [] [] [] [] 0%N in
  let q := mkQuery None None None None in
  exists opts,
    Quiz.parsedOptions (l_options (transform (str "1") d))
    = Some (JArr (map JStr opts))
    /\ (length opts <= 5)%nat.
Proof.
  intros w d db q.
  destruct (X7_listed_options_parse_back w db q [transform (str "1") d]
              (transform (str "1") d)
              (fun l => Permutation_refl l) eq_refl (or_introl eq_refl))
    as (step & d' & opts & _ & _ & _ & Hp & Hl & _).
  exists opts. split; assumption.
Defined.




End ListingExtras.

(** ** [POST /api/generate]: what is saved *)

Module GenerateExtras.

Import Gemini Generate Spec ValidatorFacts JsonFacts NumberFacts ShapeFacts
       TextFacts.

(** What [save_all] appends: one document for each question whose
    insertion goes through, in order; [i] is the number of the first
    insertion. *)
Lemma save_all_appends (fails : nat -> bool)
  (generated : list QuestionData) :
  forall (i : nat) (db : Store.Db) (now : Z) (difficulty : JSValue)
         (saved : list Store.QuestionDoc),
  exists docs,
    save_all fails i db now difficulty generated saved
    = ({| Store.step1 := Store.step1 db;
          Store.step2 := Store.step2 db;
          Store.step3 := Store.step3 db;
          Store.questions := Store.questions db ++ docs;
          Store.scores := Store.scores db;
          Store.next_id := (Store.next_id db + N.of_nat (length docs))%N |},
       saved ++ docs)
    /\ Forall2 (saved_from difficulty now)
         (map snd
            (filter (fun p => negb (fails (fst p)))
               (combine (seq i (length generated)) generated)))
         docs.
Proof.
  induction generated as [|r rs IH]; intros i db now difficulty saved.
  - exists []. cbn. rewrite !app_nil_r, N.add_0_r. split; [|constructor].
    now destruct db.
  - cbn [save_all length seq combine filter fst].
    destruct (fails i); cbn [negb].
    + exact (IH (S i) db now difficulty saved).
    + cbn [Store.insert_question map snd].
      match goal with
      | |- context [save_all _ _ ?db1 _ _ rs ?saved1] =>
          destruct (IH (S i) db1 now difficulty saved1) as (docs & Heq & Hall)
      end.
      eexists (_ :: docs). rewrite Heq.
      cbn [Store.step1 Store.step2 Store.step3 Store.questions Store.scores
           Store.next_id length].
      rewrite <- !app_assoc. cbn [app]. split.
      * do 2 f_equal. lia.
      * constructor; [|exact Hall]. cbn. repeat split.
Qed.

(** The questions kept are questions of the batch. *)
Lemma inserted_from_batch {A : Type} (f : nat * A -> bool) (l : list nat)
  (rs : list A) (r : A) :
  In r (map snd (filter f (combine l rs))) -> In r rs.
Proof.
  intros H. apply in_map_iff in H as ([i x] & <- & H).
  apply filter_In in H as [H _]. exact (in_combine_r _ _ _ _ H).
Qed.

(** When no insertion fails, every question of the batch is kept. *)
Lemma inserted_all {A : Type} (fails : nat -> bool) (rs : list A) :
  forall i,
    (forall j, i <= j < i + length rs -> fails j = false) ->
    map snd
      (filter (fun p => negb (fails (fst p))) (combine (seq i (length rs)) rs))
    = rs.
Proof.
  induction rs as [|r rs IH]; intros i H; [reflexivity|].
  cbn [length seq combine filter fst].
  rewrite (H i) by (cbn [length]; lia). cbn [negb map snd]. f_equal.
  apply IH. intros j Hj. apply H. cbn [length]. lia.
Qed.

(** Whatever [generateQuestionsWithGemini] returns was returned by the
    validator for some text. *)
Lemma generated_is_validated (key : option jsstring) (o : FetchOutcome)
  (prompt count : JSValue) (rs : list QuestionData) :
  generateQuestionsWithGemini key o prompt count = Normal rs ->
  exists generatedText, validate_text generatedText = Normal rs.
Proof.
  unfold generateQuestionsWithGemini.
  destruct (env_unset key); [discriminate|].
  destruct (String_ (default_count count)); cbn [bind]; [|discriminate].
  destruct (String_ prompt); cbn [bind]; [|discriminate].
  destruct o as [e|st txt json]; [discriminate|].
  destruct (negb (ok st)); [discriminate|].
  destruct json as [data|]; cbn [bind]; [|discriminate].
  destruct (Get data _) as [candidates|]; cbn [bind]; [|discriminate].
  destruct (_ || _); [discriminate|].
  destruct (Get _ _) as [content|]; cbn [bind]; [|discriminate].
  destruct (Get content _) as [parts|]; cbn [bind]; [|discriminate].
  destruct (Get parts _) as [part|]; cbn [bind]; [|discriminate].
  destruct (Get part _) as [generatedText|]; cbn [bind]; [|discriminate].
  eauto.
Qed.

Lemma record_shape (generatedText : JSValue) (rs : list QuestionData)
  (r : QuestionData) :
  validate_text generatedText = Normal rs -> In r rs ->
  exists t o1 o2 o3 o4 c,
    question r = JStr t
    /\ options r = JArr (map JStr [o1; o2; o3; o4])
    /\ correct r = JNum c /\ num_le zero c = true /\ num_lt c four = true.
Proof.
  intros H Hin.
  destruct (returned_record_source _ _ _ H Hin)
    as (qs & q & _ & _ & Hj & Hp & Hn).
  unfold passes in Hp.
  apply andb_prop in Hp as [Hp Hcorrect].
  apply andb_prop in Hp as [Hquestion Hoptions].
  apply negb_true_iff in Hquestion, Hoptions, Hcorrect.
  destruct (question_valid _ Hquestion) as (ch0 & s & Eq).
  destruct (options_valid _ Hoptions) as (l & Eo & Hl4).
  destruct (correct_valid _ Hcorrect) as (c & Ec & Hlo & Hhi).
  pose proof (prop_number _ _ _ Hj Ec) as Hnan.
  unfold normalize in Hn. rewrite Eq, Eo, Ec in Hn.
  destruct (map_options l) as [vs|] eqn:Hm; [|discriminate Hn].
  cbn [bind] in Hn. injection Hn as <-.
  destruct (map_options_strings _ _ Hm) as [Hlen Hstr].
  rewrite Hl4 in Hlen.
  destruct (four_strings _ Hlen Hstr) as (o1 & o2 & o3 & o4 & ->).
  exists (trim (ch0 :: s)), o1, o2, o3, o4, c. cbn [question options correct].
  repeat split.
  - apply not_lt_le; [assumption | discriminate | assumption].
  - apply not_ge_lt; [assumption | | assumption].
    unfold four. apply num_of_Z_not_nan.
Qed.

Lemma handler_success (w : World) (db db' : Store.Db) (req : Request)
  (saved : list Store.QuestionDoc) (msg : jsstring) :
  handler w db req = (db', mkResponse 200 (Success saved msg)) ->
  exists rs,
    generateQuestionsWithGemini (GEMINI_API_KEY w) (outcome w)
      (prop (req_body req) (str "prompt"))
      (default (prop (req_body req) (str "count")) (JNum (num_of_Z 5)))
    = Normal rs
    /\ rs <> []
    /\ save_all (insert_fails w) 0 db (now w)
         (default (prop (req_body req) (str "difficulty")) (JStr (str "Medium")))
         rs []
       = (db', saved)
    /\ msg = str "Successfully generated "
             ++ decimal (Z.of_nat (length saved)) ++ str " questions".
Proof.
  unfold handler.
  destruct (negb (jsstring_eqb _ _)); [discriminate|].
  destruct (attempt w db req) as [[db1 r1]|e] eqn:Ha.
  - intros [= -> ->]. revert Ha. unfold attempt.
    destruct (is_nullish _); [discriminate|].
    destruct (_ || _); [discriminate|].
    destruct (env_unset _); [discriminate|].
    destruct (String_ _); cbn [bind]; [|discriminate].
    destruct (generateQuestionsWithGemini _ _ _ _) as [rs|e]; cbn [bind];
      [|discriminate].
    destruct rs as [|r rs]; [discriminate|].
    destruct (save_all _ _ _ _ _ _ _) as [db1 saved1] eqn:Hs.
    intros [= <- <- <-]. exists (r :: rs).
    split; [reflexivity|]. split; [discriminate|]. split; [exact Hs|].
    reflexivity.
  - unfold error_response, fail.
    repeat match goal with
           | |- context [if ?b then _ else _] => destruct b
           end; discriminate.
Qed.

(** X9.  When [POST /api/generate] answers 200, the questions it lists are
    exactly the documents it added to the [questions] collection: one for
    each question the validator returned whose insertion went through, in
    the validator's order, each with the question text, correct index,
    explanation and subject of its record, the options as JSON text, and the
    difficulty of the request ("Medium" when the request names none); the
    message counts them.  A question whose insertion fails is left out, so
    the answer can list fewer questions than were validated, or none; when
    no insertion fails, it lists one document per validated question, and
    at least one.  The steps and scores collections are as before. *)
Theorem X9_generate_lists_what_it_saved :
  forall (w : World) (db db' : Store.Db) (req : Request)
         (saved : list Store.QuestionDoc) (msg : jsstring),
    handler w db req = (db', mkResponse 200 (Success saved msg)) ->
    let difficulty :=
      default (prop (req_body req) (str "difficulty")) (JStr (str "Medium")) in
    exists rs,
      generateQuestionsWithGemini (GEMINI_API_KEY w) (outcome w)
        (prop (req_body req) (str "prompt"))
        (default (prop (req_body req) (str "count")) (JNum (num_of_Z 5)))
      = Normal rs
      /\ rs <> []
      /\ Store.questions db' = Store.questions db ++ saved
      /\ Store.scores db' = Store.scores db
      /\ Store.step1 db' = Store.step1 db
      /\ Store.step2 db' = Store.step2 db
      /\ Store.step3 db' = Store.step3 db
      /\ Forall2 (saved_from difficulty (now w))
           (inserted (insert_fails w) rs) saved
      /\ msg = str "Successfully generated "
               ++ decimal (Z.of_nat (length saved)) ++ str " questions"
      /\ ((forall i, i < length rs -> insert_fails w i = false) ->
          Forall2 (saved_from difficulty (now w)) rs saved /\ saved <> []).
Proof.
  intros w db db' req saved msg H difficulty.
  destruct (handler_success _ _ _ _ _ _ H) as (rs & Hg & Hne & Hsave & Hmsg).
  destruct (save_all_appends (insert_fails w) rs 0 db (now w) difficulty [])
    as (docs & Heq & Hall).
  fold difficulty in Hsave. rewrite Hsave in Heq. cbn [app] in Heq.
  injection Heq as -> ->.
  exists rs. split; [exact Hg|]. split; [exact Hne|].
  cbn [Store.questions Store.scores Store.step1 Store.step2 Store.step3].
  do 5 (split; [reflexivity|]).
  split; [exact Hall|]. split; [exact Hmsg|].
  intros Hok. unfold inserted in Hall.
  rewrite inserted_all in Hall by (intros j Hj; apply Hok; lia).
  split; [exact Hall|].
  intros ->. inversion Hall. subst. now elim Hne.
Qed.

Lemma X9_witness :
  let text :=
    json_text "Here: [{'question':'Q1','options':['a','b','c','d'],'correct':2},{'question':'Q2','options':['e','f','g','h'],'correct':0}] done" in
  let data :=
    JObj [(str "candidates",
           JArr [JObj [(str "content",
                        JObj [(str "parts",
                               JArr [JObj [(str "text", JStr text)]])])]])] in
  let w := {| GEMINI_API_KEY := Some (str "k");
              outcome := Responded 200 (str "OK") (Normal data);
              now := 42;
              insert_fails := fun i => Nat.eqb i 0 |} in
  let db := Store.mkDb [] [] [] [] [] 7%N in
  let req := {| method := str "POST";
                req_body := JObj [(str "prompt", JStr (str "renal"))] |} in
  let doc := {| Store._id := 7%N;
                Store.question := JStr (str "Q2");
                Store.options := JStr (json_text "['e','f','g','h']");
                Store.correct := JNum (num_of_Z 0);
                Store.explanation := JStr [];
                Store.subject := JStr [];
                Store.difficulty := JStr (str "Medium");
                Store.createdAt := 42 |} in
  let db' := Store.mkDb [] [] [] [doc] [] 8%N in
  handler w db req
  = (db', mkResponse 200 (Success [doc] (str "Successfully generated 1 questions")))
  /\ Store.questions db' = Store.questions db ++ [doc].
Proof.
  intros text data w db req doc db'.
  assert (H : handler w db req
              = (db', mkResponse 200
                        (Success [doc] (str "Successfully generated 1 questions"))))
    by (vm_compute; reflexivity).
  split; [exact H|].
  destruct (X9_generate_lists_what_it_saved _ _ _ _ _ _ H)
    as (rs & _ & _ & Hq & _).
  exact Hq.
Defined.

(** X10.  Every document saved by a successful [POST /api/generate] is
    ready for the quiz page: its question is a string, its stored options
    are a JSON text that the quiz page's parse turns back into an array of
    exactly four strings, and its correct index is a number from 0 up to
    (not including) 4. *)
Theorem X10_saved_questions_are_quiz_ready :
  forall (w : World) (db db' : Store.Db) (req : Request)
         (saved : list Store.QuestionDoc) (msg : jsstring),
    handler w db req = (db', mkResponse 200 (Success saved msg)) ->
    Forall
      (fun d =>
         exists t o1 o2 o3 o4 c,
           Store.question d = JStr t
           /\ typeof (Store.options d) = TyString
           /\ Quiz.parsedOptions (Store.options d)
              = Some (JArr [JStr o1; JStr o2; JStr o3; JStr o4])
           /\ Store.correct d = JNum c
           /\ num_le zero c = true /\ num_lt c four = true)
      saved.
Proof.
  intros w db db' req saved msg H.
  destruct (handler_success _ _ _ _ _ _ H) as (rs & Hg & _ & Hsave & _).
  destruct (generated_is_validated _ _ _ _ _ Hg) as [gt Hv].
  destruct (save_all_appends (insert_fails w) rs 0 db (now w)
              (default (prop (req_body req) (str "difficulty"))
                 (JStr (str "Medium"))) [])
    as (docs & Heq & Hall).
  rewrite Hsave in Heq. cbn [app] in Heq. injection Heq as _ ->.
  assert (Hshape : forall r,
            In r (map snd
                    (filter (fun p => negb (insert_fails w (fst p)))
                       (combine (seq 0 (length rs)) rs))) ->
            exists t o1 o2 o3 o4 c,
              question r = JStr t
              /\ options r = JArr (map JStr [o1; o2; o3; o4])
              /\ correct r = JNum c
              /\ num_le zero c = true /\ num_lt c four = true).
  { intros r Hr. apply (record_shape gt rs r Hv).
    exact (inserted_from_batch _ _ _ r Hr). }
  clear Hsave Hg H Hv.
  induction Hall as [|r d rs' docs' Hrd _ IH]; constructor.
  - destruct Hrd as (Hq & Ho & Hc & _).
    destruct (Hshape r (or_introl eq_refl))
      as (t & o1 & o2 & o3 & o4 & c & Eq & Eo & Ec & Hlo & Hhi).
    destruct (parse_stringify_strings [o1; o2; o3; o4]) as (text & Hs & Hp).
    exists t, o1, o2, o3, o4, c.
    rewrite Hq, Ho, Hc, Eo, Hs. cbn [Quiz.parsedOptions typeof].
    repeat split; assumption.
  - apply IH. intros r' Hr'. apply Hshape. now right.
Qed.

Lemma X10_witness :
  let text :=
    json_text "[{'question':' Q1 ','options':['a',2,null,true],'correct':3.5}]" in
  let data :=
    JObj [(str "candidates",
           JArr [JObj [(str "content",
                        JObj [(str "parts",
                               JArr [JObj [(str "text", JStr text)]])])]])] in
  let w := {| GEMINI_API_KEY := Some (str "k");
              outcome := Responded 200 (str "OK") (Normal data);
              now := 42;
              insert_fails := fun _ => false |} in
  let db := Store.mkDb [] [] [] [] [] 7%N in
  let req := {| method := str "POST";
                req_body := JObj [(str "prompt", JStr (str "renal"));
                                  (str "difficulty", JStr (str "Hard"))] |} in
  let doc := {| Store._id := 7%N;
                Store.question := JStr (str "Q1");
                Store.options := JStr (json_text "['a','2','null','true']");
                Store.correct := JNum (num_of_decimal false 35 (-1));
                Store.explanation := JStr [];
                Store.subject := JStr [];
                Store.difficulty := JStr (str "Hard");
                Store.createdAt := 42 |} in
  let db' := Store.mkDb [] [] [] [doc] [] 8%N in
  handler w db req
  = (db', mkResponse 200 (Success [doc] (str "Successfully generated 1 questions")))
  /\ Forall
       (fun d =>
          exists t o1 o2 o3 o4 c,
            Store.question d = JStr t
            /\ typeof (Store.options d) = TyString
            /\ Quiz.parsedOptions (Store.options d)
               = Some (JArr [JStr o1; JStr o2; JStr o3; JStr o4])
            /\ Store.correct d = JNum c
            /\ num_le zero c = true /\ num_lt c four = true)
       [doc].
Proof.
  intros text data w db req doc db'.
  assert (H : handler w db req
              = (db', mkResponse 200
                        (Success [doc] (str "Successfully generated 1 questions"))))
    by (vm_compute; reflexivity).
  split; [exact H|].
  exact (X10_saved_questions_are_quiz_ready _ _ _ _ _ _ H).
Defined.

(** X11.  [POST /api/generate] writes to the store only when it answers
    200: with any other status (405, 400, 401, 429, 503, 500) the store is
    left exactly as it was. *)
Theorem X11_failed_generation_leaves_the_store :
  forall (w : World) (db db' : Store.Db) (req : Request) (r : Response Body),
    handler w db req = (db', r) ->
    status r <> 200%N ->
    db' = db.
Proof.
  intros w db db' req r. unfold handler.
  destruct (negb (jsstring_eqb _ _)); [now intros [= <- <-]|].
  destruct (attempt w db req) as [[db1 r1]|e] eqn:Ha;
    [|now intros [= <- <-]].
  intros [= -> ->]. revert Ha. unfold attempt.
  destruct (is_nullish _); [discriminate|].
  destruct (_ || _); [now intros [= <- <-]|].
  destruct (env_unset _); [now intros [= <- <-]|].
  destruct (String_ _); cbn [bind]; [|discriminate].
  destruct (generateQuestionsWithGemini _ _ _ _) as [rs|e]; cbn [bind];
    [|discriminate].
  destruct rs as [|q rs]; [now intros [= <- <-]|].
  destruct (save_all _ _ _ _ _ _ _) as [db1 saved1].
  intros [= <- <-]. cbn. intros Hne. now elim Hne.
Qed.

Lemma X11_witness :
  let w := {| GEMINI_API_KEY := Some (str "k");
              outcome := Responded 429 (str "Too Many Requests")
                           (Throw (Error_ "unused"));
              now := 42;
              insert_fails := fun _ => false |} in
  let db := Store.mkDb [] [] [] [] [] 7%N in
  let req := {| method := str "POST";
                req_body := JObj [(str "prompt", JStr (str "renal"))] |} in
  handler w db req
  = (db, fail 429 "API quota exceeded. Please try again later.")
  /\ fst (handler w db req) = db.
Proof.
  intros w db req.
  assert (H : handler w db req
              = (db, fail 429 "API quota exceeded. Please try again later."))
    by (vm_compute; reflexivity).
  split; [exact H|].
  rewrite H.
  exact (X11_failed_generation_leaves_the_store w db db req _ H
           ltac:(cbn; discriminate)).
Defined.

End GenerateExtras.

(** ** [/api/questions]: what the requests do to the store *)

Module StoreExtras.

Import Questions Spec QuestionsFacts StoreFacts TextFacts.

(** The three ways [handlePost] returns. *)
Lemma handlePost_cases (w : World) (db db' : Store.Db) (b : JSValue)
  (r : Response Body) :
  handlePost w db b = Normal (db', r) ->
  (db' = db /\ status r = 400%N)
  \/ (exists d, r = mkResponse 201 (CreatedScore d)
        /\ Store.scores db' = Store.scores db ++ [d]
        /\ Store.questions db' = Store.questions db)
  \/ (exists d, r = mkResponse 201 (CreatedQuestion d)
        /\ Store.questions db' = Store.questions db ++ [d]
        /\ Store.scores db' = Store.scores db
        /\ Store._id d = Store.next_id db).
Proof.
  unfold handlePost, Get. destruct (is_nullish b); [discriminate|].
  cbn [bind]. destruct (is_string _ _).
  - destruct (prop b (str "score"));
      try (intros [= <- <-]; left; split; reflexivity).
    destruct (prop b (str "total"));
      try (intros [= <- <-]; left; split; reflexivity).
    cbn. intros [= <- <-]. right; left. eexists. repeat split.
  - destruct (prop b (str "correct"));
      try (intros [= <- <-]; left; split; reflexivity).
    destruct (_ || _); [intros [= <- <-]; left; split; reflexivity|].
    destruct (parse_options _);
      [|intros [= <- <-]; left; split; reflexivity].
    destruct (_ || _); [intros [= <- <-]; left; split; reflexivity|].
    cbn. intros [= <- <-]. right; right. eexists. repeat split.
Qed.

(** The two ways [handleDelete] returns. *)
Lemma handleDelete_cases (db db' : Store.Db) (b : JSValue)
  (r : Response Body) :
  handleDelete db b = Normal (db', r) ->
  (db' = db /\ status r = 400%N)
  \/ (exists i ids objectIds,
        is_nullish b = false
        /\ prop b (str "ids") = JArr (i :: ids)
        /\ map_ids (i :: ids) = Normal objectIds
        /\ db' = fst (Store.delete_questions db objectIds)
        /\ r = mkResponse 200
                 (Json (JObj
                    [(str "message",
                      JStr (str "Deleted "
                            ++ Number_toString
                                 (num_of_nat
                                    (snd (Store.delete_questions db objectIds)))
                            ++ str " questions"));
                     (str "count",
                      count (snd (Store.delete_questions db objectIds)))]))).
Proof.
  unfold handleDelete. destruct (is_nullish b); [discriminate|].
  destruct (prop b (str "ids")) as [| |?|?|?|ids|?] eqn:Hids;
    try (intros [= <- <-]; left; split; reflexivity).
  destruct ids as [|i ids]; [intros [= <- <-]; left; split; reflexivity|].
  destruct (map_ids (i :: ids)) as [objectIds|e] eqn:Hm; cbn [bind];
    [|discriminate].
  unfold Store.delete_questions. intros [= <- <-]. right.
  exists i, ids, objectIds. repeat split. exact Hm.
Qed.

(** A request that [handleDelete] accepts. *)
Lemma handleDelete_accepts (db : Store.Db) (b i : JSValue)
  (ids : list JSValue) (objectIds : list Store.IdArg) :
  is_nullish b = false ->
  prop b (str "ids") = JArr (i :: ids) ->
  map_ids (i :: ids) = Normal objectIds ->
  handleDelete db b
  = Normal (fst (Store.delete_questions db objectIds),
            mkResponse 200
              (Json (JObj
                 [(str "message",
                   JStr (str "Deleted "
                         ++ Number_toString
                              (num_of_nat
                                 (snd (Store.delete_questions db objectIds)))
                         ++ str " questions"));
                  (str "count",
                   count (snd (Store.delete_questions db objectIds)))]))).
Proof.
  intros Hn Hids Hm. unfold handleDelete. rewrite Hn, Hids, Hm.
  reflexivity.
Qed.

Lemma filter_split_length {A : Type} (f : A -> bool) (l : list A) :
  length l
  = length (filter f l) + length (filter (fun x => negb (f x)) l).
Proof.
  induction l as [|x l IH]; [reflexivity|].
  cbn [filter]. destruct (f x); cbn [negb length]; lia.
Qed.

Lemma filter_rest_none {A : Type} (f : A -> bool) (l : list A) :
  filter f (filter (fun x => negb (f x)) l) = [].
Proof.
  apply filter_none. intros x Hx. apply filter_In in Hx as [_ Hx].
  now apply negb_true_iff in Hx.
Qed.

Lemma filter_rest_all {A : Type} (f : A -> bool) (l : list A) :
  filter (fun x => negb (f x)) (filter (fun x => negb (f x)) l)
  = filter (fun x => negb (f x)) l.
Proof.
  apply filter_all. intros x Hx. now apply filter_In in Hx as [_ Hx].
Qed.

(** X12.  [/api/questions] writes to the store only when it answers 201 or
    (for [DELETE]) 200: a [GET] request, and every request answered with
    400, 405 or 500, leaves the store exactly as it was. *)
Theorem X12_refused_request_leaves_the_store :
  forall (w : World) (db db' : Store.Db) (req : Request) (r : Response Body),
    handler w db req = (db', r) ->
    method req = str "GET" \/ (400 <= status r)%N ->
    db' = db.
Proof.
  intros w db db' req r. unfold handler. cbv zeta.
  destruct (jsstring_eqb (method req) (str "GET")) eqn:Hget.
  { now intros [= <- <-]. }
  intros H [Hm|Hs].
  { rewrite Hm in Hget. discriminate Hget. }
  revert H.
  destruct (jsstring_eqb (method req) (str "POST")).
  { destruct (handlePost w db (req_body req)) as [[db1 r1]|e] eqn:Hp;
      [|now intros [= <- <-]].
    intros [= -> ->].
    destruct (handlePost_cases _ _ _ _ _ Hp)
      as [[-> _]|[(d & -> & _)|(d & -> & _)]];
      [reflexivity| |]; cbn in Hs; lia. }
  destruct (jsstring_eqb (method req) (str "DELETE")).
  { destruct (handleDelete db (req_body req)) as [[db1 r1]|e] eqn:Hd;
      [|now intros [= <- <-]].
    intros [= -> ->].
    destruct (handleDelete_cases _ _ _ _ Hd)
      as [[-> _]|(i & ids & os & _ & _ & _ & _ & ->)];
      [reflexivity|]. cbn in Hs; lia. }
  now intros [= <- <-].
Qed.

Lemma X12_witness :
  let w := {| now := 5; shuffle := fun l => l |} in
  let db := Store.mkDb [] [] [] [] [] 7%N in
  let req := {| method := str "POST";
                query := mkQuery None None None None;
                req_body :=
                  JObj [(str "question", JStr (str "Q"));
                        (str "options", JStr (json_text "['a','b']"));
                        (str "correct", JNum (num_of_Z 2))] |} in
  handler w db req
  = (db, error 400 (str "Correct answer index must be between 0 and 1"))
  /\ fst (handler w db req) = db.
Proof.
  intros w db req.
  assert (H : handler w db req
              = (db, error 400
                       (str "Correct answer index must be between 0 and 1")))
    by (vm_compute; reflexivity).
  split; [exact H|].
  rewrite H.
  exact (X12_refused_request_leaves_the_store w db db req
           (error 400 (str "Correct answer index must be between 0 and 1")) H
           (or_intror (N.le_refl 400))).
Defined.

(** X13.  No request to [/api/questions] touches the step collections, and
    none removes or changes a stored score: the scores after a request are
    the scores before it, followed by at most one new record.  Stored
    questions are only appended to (at most one per request) unless the
    method is [DELETE], which only removes. *)
Theorem X13_steps_fixed_scores_append_only :
  forall (w : World) (db : Store.Db) (req : Request),
    let db' := fst (handler w db req) in
    Store.step1 db' = Store.step1 db
    /\ Store.step2 db' = Store.step2 db
    /\ Store.step3 db' = Store.step3 db
    /\ (exists new,
          Store.scores db' = Store.scores db ++ new /\ length new <= 1)
    /\ (exists keep new,
          Store.questions db' = filter keep (Store.questions db) ++ new
          /\ length new <= 1
          /\ (method req <> str "DELETE" ->
              filter keep (Store.questions db) = Store.questions db)
          /\ (method req = str "DELETE" -> new = [])).
Proof.
  intros w db req db'.
  assert (Hsame : db' = db ->
    Store.step1 db' = Store.step1 db
    /\ Store.step2 db' = Store.step2 db
    /\ Store.step3 db' = Store.step3 db
    /\ (exists new,
          Store.scores db' = Store.scores db ++ new /\ length new <= 1)
    /\ (exists keep new,
          Store.questions db' = filter keep (Store.questions db) ++ new
          /\ length new <= 1
          /\ (method req <> str "DELETE" ->
              filter keep (Store.questions db) = Store.questions db)
          /\ (method req = str "DELETE" -> new = []))).
  { intros ->. repeat split.
    - exists []. rewrite app_nil_r. split; [reflexivity | cbn; lia].
    - exists (fun _ => true), [].
      rewrite app_nil_r, filter_all by reflexivity.
      split; [reflexivity|]. split; [cbn; lia|]. split; reflexivity. }
  revert Hsame. unfold db'. clear db'. unfold handler. cbv zeta.
  destruct (jsstring_eqb (method req) (str "GET")); [now auto|].
  destruct (jsstring_eqb (method req) (str "POST")) eqn:Hpost.
  { apply jsstring_eqb_eq in Hpost.
    destruct (handlePost w db (req_body req)) as [[db1 r1]|e] eqn:Hp;
      [|now auto].
    cbn [fst]. intros Hsame.
    destruct (handlePost_steps _ _ _ _ _ Hp) as (H1 & H2 & H3).
    destruct (handlePost_cases _ _ _ _ _ Hp)
      as [[-> _]|[(d & _ & Hs & Hq)|(d & _ & Hq & Hs & _)]];
      [now auto| |].
    - repeat split; try assumption.
      + exists [d]. split; [exact Hs | cbn; lia].
      + exists (fun _ => true), [].
        rewrite app_nil_r, filter_all by reflexivity.
        split; [exact Hq|]. split; [cbn; lia|]. split; reflexivity.
    - repeat split; try assumption.
      + exists []. rewrite app_nil_r. split; [exact Hs | cbn; lia].
      + exists (fun _ => true), [d].
        rewrite filter_all by reflexivity.
        split; [exact Hq|]. split; [cbn; lia|]. split; [reflexivity|].
        rewrite Hpost. discriminate. }
  destruct (jsstring_eqb (method req) (str "DELETE")) eqn:Hdel.
  { destruct (handleDelete db (req_body req)) as [[db1 r1]|e] eqn:Hd;
      [|now auto].
    cbn [fst]. intros Hsame.
    destruct (handleDelete_cases _ _ _ _ Hd)
      as [[-> _]|(i & ids & os & _ & _ & _ & -> & _)];
      [now auto|].
    cbn. repeat split.
    - exists []. rewrite app_nil_r. split; [reflexivity | cbn; lia].
    - exists (fun d => negb (Store.matches os (Store._id d))), [].
      rewrite app_nil_r. split; [reflexivity|]. split; [cbn; lia|].
      split; [|reflexivity].
      intros Hne. apply jsstring_eqb_eq in Hdel. now elim Hne. }
  now auto.
Qed.

(** X14.  A [DELETE] answered with 200 reports as [count] exactly the
    number of stored questions it removed, and it is idempotent: the same
    request sent again is answered with [count] 0 and changes nothing. *)
Theorem X14_delete_count_and_repeat :
  forall (w : World) (db db' : Store.Db) (req : Request) (r : Response Body),
    method req = str "DELETE" ->
    handler w db req = (db', r) ->
    status r = 200%N ->
    exists n,
      r = mkResponse 200
            (Json (JObj
               [(str "message",
                 JStr (str "Deleted " ++ Number_toString (num_of_nat n)
                       ++ str " questions"));
                (str "count", count n)]))
      /\ length (Store.questions db) = n + length (Store.questions db')
      /\ handler w db' req
         = (db',
            mkResponse 200
              (Json (JObj [(str "message", JStr (str "Deleted 0 questions"));
                          (str "count", count 0)]))).
Proof.
  intros w db db' req r Hm. unfold handler. cbv zeta. rewrite Hm.
  change (jsstring_eqb (str "DELETE") (str "GET")) with false.
  change (jsstring_eqb (str "DELETE") (str "POST")) with false.
  change (jsstring_eqb (str "DELETE") (str "DELETE")) with true.
  cbv iota.
  destruct (handleDelete db (req_body req)) as [[db1 r1]|e] eqn:Hd;
    [|intros [= <- <-]; discriminate].
  intros [= -> ->] Hs.
  destruct (handleDelete_cases _ _ _ _ Hd)
    as [[_ H400]|(i & ids & os & Hn & Hids & Hmap & -> & ->)].
  { rewrite H400 in Hs. discriminate Hs. }
  exists (snd (Store.delete_questions db os)).
  split; [reflexivity|]. split.
  - cbn [Store.delete_questions fst snd Store.questions].
    apply filter_split_length.
  - rewrite (handleDelete_accepts _ _ _ _ _ Hn Hids Hmap).
    cbn [Store.delete_questions fst snd Store.questions Store.step1
         Store.step2 Store.step3 Store.scores Store.next_id].
    rewrite filter_rest_none, filter_rest_all. reflexivity.
Qed.

Lemma X14_witness :
  let w := {| now := 5; shuffle := fun l => l |} in
  let doc := fun id =>
    {| Store._id := id;
       Store.question := JStr (str "Q");
       Store.options := JStr (json_text "['a','b']");
       Store.correct := JNum (num_of_Z 1);
       Store.explanation := JStr [];
       Store.subject := JStr [];
       Store.difficulty := JStr (str "Medium");
       Store.createdAt := 1 |} in
  let db := Store.mkDb [] [] [] [doc 10%N; doc 11%N; doc 10%N] [] 12%N in
  let db' := Store.mkDb [] [] [] [doc 11%N] [] 12%N in
  let req := {| method := str "DELETE";
                query := mkQuery None None None None;
                req_body :=
                  JObj [(str "ids",
                         JArr [JStr (str "00000000000000000000000A");
                               JNull])] |} in
  handler w db req
  = (db',
     mkResponse 200
       (Json (JObj [(str "message", JStr (str "Deleted 2 questions"));
                   (str "count", count 2)])))
  /\ handler w db' req
     = (db',
        mkResponse 200
          (Json (JObj [(str "message", JStr (str "Deleted 0 questions"));
                      (str "count", count 0)]))).
Proof.
  intros w doc db db' req.
  assert (H : handler w db req
              = (db',
                 mkResponse 200
                   (Json (JObj [(str "message", JStr (str "Deleted 2 questions"));
                               (str "count", count 2)]))))
    by (vm_compute; reflexivity).
  split; [exact H|].
  destruct (X14_delete_count_and_repeat w db db' req _ eq_refl H eq_refl)
    as (n & _ & _ & Hagain).
  exact Hagain.
Defined.

(** *** Identifiers and their hex spelling *)

Lemma hex_digits_value (n : nat) :
  forall (v : N) (acc : jsstring) (a : N),
    fold_left
      (fun acc c =>
         match hex_value c with Some d => acc * 16 + d | None => acc end)%N
      (Store.hex_digits n v acc) a
    = fold_left
        (fun acc c =>
           match hex_value c with Some d => acc * 16 + d | None => acc end)%N
        acc (a * 16 ^ N.of_nat n + v mod 16 ^ N.of_nat n)%N.
Proof.
  induction n as [|n IH]; intros v acc a.
  - cbn [Store.hex_digits]. f_equal. change (N.of_nat 0) with 0%N.
    rewrite N.pow_0_r, N.mod_1_r. lia.
  - cbn [Store.hex_digits]. rewrite IH. cbn [fold_left].
    rewrite hex_char_value by (apply N.mod_lt; discriminate).
    f_equal. rewrite Nat2N.inj_succ, N.pow_succ_r by lia.
    rewrite (N.Div0.mod_mul_r v 16 (16 ^ N.of_nat n)). lia.
Qed.

Lemma hex_digits_length (n : nat) :
  forall (v : N) (acc : jsstring),
    length (Store.hex_digits n v acc) = n + length acc.
Proof.
  induction n as [|n IH]; intros v acc; [reflexivity|].
  cbn [Store.hex_digits]. rewrite IH. cbn [length]. lia.
Qed.

Lemma hex_digits_hex (n : nat) :
  forall (v : N) (acc : jsstring),
    forallb Store.is_hex acc = true ->
    forallb Store.is_hex (Store.hex_digits n v acc) = true.
Proof.
  induction n as [|n IH]; intros v acc Hacc; [exact Hacc|].
  cbn [Store.hex_digits]. apply IH. cbn [forallb]. rewrite Hacc.
  unfold Store.is_hex at 1.
  rewrite hex_char_value by (apply N.mod_lt; discriminate). reflexivity.
Qed.

(** [new ObjectId(id.toString())] is [id] again. *)
Lemma id_of_its_string (id : Store.ObjectId) :
  (id < 16 ^ 24)%N ->
  Store.id_of_string (Store.ObjectId_toString id) = Normal (Store.Spelled id).
Proof.
  intros Hid. unfold Store.id_of_string, Store.ObjectId_toString.
  rewrite hex_digits_length, hex_digits_hex by reflexivity.
  cbn [length Nat.add Nat.eqb andb]. unfold Store.hex_number.
  rewrite hex_digits_value. cbn [fold_left].
  rewrite N.mul_0_l, N.add_0_l.
  change (N.of_nat 24) with 24%N. now rewrite N.mod_small.
Qed.

(** X15.  A question created through [POST /api/questions] can be taken
    back with [DELETE]: sending the hex spelling of the identifier the
    creation returned removes exactly that question (count 1) and leaves
    the stored questions as they were before the creation.  (The driver
    hands out an identifier of twelve bytes that no stored question
    carries.) *)
Theorem X15_created_question_can_be_deleted :
  forall (w : World) (db db1 : Store.Db) (q : Query) (body : JSValue)
         (d : Store.QuestionDoc),
    (Store.next_id db < 16 ^ 24)%N ->
    (forall x, In x (Store.questions db) -> Store._id x <> Store.next_id db) ->
    handler w db (mkRequest (str "POST") q body)
    = (db1, mkResponse 201 (CreatedQuestion d)) ->
    exists db2,
      handler w db1
        (mkRequest (str "DELETE") q
           (JObj [(str "ids",
                   JArr [JStr (Store.ObjectId_toString (Store._id d))])]))
      = (db2,
         mkResponse 200
           (Json (JObj [(str "message", JStr (str "Deleted 1 questions"));
                       (str "count", count 1)])))
      /\ Store.questions db2 = Store.questions db
      /\ Store.scores db2 = Store.scores db.
Proof.
  intros w db db1 q body d Hid Hfresh. unfold handler. cbv zeta.
  cbn [method req_body].
  change (jsstring_eqb (str "POST") (str "GET")) with false.
  change (jsstring_eqb (str "POST") (str "POST")) with true.
  change (jsstring_eqb (str "DELETE") (str "GET")) with false.
  change (jsstring_eqb (str "DELETE") (str "POST")) with false.
  change (jsstring_eqb (str "DELETE") (str "DELETE")) with true.
  cbv iota.
  destruct (handlePost w db body) as [[db1' r1]|e] eqn:Hp;
    [|discriminate].
  intros [= -> ->].
  destruct (handlePost_cases _ _ _ _ _ Hp)
    as [[_ H400]|[(d' & [=] & _)|(d' & [= <-] & Hq & Hs & Hd)]];
    [discriminate H400|].
  rewrite (handleDelete_accepts db1 _
             (JStr (Store.ObjectId_toString (Store._id d))) []
             [Store.Spelled (Store._id d)]);
    [|reflexivity|reflexivity|].
  2:{ cbn [map_ids Store.new_ObjectId]. rewrite Hd, id_of_its_string by exact Hid.
      reflexivity. }
  assert (Hkeep :
    filter (fun x => negb (Store.matches [Store.Spelled (Store._id d)]
                             (Store._id x)))
      (Store.questions db1) = Store.questions db).
  { rewrite Hq, filter_app. cbn [filter Store.matches existsb].
    rewrite N.eqb_refl. cbn [orb negb]. rewrite app_nil_r.
    apply filter_all. intros x Hx. rewrite orb_false_r.
    apply negb_true_iff, N.eqb_neq. rewrite Hd.
    intros Heq. exact (Hfresh x Hx (eq_sym Heq)). }
  assert (Hgone :
    filter (fun x => Store.matches [Store.Spelled (Store._id d)] (Store._id x))
      (Store.questions db1) = [d]).
  { rewrite Hq, filter_app. cbn [filter Store.matches existsb].
    rewrite N.eqb_refl. cbn [orb].
    rewrite filter_none; [reflexivity|].
    intros x Hx. rewrite orb_false_r. apply N.eqb_neq. rewrite Hd.
    intros Heq. exact (Hfresh x Hx (eq_sym Heq)). }
  eexists. cbn [Store.delete_questions fst snd].
  rewrite Hkeep, Hgone. split; [reflexivity|].
  cbn [Store.questions Store.scores]. split; [reflexivity|exact Hs].
Qed.

Lemma X15_witness :
  let w := {| now := 5; shuffle := fun l => l |} in
  let db := Store.mkDb [] [] [] [] [] 255%N in
  let q := mkQuery None None None None in
  let body := JObj [(str "question", JStr (str "Q"));
                    (str "options", JStr (json_text "['a','b']"));
                    (str "correct", JNum (num_of_Z 1))] in
  let d := {| Store._id := 255%N;
              Store.question := JStr (str "Q");
              Store.options := JStr (json_text "['a','b']");
              Store.correct := JNum (num_of_Z 1);
              Store.explanation := JStr [];
              Store.subject := JStr [];
              Store.difficulty := JStr (str "Medium");
              Store.createdAt := 5 |} in
  let db1 := Store.mkDb [] [] [] [d] [] 256%N in
  handler w db (mkRequest (str "POST") q body)
  = (db1, mkResponse 201 (CreatedQuestion d))
  /\ Store.ObjectId_toString (Store._id d) = str "0000000000000000000000ff"
  /\ exists db2,
       handler w db1
         (mkRequest (str "DELETE") q
            (JObj [(str "ids",
                    JArr [JStr (Store.ObjectId_toString (Store._id d))])]))
       = (db2,
          mkResponse 200
            (Json (JObj [(str "message", JStr (str "Deleted 1 questions"));
                        (str "count", count 1)])))
       /\ Store.questions db2 = Store.questions db
       /\ Store.scores db2 = Store.scores db.
Proof.
  intros w db q body d db1.
  assert (H : handler w db (mkRequest (str "POST") q body)
              = (db1, mkResponse 201 (CreatedQuestion d)))
    by (vm_compute; reflexivity).
  split; [exact H|]. split; [vm_compute; reflexivity|].
  apply (X15_created_question_can_be_deleted w db db1 q body d).
  - reflexivity.
  - intros x [].
  - exact H.
Defined.

(** X16.  The statistics follow the store: after a question has been
    created through [POST /api/questions], [GET /api/questions?type=stats]
    reports one more AI-generated question and one more in total, and the
    same step counts as before. *)
Theorem X16_stats_count_a_created_question :
  forall (w : World) (db db1 : Store.Db) (req : Request)
         (d : Store.QuestionDoc) (q : Query),
    handler w db req = (db1, mkResponse 201 (CreatedQuestion d)) ->
    is_type q "stats" = true ->
    let steps := length (Store.step1 db) + length (Store.step2 db)
                 + length (Store.step3 db) in
    handleGet w db q
    = mkResponse 200
        (Json (JObj [(str "step1", count (length (Store.step1 db)));
                    (str "step2", count (length (Store.step2 db)));
                    (str "step3", count (length (Store.step3 db)));
                    (str "aiGenerated", count (length (Store.questions db)));
                    (str "stepTotal", count steps);
                    (str "total",
                     count (steps + length (Store.questions db)))]))
    /\ handleGet w db1 q
       = mkResponse 200
           (Json (JObj [(str "step1", count (length (Store.step1 db)));
                       (str "step2", count (length (Store.step2 db)));
                       (str "step3", count (length (Store.step3 db)));
                       (str "aiGenerated",
                        count (S (length (Store.questions db))));
                       (str "stepTotal", count steps);
                       (str "total",
                        count (S (steps + length (Store.questions db))))])).
Proof.
  intros w db db1 req d q H Hstats steps.
  assert (Hq : Store.questions db1 = Store.questions db ++ [d]
               /\ Store.step1 db1 = Store.step1 db
               /\ Store.step2 db1 = Store.step2 db
               /\ Store.step3 db1 = Store.step3 db).
  { revert H. unfold handler. cbv zeta.
    destruct (jsstring_eqb (method req) (str "GET")).
    { unfold handleGet.
      destruct (is_type (query req) "stats"); [discriminate|].
      destruct (is_type (query req) "scores"); discriminate. }
    destruct (jsstring_eqb (method req) (str "POST")).
    - destruct (handlePost w db (req_body req)) as [[db1' r1]|e] eqn:Hp;
        [|discriminate].
      intros [= -> ->].
      destruct (handlePost_steps _ _ _ _ _ Hp) as (H1 & H2 & H3).
      destruct (handlePost_cases _ _ _ _ _ Hp)
        as [[_ H400]|[(d' & [=] & _)|(d' & [= <-] & Hq & _)]];
        [discriminate H400|].
      auto.
    - destruct (jsstring_eqb (method req) (str "DELETE")); [|discriminate].
      destruct (handleDelete db (req_body req)) as [[db1' r1]|e] eqn:Hd;
        [|discriminate].
      intros [= -> ->].
      destruct (handleDelete_cases _ _ _ _ Hd)
        as [[_ H400]|(i & ids & os & _ & _ & _ & _ & [=])].
      discriminate H400. }
  destruct Hq as (Hq & H1 & H2 & H3).
  unfold handleGet. rewrite Hstats. cbv zeta.
  rewrite Hq, H1, H2, H3, length_app. cbn [length].
  split; [reflexivity|].
  repeat f_equal; unfold steps; lia.
Qed.

Lemma X16_witness :
  let w := {| now := 5; shuffle := fun l => l |} in
  let db := Store.mkDb [] [] [] [] [] 255%N in
  let q := mkQuery (Some (str "stats")) None None None in
  let body := JObj [(str "question", JStr (str "Q"));
                    (str "options", JStr (json_text "['a','b']"));
                    (str "correct", JNum (num_of_Z 1))] in
  let d := {| Store._id := 255%N;
              Store.question := JStr (str "Q");
              Store.options := JStr (json_text "['a','b']");
              Store.correct := JNum (num_of_Z 1);
              Store.explanation := JStr [];
              Store.subject := JStr [];
              Store.difficulty := JStr (str "Medium");
              Store.createdAt := 5 |} in
  let db1 := Store.mkDb [] [] [] [d] [] 256%N in
  handler w db (mkRequest (str "POST") q body)
  = (db1, mkResponse 201 (CreatedQuestion d))
  /\ handleGet w db1 q
     = mkResponse 200
         (Json (JObj [(str "step1", count 0);
                     (str "step2", count 0);
                     (str "step3", count 0);
                     (str "aiGenerated", count 1);
                     (str "stepTotal", count 0);
                     (str "total", count 1)])).
Proof.
  intros w db q body d db1.
  assert (H : handler w db (mkRequest (str "POST") q body)
              = (db1, mkResponse 201 (CreatedQuestion d)))
    by (vm_compute; reflexivity).
  split; [exact H|].
  exact (proj2 (X16_stats_count_a_created_question w db db1 _ d q H eq_refl)).
Defined.

(** X17.  A score posted with [total] 0 and no (or a zero) percentage is
    accepted and stored, and the percentage stored with it is not a finite
    number: it is [NaN] or an infinity, since the division is not
    guarded. *)
Theorem X17_zero_total_percentage_is_not_finite :
  forall (w : World) (db : Store.Db) (body : JSValue) (s : number)
         (negative : bool),
    is_string (prop body (str "type")) "score" = true ->
    prop body (str "score") = JNum s ->
    prop body (str "total") = JNum (S754_zero negative) ->
    truthy (prop body (str "percentage")) = false ->
    exists db' d p,
      handlePost w db body = Normal (db', mkResponse 201 (CreatedScore d))
      /\ Store.scores db' = Store.scores db ++ [d]
      /\ Store.percentage d = JNum p
      /\ (p = S754_nan \/ exists sign, p = S754_infinity sign).
Proof.
  intros w db body s negative Htype Hscore Htotal Hperc.
  unfold handlePost, Get.
  destruct (is_nullish body) eqn:Hn.
  { destruct body; try discriminate Hn; discriminate Htype. }
  cbn [bind]. rewrite Htype, Hscore, Htotal.
  unfold Store.insert_score, js_or. rewrite Hperc.
  do 3 eexists. split; [reflexivity|].
  cbn [Store.scores Store.percentage]. split; [reflexivity|].
  split; [reflexivity|].
  assert (Hh : exists m e, hundred = S754_finite false m e)
    by (vm_compute; eauto).
  destruct Hh as (m & e & ->).
  unfold num_mul, num_div.
  destruct s as [sg| sg | |sg ms es]; cbn; eauto.
Qed.

Lemma X17_witness :
  let w := {| now := 5; shuffle := fun l => l |} in
  let db := Store.mkDb [] [] [] [] [] 7%N in
  let body := JObj [(str "type", JStr (str "score"));
                    (str "score", JNum (S754_zero false));
                    (str "total", JNum (S754_zero false))] in
  exists db' d,
    handlePost w db body = Normal (db', mkResponse 201 (CreatedScore d))
    /\ Store.percentage d = JNum S754_nan.
Proof.
  intros w db body.
  destruct (X17_zero_total_percentage_is_not_finite w db body
              (S754_zero false) false eq_refl eq_refl eq_refl eq_refl)
    as (db' & d & p & H & _ & Hp & _).
  exists db', d. split; [exact H|].
  revert H. vm_compute. intros [= <- <-]. reflexivity.
Defined.

(** X18.  [POST /api/questions] takes the options as an array or as the
    JSON text of that array, with the same outcome: for an array of
    strings, the two request bodies give the same response and the same
    store, in which the options are kept as the JSON text. *)
Theorem X18_options_as_array_or_text :
  forall (w : World) (db : Store.Db) (rest : list (jsstring * JSValue))
         (l : list jsstring) (text : jsstring),
    JSON_stringify (JArr (map JStr l)) = JStr text ->
    handlePost w db (JObj ((str "options", JArr (map JStr l)) :: rest))
    = handlePost w db (JObj ((str "options", JStr text) :: rest)).
Proof.
  intros w db rest l text Htext.
  destruct (parse_stringify_strings l) as (text' & Hs & Hparse).
  rewrite Htext in Hs. injection Hs as <-.
  assert (Hne : truthy (JStr text) = true).
  { revert Htext. unfold JSON_stringify. rewrite stringify_strings.
    intros [= <-]. reflexivity. }
  assert (Hother : forall v k,
            jsstring_eqb (str "options") k = false ->
            prop (JObj ((str "options", v) :: rest)) k = prop (JObj rest) k).
  { intros v k Hk. cbn [prop lookup]. now rewrite Hk. }
  assert (Hopt : forall v, prop (JObj ((str "options", v) :: rest))
                             (str "options") = v)
    by reflexivity.
  unfold handlePost, Get. cbn [is_nullish bind].
  rewrite !Hopt, !Hother by reflexivity.
  unfold parse_options. rewrite Hparse, Hne.
  cbn [truthy typeof JSType_eqb]. rewrite Htext. reflexivity.
Qed.

Lemma X18_witness :
  let w := {| now := 5; shuffle := fun l => l |} in
  let db := Store.mkDb [] [] [] [] [] 7%N in
  let rest := [(str "question", JStr (str "Q"));
               (str "correct", JNum (num_of_Z 1))] in
  let l := [str "a"; str "b\c"] in
  let text := json_text "['a','b\\c']" in
  JSON_stringify (JArr (map JStr l)) = JStr text
  /\ handlePost w db (JObj ((str "options", JArr (map JStr l)) :: rest))
     = handlePost w db (JObj ((str "options", JStr text) :: rest)).
Proof.
  intros w db rest l text.
  assert (H : JSON_stringify (JArr (map JStr l)) = JStr text)
    by (vm_compute; reflexivity).
  split; [exact H|].
  exact (X18_options_as_array_or_text w db rest l text H).
Defined.

End StoreExtras.

(** ** Requests that are turned away, and parameters that are not read *)

Module RequestExtras.

Import Spec TextFacts.

(** X19.  [POST /api/generate] turns a request away before the AI service
    is asked, whatever the service would answer: a method other than POST
    gives 405; a body that is [null] or [undefined] gives 500 (the
    destructuring throws); a prompt that is missing, empty or not a string
    gives 400; and an unset or empty [GEMINI_API_KEY] gives 500.  The store
    is left as it was each time. *)
Theorem X19_generate_requests_turned_away :
  forall (w : Generate.World) (db : Store.Db) (req : Generate.Request),
    let prompt := prop (Generate.req_body req) (str "prompt") in
    (Generate.method req <> str "POST" ->
     Generate.handler w db req = (db, Generate.fail 405 "Method not allowed"))
    /\ (Generate.method req = str "POST" ->
        is_nullish (Generate.req_body req) = true ->
        Generate.handler w db req
        = (db, Generate.fail 500
                 "Internal server error. Please try again later."))
    /\ (Generate.method req = str "POST" ->
        is_nullish (Generate.req_body req) = false ->
        truthy prompt = false \/ typeof prompt <> TyString ->
        Generate.handler w db req
        = (db, Generate.fail 400 "Valid prompt is required"))
    /\ (Generate.method req = str "POST" ->
        is_nullish (Generate.req_body req) = false ->
        truthy prompt = true -> typeof prompt = TyString ->
        Gemini.env_unset (Generate.GEMINI_API_KEY w) = true ->
        Generate.handler w db req
        = (db, Generate.fail 500
                 "Gemini API key not configured. Please set GEMINI_API_KEY in environment variables.")).
Proof.
  intros w db req prompt. unfold Generate.handler. repeat split.
  - intros Hm.
    destruct (jsstring_eqb (Generate.method req) (str "POST")) eqn:E;
      [|reflexivity].
    apply StoreFacts.jsstring_eqb_eq in E. now elim Hm.
  - intros -> Hn.
    change (jsstring_eqb (str "POST") (str "POST")) with true. cbv iota.
    cbn [negb]. unfold Generate.attempt. rewrite Hn.
    destruct (Generate.req_body req); try discriminate Hn; reflexivity.
  - intros -> Hn Hp.
    change (jsstring_eqb (str "POST") (str "POST")) with true.
    cbn [negb]. unfold Generate.attempt. rewrite Hn. fold prompt.
    destruct Hp as [Hp|Hp].
    + rewrite Hp. reflexivity.
    + destruct (typeof prompt); try (now elim Hp);
        cbn [JSType_eqb negb]; rewrite orb_true_r; reflexivity.
  - intros -> Hn Hp Ht Hk.
    change (jsstring_eqb (str "POST") (str "POST")) with true.
    cbn [negb]. unfold Generate.attempt. rewrite Hn. fold prompt.
    rewrite Hp, Ht, Hk. reflexivity.
Qed.

(** X20.  A question that [POST /api/questions] has created from options
    sent as a JSON text, or as an array of strings, is ready for the quiz
    page: parsing its stored options gives an array of at least two items,
    and its correct index is a number that is neither below 0 nor at or
    beyond the number of options. *)
Theorem X20_created_question_is_quiz_ready :
  forall (w : Questions.World) (db db' : Store.Db) (b : JSValue)
         (d : Store.QuestionDoc),
    Questions.handlePost w db b
    = Normal (db', mkResponse 201 (Questions.CreatedQuestion d)) ->
    typeof (prop b (str "options")) = TyString
    \/ (exists l, prop b (str "options") = JArr (map JStr l)) ->
    exists opts c,
      Quiz.parsedOptions (Store.options d) = Some (JArr opts)
      /\ 2 <= length opts
      /\ Store.correct d = JNum c
      /\ num_lt c Gemini.zero = false
      /\ num_ge c (num_of_nat (length opts)) = false.
Proof.
  intros w db db' b d H Hform. revert H.
  unfold Questions.handlePost, Get.
  set (o := prop b (str "options")) in *. clearbody o.
  destruct (is_nullish b); [discriminate|]. cbn [bind].
  destruct (is_string _ _).
  { destruct (prop b (str "score")); try discriminate.
    destruct (prop b (str "total")); discriminate. }
  destruct (prop b (str "correct")) as [| | |c| | |]; try discriminate.
  destruct (_ || _); [discriminate|].
  destruct (Questions.parse_options o) as [opts|] eqn:Hparse; [|discriminate].
  destruct (_ || _) eqn:Hrange; [discriminate|].
  apply orb_false_iff in Hrange as [Hlo Hhi].
  unfold Store.insert_question. intros [= _ <-].
  cbn [Store.options Store.correct].
  exists opts, c.
  enough (Hx : Quiz.parsedOptions
                 (if JSType_eqb (typeof o) TyString then o
                  else JSON_stringify o) = Some (JArr opts)
               /\ 2 <= length opts)
    by (destruct Hx; repeat split; assumption).
  revert Hparse. unfold Questions.parse_options.
  destruct Hform as [Ht|[l ->]].
  - destruct o as [| |?|?|s|?|?]; try discriminate Ht.
    cbn [typeof JSType_eqb Quiz.parsedOptions].
    destruct (JSON_parse s) as [[| |?|?|?|l|?]|]; try discriminate.
    destruct (Nat.ltb_spec (length l) 2); [discriminate|].
    intros [= <-]. split; [reflexivity|assumption].
  - cbn [typeof JSType_eqb].
    destruct (parse_stringify_strings l) as (text & -> & Hp).
    cbn [Quiz.parsedOptions]. rewrite Hp.
    destruct (Nat.ltb_spec (length (map JStr l)) 2); [discriminate|].
    intros [= <-]. split; [reflexivity|assumption].
Qed.

Lemma X20_witness :
  let w := {| Questions.now := 5; Questions.shuffle := fun l => l |} in
  let db := Store.mkDb [] [] [] [] [] 7%N in
  let b := JObj [(str "question", JStr (str "Q"));
                 (str "options", JArr [JStr (str "a"); JStr (str "b")]);
                 (str "correct", JNum (num_of_Z 1))] in
  let d := {| Store._id := 7%N;
              Store.question := JStr (str "Q");
              Store.options := JStr (json_text "['a','b']");
              Store.correct := JNum (num_of_Z 1);
              Store.explanation := JStr [];
              Store.subject := JStr [];
              Store.difficulty := JStr (str "Medium");
              Store.createdAt := 5 |} in
  Questions.handlePost w db b
  = Normal (Store.mkDb [] [] [] [d] [] 8%N,
            mkResponse 201 (Questions.CreatedQuestion d))
  /\ exists opts c,
       Quiz.parsedOptions (Store.options d) = Some (JArr opts)
       /\ 2 <= length opts
       /\ Store.correct d = JNum c
       /\ num_lt c Gemini.zero = false
       /\ num_ge c (num_of_nat (length opts)) = false.
Proof.
  intros w db b d.
  assert (H : Questions.handlePost w db b
              = Normal (Store.mkDb [] [] [] [d] [] 8%N,
                        mkResponse 201 (Questions.CreatedQuestion d)))
    by (vm_compute; reflexivity).
  split; [exact H|].
  apply (X20_created_question_is_quiz_ready w db _ b d H).
  right. exists [str "a"; str "b"]. reflexivity.
Defined.

End RequestExtras.
